(** * Porch package-revision engine ([porch/pkg/engine/engine.go])

    A shallow embedding of the orchestration engine: the data model of the
    API objects the engine reads, the pure helpers of [engine.go], and the
    engine operations written in a state-and-error monad over the
    collaborators the engine is handed at construction (repository cache,
    repository driver, drafts, metadata store, mutations declared in other
    files).  Every call the engine makes to the repository driver, to a draft
    or to the metadata store is recorded in a call log, so that statements
    such as "no draft is opened" can be read off the log. *)

From Stdlib Require Import Ascii String.
From stdpp Require Import base option list gmap strings fin_maps.

Local Open Scope string_scope.
Local Open Scope list_scope.

(** ** Strings as Go has them

    A Go string is a sequence of bytes; [String.string] is a list of
    [ascii], one per byte. *)

Module GoStrings.

Definition byte_of (c : ascii) : N := N_of_ascii c.

(** [path.Ext]: the suffix beginning at the final dot in the final
    slash-separated element of the path; empty if there is no dot.

    The Go loop scans from the end; here the scan runs from the start and
    keeps the candidate found last, forgetting it at every slash. *)
Fixpoint Ext_from (p : string) (found : option string) : string :=
  match p with
  | EmptyString => default "" found
  | String c rest =>
      if Ascii.eqb c "/" then Ext_from rest None
      else if Ascii.eqb c "." then Ext_from rest (Some p)
      else Ext_from rest found
  end.

Definition Ext (p : string) : string := Ext_from p None.

(** [strings.ToLower] on the ASCII letters.  On other runes Go applies the
    Unicode simple lower-case mapping, whose only ASCII images of
    non-ASCII runes are [k] and [i]; neither occurs in [.yaml] or [.yml],
    the two values the result is compared with. *)
Definition lower_ascii (c : ascii) : ascii :=
  let n := byte_of c in
  if ((65 <=? n) && (n <=? 90))%N then ascii_of_N (n + 32) else c.

Fixpoint ToLower (s : string) : string :=
  match s with
  | EmptyString => EmptyString
  | String c rest => String (lower_ascii c) (ToLower rest)
  end.

Fixpoint HasPrefix (pre s : string) : bool :=
  match pre, s with
  | EmptyString, _ => true
  | String a pre', String b s' => Ascii.eqb a b && HasPrefix pre' s'
  | String _ _, EmptyString => false
  end.

(** [strings.Split s sep] for a non-empty separator: the pieces between
    the leftmost non-overlapping occurrences of [sep].  [skip] counts the
    bytes of a separator still to be passed over; [cur] is the piece being
    read, in reverse. *)
Fixpoint Split_from (sep s : string) (skip : nat) (cur : list ascii)
  : list string :=
  match s with
  | EmptyString => [string_of_list_ascii (rev cur)]
  | String c rest =>
      match skip with
      | S k => Split_from sep rest k cur
      | O =>
          if HasPrefix sep s
          then string_of_list_ascii (rev cur)
                 :: Split_from sep rest (String.length sep - 1) []
          else Split_from sep rest 0 (c :: cur)
      end
  end.

Definition Split (s sep : string) : list string := Split_from sep s 0 [].

(** UTF-8 decoding as the [range] clause over a string performs it: a
    well-formed shortest-form sequence yields its code point, any other
    byte yields [U+FFFD] and is passed over alone. *)
Definition RuneError : N := 65533.

Definition cont (b : N) : bool := ((128 <=? b) && (b <=? 191))%N.
Definition within (lo hi b : N) : bool := ((lo <=? b) && (b <=? hi))%N.

Definition second_ok (b0 b1 : N) : bool :=
  if (b0 =? 224)%N then within 160 191 b1
  else if (b0 =? 237)%N then within 128 159 b1
  else if (b0 =? 240)%N then within 144 191 b1
  else if (b0 =? 244)%N then within 128 143 b1
  else cont b1.

Fixpoint runes (s : list N) : list N :=
  match s with
  | [] => []
  | b0 :: t0 =>
      if (b0 <? 128)%N then b0 :: runes t0
      else
        match t0 with
        | b1 :: t1 =>
            if within 194 223 b0 then
              if cont b1
              then ((b0 - 192) * 64 + (b1 - 128))%N :: runes t1
              else RuneError :: runes t0
            else
              match t1 with
              | b2 :: t2 =>
                  if within 224 239 b0 then
                    if second_ok b0 b1 && cont b2
                    then ((b0 - 224) * 4096 + (b1 - 128) * 64
                          + (b2 - 128))%N :: runes t2
                    else RuneError :: runes t0
                  else
                    match t2 with
                    | b3 :: t3 =>
                        if within 240 244 b0 && second_ok b0 b1
                           && cont b2 && cont b3
                        then ((b0 - 240) * 262144 + (b1 - 128) * 4096
                              + (b2 - 128) * 64 + (b3 - 128))%N :: runes t3
                        else RuneError :: runes t0
                    | [] => RuneError :: runes t0
                    end
              | [] => RuneError :: runes t0
              end
        | [] => [RuneError]
        end
  end.

Definition bytes (s : string) : list N := byte_of <$> list_ascii_of_string s.

(** [unicode.IsSpace]: the Latin-1 spaces listed in the Go source, and the
    [White_Space] property above Latin-1. *)
Definition IsSpace (r : N) : bool :=
  if (r <=? 255)%N then
    (within 9 13 r || (r =? 32) || (r =? 133) || (r =? 160))%N
  else
    ((r =? 5760) || within 8192 8202 r || within 8232 8233 r
     || (r =? 8239) || (r =? 8287) || (r =? 12288))%N.

End GoStrings.

(** [isWhitespace]: every rune of the string is a space. *)
Definition isWhitespace (s : string) : bool :=
  forallb GoStrings.IsSpace (GoStrings.runes (GoStrings.bytes s)).


(** ** Errors and results

    The engine builds its own errors with [fmt.Errorf]; each constructor
    stands for one call site and is named after the message.  Errors that
    come back from a collaborator are opaque to the engine. *)

Inductive Error : Type :=
  | ErrCollaborator (msg : string)
      (* an error returned by the cache, a repository, a draft, the
         metadata store, a mutation declared elsewhere, or a library *)
  | ErrCreateFinal
      (* "cannot create a package revision with lifecycle value 'Final'" *)
  | ErrUnsupportedLifecycle (lifecycle : string)
      (* "unsupported lifecycle value: %s" *)
  | ErrInvalidOriginalLifecycle (lifecycle : string)
      (* "invalid original lifecycle value: %q" *)
  | ErrInvalidDesiredLifecycle (lifecycle : string)
      (* "invalid desired lifecycle value: %q" *)
  | ErrMustBeDraft (lifecycle : string)
      (* "cannot update a package revision with lifecycle value %q; package
         must be Draft" *)
  | ErrRemovingTasks
      (* "removing tasks is not yet supported" *)
  | ErrChangingTaskTypes
      (* "changing task types is not yet supported" *)
  | ErrAppendOneTask
      (* "can only append one task at a time" *)
  | ErrAppendedTaskType (type : string)
      (* "appended task is type %q, must be type %q" *)
  | ErrUpdateTaskNotSet (type : string)
      (* "update not set for updateTask of type %q" *)
  | ErrUpstreamNotFound (pkg : string)
      (* "upstream source not found for package rev %q; only cloned packages
         can be updated" *)
  | ErrPayloadNotSet (payload type : string)
      (* "init not set for task of type %q", and the same for clone, update,
         edit and eval *)
  | ErrTaskNotSupported (type : string)
      (* "task of type %q not supported" *)
  | ErrParentResources (parent : string) (cause : Error)
      (* "error getting resources from parent package %q: %w" *)
  | ErrParentConfiguration (parent : string) (cause : Error)
      (* "error getting configuration from parent package %q: %w" *)
  | ErrParentConfigMap (cause : Error)
      (* "error parsing ConfigMap from parent configuration: %w" *)
  | ErrParsingYaml (path : string) (cause : Error)
      (* "error parsing yaml from %s: %w" *)
  | ErrMultipleConfigMaps
      (* "found multiple configmaps matching name %q" *)
  | ErrCannotGetResources (cause : Error)
      (* "cannot get package resources: %w" *)
  | ErrHealResources (cause : Error)
      (* "failed to heal resources: %w" *)
  | ErrReadOldResources (cause : Error)
      (* "failed to read old packge resources: %w" *)
  | ErrGeneratingPatch (cause : Error)
      (* "error generating patch: %w" *)
  | PanicUnknownConditionStatus (status : string)
      (* panic(fmt.Errorf("unknown condition status: %v", s)) *).

Inductive result (A : Type) : Type :=
  | Ok (a : A)
  | Err (e : Error).
Arguments Ok {A} a.
Arguments Err {A} e.

Definition is_Ok {A} (r : result A) : bool :=
  match r with Ok _ => true | Err _ => false end.

(** ** Data model: the API objects ([porch/api/porch/v1alpha1]) *)

(** Task types and lifecycle values are string-typed constants of the API
    package; a field of either type can hold any string, the empty one when
    it is left unset. *)
Definition TaskType := string.
Definition TaskTypeInit : TaskType := "init".
Definition TaskTypeClone : TaskType := "clone".
Definition TaskTypePatch : TaskType := "patch".
Definition TaskTypeEdit : TaskType := "edit".
Definition TaskTypeEval : TaskType := "eval".
Definition TaskTypeUpdate : TaskType := "update".

Definition PackageRevisionLifecycle := string.
Definition PackageRevisionLifecycleDraft : PackageRevisionLifecycle := "Draft".
Definition PackageRevisionLifecycleProposed : PackageRevisionLifecycle := "Proposed".
Definition PackageRevisionLifecyclePublished : PackageRevisionLifecycle := "Published".

Definition RepositoryType := string.
Definition RepositoryTypeGit : RepositoryType := "git".
Definition RepositoryTypeOCI : RepositoryType := "oci".

Definition PatchType := string.
Definition PatchTypeCreateFile : PatchType := "CreateFile".
Definition PatchTypeDeleteFile : PatchType := "DeleteFile".
Definition PatchTypePatchFile : PatchType := "PatchFile".

Definition ConditionStatus := string.
Definition ConditionTrue : ConditionStatus := "True".
Definition ConditionFalse : ConditionStatus := "False".
Definition ConditionUnknown : ConditionStatus := "Unknown".

Record PackageInitTaskSpec := {
  init_Subpackage : string;
  init_Description : string;
  init_Keywords : list string;
  init_Site : string }.

Record PackageRevisionRef := { ref_Name : string }.

Record GitPackage := {
  git_Repo : string; git_Ref : string; git_Directory : string }.

Record OciPackage := { oci_Image : string }.

Record UpstreamPackage := {
  up_Type : RepositoryType;
  up_Git : option GitPackage;
  up_Oci : option OciPackage;
  up_UpstreamRef : option PackageRevisionRef }.

Record PackageCloneTaskSpec := {
  clone_Upstream : UpstreamPackage;
  clone_Strategy : string }.

Record PackageUpdateTaskSpec := { update_Upstream : UpstreamPackage }.

Record PatchSpec := {
  patch_File : string;
  patch_Contents : string;
  patch_PatchType : PatchType }.

Record PackagePatchTaskSpec := { Patches : list PatchSpec }.

Record PackageEditTaskSpec := { edit_Source : option PackageRevisionRef }.

Record FunctionEvalTaskSpec := {
  eval_Subpackage : string;
  eval_Image : string;
  eval_ConfigMap : list (string * string) }.

(** [api.Task]: a type tag and one optional payload per kind. *)
Record Task := {
  Type_ : TaskType;
  Init : option PackageInitTaskSpec;
  Clone : option PackageCloneTaskSpec;
  Patch : option PackagePatchTaskSpec;
  Edit : option PackageEditTaskSpec;
  Eval : option FunctionEvalTaskSpec;
  Update : option PackageUpdateTaskSpec }.

Record ReadinessGate := { ConditionType : string }.

Record Condition := {
  cond_Type : string;
  cond_Status : ConditionStatus;
  cond_Reason : string;
  cond_Message : string }.

(** [api.PackageRevision], with the fields the engine reads. *)
Record PackageRevision_api := {
  Name : string;
  Namespace : string;
  Labels : gmap string string;
  Annotations : gmap string string;
  PackageName : string;
  Lifecycle : PackageRevisionLifecycle;
  Tasks : list Task;
  ReadinessGates : list ReadinessGate;
  Conditions : list Condition }.

Definition with_Lifecycle (l : PackageRevisionLifecycle)
    (obj : PackageRevision_api) : PackageRevision_api :=
  {| Name := Name obj; Namespace := Namespace obj; Labels := Labels obj;
     Annotations := Annotations obj; PackageName := PackageName obj;
     Lifecycle := l; Tasks := Tasks obj;
     ReadinessGates := ReadinessGates obj; Conditions := Conditions obj |}.

Definition with_Labels (l : gmap string string)
    (obj : PackageRevision_api) : PackageRevision_api :=
  {| Name := Name obj; Namespace := Namespace obj; Labels := l;
     Annotations := Annotations obj; PackageName := PackageName obj;
     Lifecycle := Lifecycle obj; Tasks := Tasks obj;
     ReadinessGates := ReadinessGates obj; Conditions := Conditions obj |}.

Definition with_Annotations (a : gmap string string)
    (obj : PackageRevision_api) : PackageRevision_api :=
  {| Name := Name obj; Namespace := Namespace obj; Labels := Labels obj;
     Annotations := a; PackageName := PackageName obj;
     Lifecycle := Lifecycle obj; Tasks := Tasks obj;
     ReadinessGates := ReadinessGates obj; Conditions := Conditions obj |}.

(** [configapi.Repository], with the fields the engine reads. *)
Record Repository_cfg := {
  repo_Name : string;
  repo_Namespace : string;
  repo_Deployment : bool }.

(** [repository.PackageResources] and [api.PackageRevisionResources]: a map
    from file path to file contents. *)
Record PackageResources := { Contents : gmap string string }.
Record PackageRevisionResources := { Resources : gmap string string }.

(** [meta.PackageRevisionMeta]. *)
Record PackageRevisionMeta := {
  meta_Name : string;
  meta_Namespace : string;
  meta_Labels : gmap string string;
  meta_Annotations : gmap string string }.

(** The zero value of [meta.PackageRevisionMeta], which a struct literal
    that does not mention the field leaves in place. *)
Definition PackageRevisionMeta_zero : PackageRevisionMeta :=
  {| meta_Name := ""; meta_Namespace := "";
     meta_Labels := ∅; meta_Annotations := ∅ |}.

(** [builtins.PackageConfig]. *)
Record PackageConfig := { PackagePath : string }.

(** [kptfile.KptFile], with the two parts the engine projects API fields
    onto; [kf_rest] stands for everything else in the file. *)
Record Kptfile_Condition := {
  kc_Type : string; kc_Status : string; kc_Reason : string;
  kc_Message : string }.

Record Kptfile := {
  kf_rest : string;
  kf_Info : option (list ReadinessGate);      (* Info, and Info.ReadinessGates *)
  kf_Status : option (list Kptfile_Condition) (* Status, and Status.Conditions *) }.

#[global] Instance PackageInitTaskSpec_eq_dec : EqDecision PackageInitTaskSpec.
Proof. solve_decision. Defined.
#[global] Instance PackageRevisionRef_eq_dec : EqDecision PackageRevisionRef.
Proof. solve_decision. Defined.
#[global] Instance GitPackage_eq_dec : EqDecision GitPackage.
Proof. solve_decision. Defined.
#[global] Instance OciPackage_eq_dec : EqDecision OciPackage.
Proof. solve_decision. Defined.
#[global] Instance UpstreamPackage_eq_dec : EqDecision UpstreamPackage.
Proof. solve_decision. Defined.
#[global] Instance PackageCloneTaskSpec_eq_dec : EqDecision PackageCloneTaskSpec.
Proof. solve_decision. Defined.
#[global] Instance PackageUpdateTaskSpec_eq_dec : EqDecision PackageUpdateTaskSpec.
Proof. solve_decision. Defined.
#[global] Instance PatchSpec_eq_dec : EqDecision PatchSpec.
Proof. solve_decision. Defined.
#[global] Instance PackagePatchTaskSpec_eq_dec : EqDecision PackagePatchTaskSpec.
Proof. solve_decision. Defined.
#[global] Instance PackageEditTaskSpec_eq_dec : EqDecision PackageEditTaskSpec.
Proof. solve_decision. Defined.
#[global] Instance FunctionEvalTaskSpec_eq_dec : EqDecision FunctionEvalTaskSpec.
Proof. solve_decision. Defined.
(** [reflect.DeepEqual] on two tasks is equality of all their fields. *)
#[global] Instance Task_eq_dec : EqDecision Task.
Proof. solve_decision. Defined.

(** ** The collaborators

    The engine is stateless: everything it does to the outside goes through
    the collaborators injected at construction, or through helpers and
    libraries declared outside [engine.go].  They are gathered here as an
    interface.  [World] is whatever state they keep between calls (the
    backing repositories, open drafts, the metadata store); an operation
    that may touch it maps a world to a world and a result. *)

Class Collaborators := {
  World : Type;
  Repository : Type;            (* repository.Repository *)
  RepoPackageRevision : Type;   (* repository.PackageRevision *)
  PackageDraft : Type;          (* repository.PackageDraft *)
  Unstructured : Type;          (* unstructured.Unstructured *)
  RNode : Type;                 (* yaml.RNode *)
  PatchMutation : Type;         (* the mutation built by buildPatchMutation *)

  (* cache.Cache *)
  cache_OpenRepository :
    Repository_cfg → World → World * result Repository;

  (* repository.Repository *)
  repo_CreatePackageRevision :
    Repository → PackageRevision_api → World → World * result PackageDraft;
  repo_UpdatePackageRevision :
    Repository → RepoPackageRevision → World → World * result PackageDraft;
  repo_DeletePackageRevision :
    Repository → RepoPackageRevision → World → World * result unit;

  (* repository.PackageDraft *)
  draft_UpdateResources :
    PackageDraft → PackageRevisionResources → option Task →
    World → World * result unit;
  draft_UpdateLifecycle :
    PackageDraft → PackageRevisionLifecycle → World → World * result unit;
  draft_Close :
    PackageDraft → World → World * result RepoPackageRevision;

  (* repository.PackageRevision *)
  KubeObjectName : RepoPackageRevision → string;
  KubeObjectNamespace : RepoPackageRevision → string;
  rev_GetPackageRevision :
    RepoPackageRevision → World → World * result PackageRevision_api;
  rev_GetResources :
    RepoPackageRevision → World → World * result PackageRevisionResources;
  rev_GetKptfile :
    RepoPackageRevision → World → World * result Kptfile;

  (* meta.MetadataStore *)
  meta_Create :
    PackageRevisionMeta → Repository_cfg →
    World → World * result PackageRevisionMeta;
  meta_Update :
    PackageRevisionMeta → World → World * result PackageRevisionMeta;
  meta_Delete :
    string → string → World → World * result PackageRevisionMeta;

  (* Apply of the mutations declared in other files of the package *)
  init_Apply :
    string → Task → PackageResources →
    World → World * result (PackageResources * option Task);
  clone_Apply :
    Task → string → string → bool → PackageConfig → PackageResources →
    World → World * result (PackageResources * option Task);
  update_Apply :
    option Task → Task → string → string → PackageResources →
    World → World * result (PackageResources * option Task);
  patch_Apply :
    PatchMutation → PackageResources →
    World → World * result (PackageResources * option Task);
  edit_Apply :
    Task → string → PackageResources →
    World → World * result (PackageResources * option Task);
  eval_Apply :
    Task → PackageResources →
    World → World * result (PackageResources * option Task);
  render_Apply :
    PackageResources →
    World → World * result (PackageResources * option Task);

  (* helpers of the package declared in other files *)
  buildPatchMutation : Task → result PatchMutation;
  GeneratePatch : string → string → string → result PatchSpec;
  (* packageReader.Read: the nodes read, and the files put aside in extra *)
  packageReader_Read :
    gmap string string → result (list RNode * gmap string string);
  (* packageWriter.Write: the files written to output.Contents *)
  packageWriter_Write : list RNode → result (gmap string string);

  (* libraries *)
  yaml_Unmarshal : string → result Unstructured;
  GroupKind : Unstructured → string * string;      (* group, kind *)
  GetName : Unstructured → string;
  (* runtime.DefaultUnstructuredConverter.FromUnstructured into a
     corev1.ConfigMap, then its Data *)
  ConfigMap_Data : Unstructured → result (gmap string string);
  yaml_Encode : Kptfile → result string;
  rn_GetNamespace : RNode → string;
  rn_GetName : RNode → string;
  rn_GetApiVersion : RNode → string;
  rn_GetKind : RNode → string;
  (* comments.CopyComments from to: the node [to] afterwards, and the error *)
  CopyComments : RNode → RNode → RNode * option Error;

  (* constants of packages api and builtins *)
  LatestPackageRevisionKey : string;
  LatestPackageRevisionValue : string;
  PkgContextName : string;
  ConfigKeyPackagePath : string;

  (* the order in which a [range] clause visits a map: unspecified in Go,
     every key once *)
  map_range : gmap string string → list (string * string);
  map_range_perm : ∀ m, map_range m ≡ₚ map_to_list m
  }.

Section Engine.

Context `{C : Collaborators}.

(** The calls the engine makes to the repository cache, the repository
    driver, a draft, and the metadata store. *)
Inductive Call : Type :=
  | OpenRepository (repositorySpec : Repository_cfg)
  | RepoCreatePackageRevision (repo : Repository) (obj : PackageRevision_api)
  | RepoUpdatePackageRevision (repo : Repository) (old : RepoPackageRevision)
  | RepoDeletePackageRevision (repo : Repository) (old : RepoPackageRevision)
  | DraftUpdateResources (draft : PackageDraft)
      (new : PackageRevisionResources) (task : option Task)
  | DraftUpdateLifecycle (draft : PackageDraft)
      (lifecycle : PackageRevisionLifecycle)
  | DraftClose (draft : PackageDraft)
  | MetaCreate (m : PackageRevisionMeta) (repo : Repository_cfg)
  | MetaUpdate (m : PackageRevisionMeta)
  | MetaDelete (name namespace : string).

(** The state an engine method runs in: the collaborators' world and the
    log of calls made so far. *)
Record State := { world : World; calls : list Call }.

(** The monad of engine code: state passing, with Go's [(value, error)]
    returns as [result]. *)
Definition M (A : Type) : Type := State → State * result A.

Definition ret {A} (a : A) : M A := fun s => (s, Ok a).
Definition fail {A} (e : Error) : M A := fun s => (s, Err e).
Definition bind {A B} (m : M A) (k : A → M B) : M B :=
  fun s => match m s with
           | (s', Ok a) => k a s'
           | (s', Err e) => (s', Err e)
           end.
Definition lift {A} (r : result A) : M A := fun s => (s, r).

(** A collaborator operation, logged as call [c]. *)
Definition call {A} (c : Call) (f : World → World * result A) : M A :=
  fun s => let '(w, r) := f (world s) in
           ({| world := w; calls := calls s ++ [c] |}, r).

(** A collaborator operation that is not logged: reads of a stored
    revision, and the inner work of a mutation declared elsewhere. *)
Definition ask {A} (f : World → World * result A) : M A :=
  fun s => let '(w, r) := f (world s) in
           ({| world := w; calls := calls s |}, r).

(** [fmt.Errorf("...: %w", err)] on the error path. *)
Definition wrap {A} (f : Error → Error) (m : M A) : M A :=
  fun s => match m s with
           | (s', Ok a) => (s', Ok a)
           | (s', Err e) => (s', Err (f e))
           end.

(** A call whose results, error included, the caller drops. *)
Definition ignore {A} (m : M A) : M unit :=
  fun s => (fst (m s), Ok tt).

End Engine.

Notation "'let*' x ':=' m 'in' k" := (bind m (fun x => k))
  (at level 10, x name, m at level 100, k at level 200).
Notation "'let*' ' p ':=' m 'in' k" := (bind m (fun x => let 'p := x in k))
  (at level 10, p pattern, m at level 100, k at level 200).

Notation "a =s b" := (String.eqb a b) (at level 70, no associativity).

(** ** The engine *)

Section EngineCode.

Context `{C : Collaborators}.

(** [engine.PackageRevision]: a repository-owned revision handle and the
    metadata record of the metadata store. *)
Record PackageRevision := {
  repoPackageRevision : RepoPackageRevision;
  packageRevisionMeta : PackageRevisionMeta }.

(** [PackageRevision.GetPackageRevision]: the API object of the
    repository revision with the labels and annotations of the metadata
    record, and the latest-revision label carried over.  (In Go the label
    is written into the map of the metadata record itself, which the two
    objects then share; no caller in this file reads it back.) *)
Definition GetPackageRevision (p : PackageRevision) : M PackageRevision_api :=
  let* repoPkgRev := ask (rev_GetPackageRevision (repoPackageRevision p)) in
  let isLatest :=
    match Labels repoPkgRev !! LatestPackageRevisionKey with
    | Some val => val =s LatestPackageRevisionValue
    | None => false
    end in
  let labels := meta_Labels (packageRevisionMeta p) in
  let labels :=
    if isLatest
    then <[LatestPackageRevisionKey := LatestPackageRevisionValue]> labels
    else labels in
  ret (with_Annotations (meta_Annotations (packageRevisionMeta p))
         (with_Labels labels repoPkgRev)).

Definition GetResources (p : PackageRevision) : M PackageRevisionResources :=
  ask (rev_GetResources (repoPackageRevision p)).

(** *** The context extractor *)

Definition nl : string := String (ascii_of_nat 10) EmptyString.
Definition documentSeparator : string := nl +:+ "---" +:+ nl.

Definition isContextConfigMap (o : Unstructured) : bool :=
  (fst (GroupKind o) =s "") && (snd (GroupKind o) =s "ConfigMap")
  && (GetName o =s PkgContextName).

(** The inner loop of [ExtractContextConfigMap], over the documents of one
    file. *)
Fixpoint collectDocuments (itemPath : string) (docs : list string)
    (matches : list Unstructured) : result (list Unstructured) :=
  match docs with
  | [] => Ok matches
  | s :: rest =>
      if isWhitespace s then collectDocuments itemPath rest matches
      else
        match yaml_Unmarshal s with
        | Err e => Err (ErrParsingYaml itemPath e)
        | Ok o =>
            if isContextConfigMap o
            then collectDocuments itemPath rest (matches ++ [o])
            else collectDocuments itemPath rest matches
        end
  end.

Definition isYamlPath (itemPath : string) : bool :=
  let ext := GoStrings.ToLower (GoStrings.Ext itemPath) in
  (ext =s ".yaml") || (ext =s ".yml").

(** The outer loop, over the files in the order the map yields them. *)
Fixpoint collectFiles (items : list (string * string))
    (matches : list Unstructured) : result (list Unstructured) :=
  match items with
  | [] => Ok matches
  | (itemPath, itemContents) :: rest =>
      if isYamlPath itemPath then
        match collectDocuments itemPath
                (GoStrings.Split itemContents documentSeparator) matches with
        | Err e => Err e
        | Ok matches' => collectFiles rest matches'
        end
      else collectFiles rest matches
  end.

Definition ExtractContextConfigMap (resources : gmap string string)
  : result (option Unstructured) :=
  match collectFiles (map_range resources) [] with
  | Err e => Err e
  | Ok [] => Ok None
  | Ok [o] => Ok (Some o)
  | Ok (_ :: _ :: _) => Err ErrMultipleConfigMaps
  end.

(** *** Package configuration *)

Definition buildPackageConfig (obj : PackageRevision_api)
    (parent : option PackageRevision) : M PackageConfig :=
  let* parentPath :=
    match parent with
    | None => ret ""
    | Some parent =>
        let* parentObj := GetPackageRevision parent in
        let* resources := wrap (ErrParentResources (Name parentObj))
                       (GetResources parent) in
        let* parentConfig := wrap (ErrParentConfiguration (Name parentObj))
                          (lift (ExtractContextConfigMap (Resources resources))) in
        match parentConfig with
        | None => ret (PackageName parentObj)
        | Some parentConfig =>
            let* data := wrap ErrParentConfigMap (lift (ConfigMap_Data parentConfig)) in
            let s := default "" (data !! ConfigKeyPackagePath) in
            if s =s "" then ret (PackageName parentObj)
            else ret (s +:+ "/" +:+ PackageName parentObj)
        end
    end in
  if parentPath =s ""
  then ret {| PackagePath := PackageName obj |}
  else ret {| PackagePath := parentPath +:+ "/" +:+ PackageName obj |}.

(** *** Mutations *)

Inductive mutation : Type :=
  | initPackageMutation (name : string) (task : Task)
  | clonePackageMutation (task : Task) (namespace name : string)
      (isDeployment : bool) (packageConfig : PackageConfig)
  | updatePackageMutation (cloneTask : option Task) (updateTask : Task)
      (namespace pkgName : string)
  | applyPatchMutation (m : PatchMutation)
  | editPackageMutation (task : Task) (namespace : string)
  | evalFunctionMutation (task : Task)
  | renderPackageMutation
  | mutationReplaceResources (newResources oldResources : PackageRevisionResources).

Definition isRender (m : mutation) : bool :=
  match m with renderPackageMutation => true | _ => false end.

(** [conditionalAddRender] adds a render mutation to the end of the
    mutations slice if the last entry is not already a render mutation. *)
Definition conditionalAddRender (mutations : list mutation) : list mutation :=
  match last mutations with
  | None => mutations
  | Some lastMutation =>
      if isRender lastMutation then mutations
      else mutations ++ [renderPackageMutation]
  end.

Definition findCloneTask (pr : PackageRevision_api) : option Task :=
  match Tasks pr with
  | [] => None
  | firstTask :: _ =>
      if Type_ firstTask =s TaskTypeClone then Some firstTask else None
  end.

Definition mapTaskToMutation (obj : PackageRevision_api) (task : Task)
    (isDeployment : bool) (packageConfig : PackageConfig) : result mutation :=
  let type := Type_ task in
  if type =s TaskTypeInit then
    match Init task with
    | None => Err (ErrPayloadNotSet "init" type)
    | Some _ => Ok (initPackageMutation (PackageName obj) task)
    end
  else if type =s TaskTypeClone then
    match Clone task with
    | None => Err (ErrPayloadNotSet "clone" type)
    | Some _ =>
        Ok (clonePackageMutation task (Namespace obj) (PackageName obj)
              isDeployment packageConfig)
    end
  else if type =s TaskTypeUpdate then
    match Update task with
    | None => Err (ErrPayloadNotSet "update" type)
    | Some _ =>
        match findCloneTask obj with
        | None => Err (ErrUpstreamNotFound (PackageName obj))
        | Some cloneTask =>
            Ok (updatePackageMutation (Some cloneTask) task (Namespace obj)
                  (PackageName obj))
        end
    end
  else if type =s TaskTypePatch then
    match buildPatchMutation task with
    | Err e => Err e
    | Ok m => Ok (applyPatchMutation m)
    end
  else if type =s TaskTypeEdit then
    match Edit task with
    | None => Err (ErrPayloadNotSet "edit" type)
    | Some _ => Ok (editPackageMutation task (Namespace obj))
    end
  else if type =s TaskTypeEval then
    match Eval task with
    | None => Err (ErrPayloadNotSet "eval" type)
    | Some eval =>
        if eval_Image eval =s "render" then Ok renderPackageMutation
        else Ok (evalFunctionMutation task)
    end
  else Err (ErrTaskNotSupported type).

(** *** ReplaceResources *)

Definition sameResource (n original : RNode) : bool :=
  (rn_GetNamespace n =s rn_GetNamespace original)
  && (rn_GetName n =s rn_GetName original)
  && (rn_GetApiVersion n =s rn_GetApiVersion original)
  && (rn_GetKind n =s rn_GetKind original).

(** The filter of [healConfig] on one node: comments are copied from every
    matching node of the old package; what [CopyComments] returns is
    dropped. *)
Definition healNode (oldResources : list RNode) (n : RNode) : RNode :=
  fold_left
    (fun n original =>
       if sameResource n original then fst (CopyComments original n) else n)
    oldResources n.

Definition healConfig (old new : gmap string string)
  : result (gmap string string) :=
  match packageReader_Read old with
  | Err e => Err (ErrReadOldResources e)
  | Ok (oldResources, _) =>
      (* kio.Pipeline{Inputs, Filters, Outputs}.Execute() *)
      match packageReader_Read new with
      | Err e => Err e
      | Ok (r, extra) =>
          match packageWriter_Write (healNode oldResources <$> r) with
          | Err e => Err e
          | Ok healed => Ok (extra ∪ healed)
          end
      end
  end.

Definition createFilePatch (k newV : string) : PatchSpec :=
  {| patch_File := k; patch_Contents := newV;
     patch_PatchType := PatchTypeCreateFile |}.

Definition deleteFilePatch (k : string) : PatchSpec :=
  {| patch_File := k; patch_Contents := "";
     patch_PatchType := PatchTypeDeleteFile |}.

(** First loop of [mutationReplaceResources.Apply]: new and changed
    files. *)
Fixpoint diffNew (old : gmap string string) (items : list (string * string))
    (patches : list PatchSpec) : result (list PatchSpec) :=
  match items with
  | [] => Ok patches
  | (k, newV) :: rest =>
      match old !! k with
      | None => diffNew old rest (patches ++ [createFilePatch k newV])
      | Some oldV =>
          if newV =s oldV then diffNew old rest patches
          else
            match GeneratePatch k oldV newV with
            | Err e => Err (ErrGeneratingPatch e)
            | Ok patchSpec => diffNew old rest (patches ++ [patchSpec])
            end
      end
  end.

(** Second loop: deleted files. *)
Fixpoint diffOld (new : gmap string string) (items : list (string * string))
    (patches : list PatchSpec) : list PatchSpec :=
  match items with
  | [] => patches
  | (k, _) :: rest =>
      match new !! k with
      | None => diffOld new rest (patches ++ [deleteFilePatch k])
      | Some _ => diffOld new rest patches
      end
  end.

Definition patchTask (patches : list PatchSpec) : Task :=
  {| Type_ := TaskTypePatch; Init := None; Clone := None;
     Patch := Some {| Patches := patches |};
     Edit := None; Eval := None; Update := None |}.

Definition mutationReplaceResources_Apply
    (newResources : PackageRevisionResources) (resources : PackageResources)
  : result (PackageResources * option Task) :=
  let old := Contents resources in
  match healConfig old (Resources newResources) with
  | Err e => Err (ErrHealResources e)
  | Ok new =>
      match diffNew old (map_range new) [] with
      | Err e => Err e
      | Ok patches =>
          let patches := diffOld new (map_range old) patches in
          Ok ({| Contents := new |}, Some (patchTask patches))
      end
  end.

(** [mutation.Apply]. *)
Definition Apply (m : mutation) (resources : PackageResources)
  : M (PackageResources * option Task) :=
  match m with
  | initPackageMutation name task => ask (init_Apply name task resources)
  | clonePackageMutation task namespace name isDeployment packageConfig =>
      ask (clone_Apply task namespace name isDeployment packageConfig resources)
  | updatePackageMutation cloneTask updateTask namespace pkgName =>
      ask (update_Apply cloneTask updateTask namespace pkgName resources)
  | applyPatchMutation m => ask (patch_Apply m resources)
  | editPackageMutation task namespace => ask (edit_Apply task namespace resources)
  | evalFunctionMutation task => ask (eval_Apply task resources)
  | renderPackageMutation => ask (render_Apply resources)
  | mutationReplaceResources newResources _ =>
      lift (mutationReplaceResources_Apply newResources resources)
  end.

(** *** The mutation pipeline executor *)

Fixpoint applyResourceMutations (draft : PackageDraft)
    (baseResources : PackageResources) (mutations : list mutation) : M unit :=
  match mutations with
  | [] => ret tt
  | m :: rest =>
      let* '(applied, task) := Apply m baseResources in
      let new := {| Resources := Contents applied |} in
      let* _ := call (DraftUpdateResources draft new task)
             (draft_UpdateResources draft new task) in
      applyResourceMutations draft applied rest
  end.

(** *** Creating a revision *)

Definition initTask (packageName : string) : Task :=
  {| Type_ := ""; (* the literal leaves Type unset *)
     Init := Some {| init_Subpackage := "";
                     init_Description := packageName +:+ " description";
                     init_Keywords := []; init_Site := "" |};
     Clone := None; Patch := None; Edit := None; Eval := None;
     Update := None |}.

(** The loop of [applyTasks] that maps each task to its mutation, in
    order, stopping at the first task that cannot be mapped. *)
Fixpoint mapTasks (obj : PackageRevision_api) (tasks : list Task)
    (isDeployment : bool) (packageConfig : PackageConfig)
    (mutations : list mutation) : result (list mutation) :=
  match tasks with
  | [] => Ok mutations
  | task :: rest =>
      match mapTaskToMutation obj task isDeployment packageConfig with
      | Err e => Err e
      | Ok mutation =>
          mapTasks obj rest isDeployment packageConfig (mutations ++ [mutation])
      end
  end.

(** Unless first task is Init or Clone, insert Init to create an empty
    package. *)
Definition needsInit (tasks : list Task) : bool :=
  match tasks with
  | [] => true
  | first :: _ =>
      negb (Type_ first =s TaskTypeInit) && negb (Type_ first =s TaskTypeClone)
  end.

Definition initialMutations (obj : PackageRevision_api) : list mutation :=
  if needsInit (Tasks obj)
  then [initPackageMutation (PackageName obj) (initTask (PackageName obj))]
  else [].

(** The mutation list [applyTasks] hands to the executor. *)
Definition taskMutations (repositoryObj : Repository_cfg)
    (obj : PackageRevision_api) (packageConfig : PackageConfig)
  : result (list mutation) :=
  match mapTasks obj (Tasks obj) (repo_Deployment repositoryObj)
          packageConfig (initialMutations obj) with
  | Err e => Err e
  | Ok mutations => Ok (conditionalAddRender mutations)
  end.

Definition applyTasks (draft : PackageDraft) (repositoryObj : Repository_cfg)
    (obj : PackageRevision_api) (packageConfig : PackageConfig) : M unit :=
  let* mutations := lift (taskMutations repositoryObj obj packageConfig) in
  let baseResources := {| Contents := ∅ |} in
  applyResourceMutations draft baseResources mutations.

Definition metaOf (repoPkgRev : RepoPackageRevision)
    (obj : PackageRevision_api) : PackageRevisionMeta :=
  {| meta_Name := KubeObjectName repoPkgRev;
     meta_Namespace := KubeObjectNamespace repoPkgRev;
     meta_Labels := Labels obj;
     meta_Annotations := Annotations obj |}.

(** The lifecycle switch of [CreatePackageRevision]: the object to go on
    with, its lifecycle defaulted, or the error. *)
Definition validateCreateLifecycle (obj : PackageRevision_api)
  : result PackageRevision_api :=
  let lifecycle := Lifecycle obj in
  if lifecycle =s "" then
    Ok (with_Lifecycle PackageRevisionLifecycleDraft obj)
  else if (lifecycle =s PackageRevisionLifecycleDraft)
          || (lifecycle =s PackageRevisionLifecycleProposed) then Ok obj
  else if lifecycle =s PackageRevisionLifecyclePublished then Err ErrCreateFinal
  else Err (ErrUnsupportedLifecycle lifecycle).

Definition CreatePackageRevision (repositoryObj : Repository_cfg)
    (obj : PackageRevision_api) (parent : option PackageRevision)
  : M PackageRevision :=
  let* packageConfig := buildPackageConfig obj parent in
  (* Validate package lifecycle. Cannot create a final package *)
  let* obj := lift (validateCreateLifecycle obj) in
  let* repo := call (OpenRepository repositoryObj)
                 (cache_OpenRepository repositoryObj) in
  let* draft := call (RepoCreatePackageRevision repo obj)
                  (repo_CreatePackageRevision repo obj) in
  let* _ := applyTasks draft repositoryObj obj packageConfig in
  let* _ := call (DraftUpdateLifecycle draft (Lifecycle obj))
              (draft_UpdateLifecycle draft (Lifecycle obj)) in
  (* Updates are done. *)
  let* repoPkgRev := call (DraftClose draft) (draft_Close draft) in
  let pkgRevMeta := metaOf repoPkgRev obj in
  let* pkgRevMeta := call (MetaCreate pkgRevMeta repositoryObj)
                       (meta_Create pkgRevMeta repositoryObj) in
  ret {| repoPackageRevision := repoPkgRev;
         packageRevisionMeta := pkgRevMeta |}.

(** *** Updating a revision *)

(** [isRecloneAndReplay] determines if an update should be handled using
    reclone-and-replay semantics: both old and new versions start by
    cloning a package, but the version has changed. *)
Definition isRecloneAndReplay (oldObj newObj : PackageRevision_api) : bool :=
  match Tasks oldObj, Tasks newObj with
  | [], _ | _, [] => false
  | old0 :: _, new0 :: _ =>
      if negb (Type_ old0 =s TaskTypeClone) || negb (Type_ new0 =s TaskTypeClone)
      then false
      else if bool_decide (old0 = new0) then false
      else true
  end.

(** [recloneAndReplay] performs an update by recloning the upstream
    package and replaying all tasks. *)
Definition recloneAndReplay (repo : Repository) (repositoryObj : Repository_cfg)
    (newObj : PackageRevision_api) (packageConfig : PackageConfig)
  : M RepoPackageRevision :=
  let* draft := call (RepoCreatePackageRevision repo newObj)
                  (repo_CreatePackageRevision repo newObj) in
  let* _ := applyTasks draft repositoryObj newObj packageConfig in
  let* _ := call (DraftUpdateLifecycle draft (Lifecycle newObj))
              (draft_UpdateLifecycle draft (Lifecycle newObj)) in
  call (DraftClose draft) (draft_Close draft).

Definition convertStatusToKptfile (s : ConditionStatus) : result string :=
  if s =s ConditionTrue then Ok "True"
  else if s =s ConditionFalse then Ok "False"
  else if s =s ConditionUnknown then Ok "Unknown"
  else Err (PanicUnknownConditionStatus s).

Fixpoint convertConditions (cs : list Condition)
  : result (list Kptfile_Condition) :=
  match cs with
  | [] => Ok []
  | c :: rest =>
      match convertStatusToKptfile (cond_Status c) with
      | Err e => Err e
      | Ok status =>
          match convertConditions rest with
          | Err e => Err e
          | Ok rest' =>
              Ok ({| kc_Type := cond_Type c; kc_Status := status;
                     kc_Reason := cond_Reason c;
                     kc_Message := cond_Message c |} :: rest')
          end
      end
  end.

Definition KptFileName : string := "Kptfile".

Definition isEmpty {A} (l : list A) : bool :=
  match l with [] => true | _ => false end.

(** [createKptfilePatchTask]: the Patch task that rewrites the Kptfile
    when the readiness gates or conditions of the API object differ from
    the stored ones; [None] when the patch is empty. *)
Definition createKptfilePatchTask (oldPackage : RepoPackageRevision)
    (newObj : PackageRevision_api) : M (option Task) :=
  let* kf := ask (rev_GetKptfile oldPackage) in
  let* orgKfString := lift (yaml_Encode kf) in
  let readinessGates :=
    (fun rg => {| ConditionType := ConditionType rg |}) <$> ReadinessGates newObj in
  let* conditions := lift (convertConditions (Conditions newObj)) in
  let kf :=
    {| kf_rest := kf_rest kf;
       kf_Info := if isEmpty readinessGates then kf_Info kf
                  else Some readinessGates;
       kf_Status := if isEmpty conditions then kf_Status kf
                    else Some conditions |} in
  let* newKfString := lift (yaml_Encode kf) in
  let* patchSpec := lift (GeneratePatch KptFileName orgKfString newKfString) in
  (* If patch is empty, don't create a Task. *)
  if patch_Contents patchSpec =s "" then ret None
  else ret (Some (patchTask [patchSpec])).

(** The loop over the old tasks comparing types index by index; the guard
    before it makes the new list at least as long as the old one. *)
Fixpoint sameTaskTypes (oldTasks newTasks : list Task) : bool :=
  match oldTasks, newTasks with
  | [], _ => true
  | oldTask :: oldRest, newTask :: newRest =>
      (Type_ oldTask =s Type_ newTask) && sameTaskTypes oldRest newRest
  | _ :: _, [] => false
  end.

(** The task checks of the append path of [UpdatePackageRevision], and the
    mutation for an appended Update task. *)
Definition appendedTaskMutations (repositoryObj : Repository_cfg)
    (oldObj newObj : PackageRevision_api) : result (list mutation) :=
  let oldTasks := Tasks oldObj in
  let newTasks := Tasks newObj in
  if Nat.ltb (length newTasks) (length oldTasks) then Err ErrRemovingTasks
  else if negb (sameTaskTypes oldTasks newTasks) then Err ErrChangingTaskTypes
  else if Nat.ltb (length oldTasks) (length newTasks) then
    if Nat.ltb (length oldTasks + 1) (length newTasks) then Err ErrAppendOneTask
    else
      match last newTasks with
      | None => Ok []
      | Some newTask =>
          if negb (Type_ newTask =s TaskTypeUpdate)
          then Err (ErrAppendedTaskType (Type_ newTask))
          else
            match Update newTask with
            | None => Err (ErrUpdateTaskNotSet (Type_ newTask))
            | Some _ =>
                match findCloneTask oldObj with
                | None => Err (ErrUpstreamNotFound (PackageName oldObj))
                | Some cloneTask =>
                    Ok [updatePackageMutation (Some cloneTask) newTask
                          (repo_Namespace repositoryObj) (Name oldObj)]
                end
            end
      end
  else Ok [].

(** The append path, after the task checks. *)
Definition appendUpdate (repo : Repository) (repositoryObj : Repository_cfg)
    (oldPackage : PackageRevision) (oldObj newObj : PackageRevision_api)
  : M PackageRevision :=
  let* mutations := lift (appendedTaskMutations repositoryObj oldObj newObj) in
  (* Re-render if we are making changes. *)
  let mutations := conditionalAddRender mutations in
  let* draft := call (RepoUpdatePackageRevision repo (repoPackageRevision oldPackage))
                  (repo_UpdatePackageRevision repo (repoPackageRevision oldPackage)) in
  let* kfPatchTask := createKptfilePatchTask (repoPackageRevision oldPackage) newObj in
  let* mutations :=
    match kfPatchTask with
    | None => ret mutations
    | Some kfPatchTask =>
        let* kfPatchMutation := lift (buildPatchMutation kfPatchTask) in
        ret (mutations ++ [applyPatchMutation kfPatchMutation])%list
    end in
  (* Re-render if we are making changes. *)
  let mutations := conditionalAddRender mutations in
  (* Update package contents only if the package is in draft state *)
  let* _ :=
    if Lifecycle oldObj =s PackageRevisionLifecycleDraft then
      let* apiResources := wrap ErrCannotGetResources (GetResources oldPackage) in
      let resources := {| Contents := Resources apiResources |} in
      applyResourceMutations draft resources mutations
    else ret tt in
  let* _ := call (DraftUpdateLifecycle draft (Lifecycle newObj))
              (draft_UpdateLifecycle draft (Lifecycle newObj)) in
  (* Updates are done. *)
  let* repoPkgRev := call (DraftClose draft) (draft_Close draft) in
  let pkgRevMeta := metaOf repoPkgRev newObj in
  let* _ := ignore (call (MetaUpdate pkgRevMeta) (meta_Update pkgRevMeta)) in
  ret {| repoPackageRevision := repoPkgRev;
         packageRevisionMeta := pkgRevMeta |}.

(** The reclone branch. *)
Definition recloneUpdate (repo : Repository) (repositoryObj : Repository_cfg)
    (newObj : PackageRevision_api) (parent : option PackageRevision)
  : M PackageRevision :=
  let* packageConfig := buildPackageConfig newObj parent in
  let* repoPkgRev := recloneAndReplay repo repositoryObj newObj packageConfig in
  ret {| repoPackageRevision := repoPkgRev;
         packageRevisionMeta := PackageRevisionMeta_zero |}.

(** Only metadata (currently labels and annotations) can be updated for
    published packages. *)
Definition updatePublished (oldPackage : PackageRevision)
    (newObj : PackageRevision_api) : M PackageRevision :=
  let repoPkgRev := repoPackageRevision oldPackage in
  let pkgRevMeta := metaOf repoPkgRev newObj in
  let* _ := ignore (call (MetaUpdate pkgRevMeta) (meta_Update pkgRevMeta)) in
  ret {| repoPackageRevision := repoPkgRev;
         packageRevisionMeta := pkgRevMeta |}.

Definition validDesiredLifecycle (lifecycle : PackageRevisionLifecycle) : bool :=
  (lifecycle =s PackageRevisionLifecycleDraft)
  || (lifecycle =s PackageRevisionLifecycleProposed)
  || (lifecycle =s PackageRevisionLifecyclePublished).

Definition UpdatePackageRevision (repositoryObj : Repository_cfg)
    (oldPackage : PackageRevision) (oldObj newObj : PackageRevision_api)
    (parent : option PackageRevision) : M PackageRevision :=
  let* repo := call (OpenRepository repositoryObj)
                 (cache_OpenRepository repositoryObj) in
  (* Validate package lifecycle. Can only update a draft. *)
  let lifecycle := Lifecycle oldObj in
  if (lifecycle =s PackageRevisionLifecycleDraft)
     || (lifecycle =s PackageRevisionLifecycleProposed) then
    (* Draft or proposed can be updated. *)
    if validDesiredLifecycle (Lifecycle newObj) then
      if isRecloneAndReplay oldObj newObj
      then recloneUpdate repo repositoryObj newObj parent
      else appendUpdate repo repositoryObj oldPackage oldObj newObj
    else fail (ErrInvalidDesiredLifecycle (Lifecycle newObj))
  else if lifecycle =s PackageRevisionLifecyclePublished then
    updatePublished oldPackage newObj
  else fail (ErrInvalidOriginalLifecycle lifecycle).

(** *** Deleting a revision *)

Definition DeletePackageRevision (repositoryObj : Repository_cfg)
    (oldPackage : PackageRevision) : M unit :=
  let* repo := call (OpenRepository repositoryObj)
                 (cache_OpenRepository repositoryObj) in
  let old := repoPackageRevision oldPackage in
  let* _ := call (RepoDeletePackageRevision repo old)
              (repo_DeletePackageRevision repo old) in
  let name := KubeObjectName old in
  let namespace := KubeObjectNamespace old in
  let* _ := call (MetaDelete name namespace) (meta_Delete name namespace) in
  ret tt.

(** *** Replacing the resources of a revision *)

Definition UpdatePackageResources (repositoryObj : Repository_cfg)
    (oldPackage : PackageRevision) (old new : PackageRevisionResources)
  : M PackageRevision :=
  let* rev := ask (rev_GetPackageRevision (repoPackageRevision oldPackage)) in
  (* Validate package lifecycle. Can only update a draft. *)
  let lifecycle := Lifecycle rev in
  if lifecycle =s PackageRevisionLifecycleDraft then
    let* repo := call (OpenRepository repositoryObj)
                   (cache_OpenRepository repositoryObj) in
    let* draft := call (RepoUpdatePackageRevision repo (repoPackageRevision oldPackage))
                    (repo_UpdatePackageRevision repo (repoPackageRevision oldPackage)) in
    let mutations := [mutationReplaceResources new old; renderPackageMutation] in
    let* apiResources :=
      wrap ErrCannotGetResources
        (ask (rev_GetResources (repoPackageRevision oldPackage))) in
    let resources := {| Contents := Resources apiResources |} in
    let* _ := applyResourceMutations draft resources mutations in
    (* No lifecycle change when updating package resources; updates are done. *)
    let* repoPkgRev := call (DraftClose draft) (draft_Close draft) in
    ret {| repoPackageRevision := repoPkgRev;
           packageRevisionMeta := PackageRevisionMeta_zero |}
  else if (lifecycle =s PackageRevisionLifecycleProposed)
          || (lifecycle =s PackageRevisionLifecyclePublished) then
    fail (ErrMustBeDraft lifecycle)
  else fail (ErrInvalidOriginalLifecycle lifecycle).

End EngineCode.

(** ** Observing runs *)

Section Observations.

Context `{C : Collaborators}.

(** The steps that read without logging leave the call log alone. *)
Definition quiet {A} (m : M A) : Prop := ∀ s, calls (fst (m s)) = calls s.

(** Successful runs of the executor.

    [executed draft base ms s s' recs]: starting in [s] with the files
    [base], the mutations [ms] were applied one after the other, each
    followed by [UpdateResources] on the draft with the files and the audit
    task its [Apply] returned; [recs] lists these pairs in order and [s']
    is the state reached. *)
Inductive executed (draft : PackageDraft)
  : PackageResources → list mutation → State → State →
    list (PackageRevisionResources * option Task) → Prop :=
  | executed_nil base s : executed draft base [] s s []
  | executed_cons base m rest s s1 s2 s3 applied task recs :
      Apply m base s = (s1, Ok (applied, task)) →
      call (DraftUpdateResources draft {| Resources := Contents applied |} task)
        (draft_UpdateResources draft {| Resources := Contents applied |} task)
        s1 = (s2, Ok tt) →
      executed draft applied rest s2 s3 recs →
      executed draft base (m :: rest) s s3
        (({| Resources := Contents applied |}, task) :: recs).

Definition updateResourcesCall (draft : PackageDraft)
    (rec : PackageRevisionResources * option Task) : Call :=
  DraftUpdateResources draft (fst rec) (snd rec).

Definition endsWithRender (M : list mutation) : bool :=
  match last M with
  | Some m => isRender m
  | None => false
  end.

(** The condition under which [applyTasks] inserts an Init. *)
Definition lacksFirstStep (tasks : list Task) : Prop :=
  tasks = [] ∨
  ∃ first rest, tasks = first :: rest
                ∧ Type_ first ≠ TaskTypeInit ∧ Type_ first ≠ TaskTypeClone.

(** The reading of "CreatePackageRevision with lifecycle Published fails
    with a validation error" that asks for that error on every such call. *)
Definition createPublishedFailsValidation (repositoryObj : Repository_cfg)
    (obj : PackageRevision_api) (parent : option PackageRevision)
    (s : State) : Prop :=
  Lifecycle obj = PackageRevisionLifecyclePublished →
  snd (CreatePackageRevision repositoryObj obj parent s) = Err ErrCreateFinal.

(** Calls that hand out a draft. *)
Definition opensDraft (c : Call) : bool :=
  match c with
  | RepoCreatePackageRevision _ _ | RepoUpdatePackageRevision _ _ => true
  | _ => false
  end.

(** Calls on the repository driver or on a draft, the two ways to change
    what a repository stores. *)
Definition touchesRepository (c : Call) : bool :=
  match c with
  | RepoCreatePackageRevision _ _ | RepoUpdatePackageRevision _ _
  | RepoDeletePackageRevision _ _ | DraftUpdateResources _ _ _
  | DraftUpdateLifecycle _ _ | DraftClose _ => true
  | _ => false
  end.

(** Calls on the metadata store. *)
Definition touchesMetadata (c : Call) : bool :=
  match c with
  | MetaCreate _ _ | MetaUpdate _ | MetaDelete _ _ => true
  | _ => false
  end.

(** The condition of [isRecloneAndReplay] in words: both task lists are
    non-empty, both begin with a Clone task, and the two tasks differ. *)
Definition recloneCondition (oldObj newObj : PackageRevision_api) : Prop :=
  ∃ old0 oldRest new0 newRest,
    Tasks oldObj = old0 :: oldRest ∧ Tasks newObj = new0 :: newRest
    ∧ Type_ old0 = TaskTypeClone ∧ Type_ new0 = TaskTypeClone
    ∧ old0 ≠ new0.

(** The calls a run added to the log. *)
Definition newCalls (s s' : State) (new : list Call) : Prop :=
  calls s' = calls s ++ new.

(** The reading of "UpdatePackageRevision uses reclone-and-replay if and
    only if the two task lists begin with differing Clone tasks" on a
    successful call: a fresh draft was asked of the repository exactly when
    the condition holds. *)
Definition recloneIffCondition (repositoryObj : Repository_cfg)
    (oldPackage : PackageRevision) (oldObj newObj : PackageRevision_api)
    (parent : option PackageRevision) (s : State) : Prop :=
  ∀ s' pr new,
    UpdatePackageRevision repositoryObj oldPackage oldObj newObj parent s
    = (s', Ok pr) →
    newCalls s s' new →
    (recloneCondition oldObj newObj
     ↔ ∃ repo, RepoCreatePackageRevision repo newObj ∈ new).

(** A type mismatch at an index the two task lists share. *)
Definition typeMismatch (oldTasks newTasks : list Task) : Prop :=
  ∃ i oldTask newTask,
    oldTasks !! i = Some oldTask ∧ newTasks !! i = Some newTask
    ∧ Type_ oldTask ≠ Type_ newTask.

(** The documents [ExtractContextConfigMap] looks at: for every file with a
    YAML extension, in the order the map yields the files, the pieces
    between document separators that are not all whitespace, each with the
    path of its file. *)
Definition documentsOf (itemContents : string) : list string :=
  filter (fun d => isWhitespace d = false)
    (GoStrings.Split itemContents documentSeparator).

Definition consideredDocuments (resources : gmap string string)
  : list (string * string) :=
  flat_map (fun item =>
              if isYamlPath (fst item)
              then (fun d => (fst item, d)) <$> documentsOf (snd item)
              else [])
    (map_range resources).

(** The package-context ConfigMaps among the considered documents that
    parse. *)
Definition contextObjectOf (doc : string * string) : option Unstructured :=
  match yaml_Unmarshal (snd doc) with
  | Ok o => if isContextConfigMap o then Some o else None
  | Err _ => None
  end.

Definition contextObjects (resources : gmap string string)
  : list Unstructured :=
  omap contextObjectOf (consideredDocuments resources).

Definition byCount (matches : list Unstructured) : result (option Unstructured) :=
  match matches with
  | [] => Ok None
  | [o] => Ok (Some o)
  | _ :: _ :: _ => Err ErrMultipleConfigMaps
  end.

(** The reading of "zero matches give nil, one gives the object, two or more
    give a conflict" that asks for it on every file set. *)
Definition resultByCount (resources : gmap string string) : Prop :=
  ExtractContextConfigMap resources = byCount (contextObjects resources).

Definition parses (doc : string * string) : Prop :=
  is_Ok (yaml_Unmarshal (snd doc)) = true.

(** The two loops of [ExtractContextConfigMap] as one pass over the
    considered documents. *)
Fixpoint collectFlat (docs : list (string * string))
    (matches : list Unstructured) : result (list Unstructured) :=
  match docs with
  | [] => Ok matches
  | doc :: rest =>
      match yaml_Unmarshal (snd doc) with
      | Err e => Err (ErrParsingYaml (fst doc) e)
      | Ok o =>
          collectFlat rest
            (if isContextConfigMap o then matches ++ [o] else matches)
      end
  end.

(** The patch the audit task of ReplaceResources is to carry for file [k],
    given the old and the healed new file set: for a file only in the new
    set, a patch for that file of type CreateFile whose contents are the
    whole new file; for a file only in the old set, a patch for that file of
    type DeleteFile with no contents; for a file in both with different
    contents, what [GeneratePatch] returns for the file and the two
    contents. *)
Definition expectedPatch (old new : gmap string string) (k : string)
    (p : PatchSpec) : Prop :=
  match old !! k, new !! k with
  | None, Some newV =>
      patch_File p = k ∧ patch_PatchType p = "CreateFile"
      ∧ patch_Contents p = newV
  | Some oldV, None =>
      patch_File p = k ∧ patch_PatchType p = "DeleteFile"
      ∧ patch_Contents p = ""
  | Some oldV, Some newV => oldV ≠ newV ∧ GeneratePatch k oldV newV = Ok p
  | None, None => False
  end.

(** The comment copies the filter of [healConfig] makes on one node, in
    order: every matching node of the old package is copied from, to the
    node as the copies before it left it.  The result is the node after the
    last copy together with the errors the copies reported. *)
Fixpoint healNodeReports (oldResources : list RNode) (n : RNode)
  : RNode * list Error :=
  match oldResources with
  | [] => (n, [])
  | original :: rest =>
      if sameResource n original then
        let copied := CopyComments original n in
        let later := healNodeReports rest (fst copied) in
        (fst later, option_list (snd copied) ++ snd later)
      else healNodeReports rest n
  end.

(** The reading of "if the comment-copy step fails, the mutation continues
    with the un-healed new file set": whenever a comment copy on a node of
    the new package reports an error, [Apply] returns the new files as they
    were handed in. *)
Definition copyFailureKeepsNewFiles (newResources : PackageRevisionResources)
    (resources : PackageResources) : Prop :=
  ∀ olds extraOld r extra n,
    packageReader_Read (Contents resources) = Ok (olds, extraOld) →
    packageReader_Read (Resources newResources) = Ok (r, extra) →
    n ∈ r → snd (healNodeReports olds n) ≠ [] →
    ∃ task, mutationReplaceResources_Apply newResources resources
            = Ok ({| Contents := Resources newResources |}, task).

(** Keys of the visited new files that get a patch, and of the visited old
    files that do. *)
Definition changedKeys (old : gmap string string)
    (items : list (string * string)) : list string :=
  fst <$> filter (fun item => old !! fst item ≠ Some (snd item)) items.

Definition deletedKeys (new : gmap string string)
    (items : list (string * string)) : list string :=
  fst <$> filter (fun item => new !! fst item = None) items.

End Observations.

(** ** In-memory collaborators

  A small concrete implementation of the collaborators, in the manner of
  a test double: one repository whose revisions carry their own data, one
  draft open at a time, a metadata store kept as a list, mutations that
  record their task and leave the files alone, and a YAML reader that
  knows a handful of documents.  The examples below run the engine on
  it. *)

Module Fake.

Record Revision := {
  rev_name : string;
  rev_namespace : string;
  rev_obj : PackageRevision_api;
  rev_files : gmap string string;
  rev_kptfile : Kptfile }.

Record FakeWorld := {
  w_tasks : list Task;              (* task records of the open draft *)
  w_files : gmap string string;     (* files of the open draft *)
  w_lifecycle : PackageRevisionLifecycle;
  w_metas : list PackageRevisionMeta }.

Definition with_Tasks (ts : list Task) (obj : PackageRevision_api)
  : PackageRevision_api :=
  {| Name := Name obj; Namespace := Namespace obj; Labels := Labels obj;
     Annotations := Annotations obj; PackageName := PackageName obj;
     Lifecycle := Lifecycle obj; Tasks := ts;
     ReadinessGates := ReadinessGates obj; Conditions := Conditions obj |}.

Definition emptyKptfile : Kptfile :=
  {| kf_rest := ""; kf_Info := None; kf_Status := None |}.

Definition create (obj : PackageRevision_api) (w : FakeWorld)
  : FakeWorld * result Revision :=
  ({| w_tasks := []; w_files := ∅; w_lifecycle := Lifecycle obj;
      w_metas := w_metas w |},
   Ok {| rev_name := Name obj; rev_namespace := Namespace obj;
         rev_obj := with_Tasks [] obj; rev_files := ∅;
         rev_kptfile := emptyKptfile |}).

Definition update (old : Revision) (w : FakeWorld)
  : FakeWorld * result Revision :=
  ({| w_tasks := Tasks (rev_obj old); w_files := rev_files old;
      w_lifecycle := Lifecycle (rev_obj old); w_metas := w_metas w |},
   Ok old).

Definition updateResources (new : PackageRevisionResources)
    (task : option Task) (w : FakeWorld) : FakeWorld * result unit :=
  ({| w_tasks := w_tasks w ++ option_list task; w_files := Resources new;
      w_lifecycle := w_lifecycle w; w_metas := w_metas w |}, Ok tt).

Definition updateLifecycle (l : PackageRevisionLifecycle) (w : FakeWorld)
  : FakeWorld * result unit :=
  ({| w_tasks := w_tasks w; w_files := w_files w; w_lifecycle := l;
      w_metas := w_metas w |}, Ok tt).

Definition close (d : Revision) (w : FakeWorld) : FakeWorld * result Revision :=
  (w, Ok {| rev_name := rev_name d; rev_namespace := rev_namespace d;
            rev_obj := with_Tasks (w_tasks w)
                         (with_Lifecycle (w_lifecycle w) (rev_obj d));
            rev_files := w_files w; rev_kptfile := rev_kptfile d |}).

Definition sameKey (name namespace : string) (m : PackageRevisionMeta) : bool :=
  (meta_Name m =s name) && (meta_Namespace m =s namespace).

Definition putMeta (m : PackageRevisionMeta) (w : FakeWorld)
  : FakeWorld * result PackageRevisionMeta :=
  ({| w_tasks := w_tasks w; w_files := w_files w;
      w_lifecycle := w_lifecycle w;
      w_metas := m :: filter (fun m' => negb (sameKey (meta_Name m)
                                                (meta_Namespace m) m'))
                        (w_metas w) |}, Ok m).

Definition deleteMeta (name namespace : string) (w : FakeWorld)
  : FakeWorld * result PackageRevisionMeta :=
  ({| w_tasks := w_tasks w; w_files := w_files w;
      w_lifecycle := w_lifecycle w;
      w_metas := filter (fun m' => negb (sameKey name namespace m'))
                   (w_metas w) |},
   Ok {| meta_Name := name; meta_Namespace := namespace;
         meta_Labels := ∅; meta_Annotations := ∅ |}).

Definition keep (task : Task) (resources : PackageResources) (w : FakeWorld)
  : FakeWorld * result (PackageResources * option Task) :=
  (w, Ok (resources, Some task)).

Definition renderTask : Task :=
  {| Type_ := TaskTypeEval; Init := None; Clone := None; Patch := None;
     Edit := None;
     Eval := Some {| eval_Subpackage := ""; eval_Image := "render";
                     eval_ConfigMap := [] |};
     Update := None |}.

Definition buildPatch (task : Task) : result Task :=
  match Patch task with
  | None => Err (ErrPayloadNotSet "patch" (Type_ task))
  | Some _ => Ok task
  end.

Definition generatePatch (file old new : string) : result PatchSpec :=
  Ok {| patch_File := file;
        patch_Contents := if old =s new then "" else "-" +:+ old +:+ "+" +:+ new;
        patch_PatchType := PatchTypePatchFile |}.

Record Object := {
  o_group : string; o_kind : string; o_name : string;
  o_data : gmap string string }.

Definition lf : string := String (ascii_of_nat 10) EmptyString.

(** A package-context ConfigMap, a Deployment, and a broken document. *)
Definition contextDocument : string :=
  "apiVersion: v1" +:+ lf +:+ "kind: ConfigMap" +:+ lf +:+
  "metadata:" +:+ lf +:+ "  name: kptfile.kpt.dev" +:+ lf +:+
  "data:" +:+ lf +:+ "  package-path: foo/bar".

Definition deploymentDocument : string :=
  "apiVersion: apps/v1" +:+ lf +:+ "kind: Deployment" +:+ lf +:+
  "metadata:" +:+ lf +:+ "  name: web".

Definition brokenDocument : string := "a: [".

Definition unmarshal (s : string) : result Object :=
  if s =s brokenDocument
  then Err (ErrCollaborator "yaml: did not find expected node content")
  else if s =s contextDocument
  then Ok {| o_group := ""; o_kind := "ConfigMap";
             o_name := "kptfile.kpt.dev";
             o_data := {[ "package-path" := "foo/bar" ]} |}
  else if s =s deploymentDocument
  then Ok {| o_group := "apps"; o_kind := "Deployment"; o_name := "web";
             o_data := ∅ |}
  else Ok {| o_group := ""; o_kind := ""; o_name := ""; o_data := ∅ |}.

Record Node := { n_path : string; n_text : string }.

Definition isYaml (p : string) : bool :=
  let ext := GoStrings.ToLower (GoStrings.Ext p) in
  (ext =s ".yaml") || (ext =s ".yml").

Definition readPackage (files : gmap string string)
  : result (list Node * gmap string string) :=
  let items := map_to_list files in
  if existsb (fun kv => isYaml (fst kv) && (snd kv =s brokenDocument)) items
  then Err (ErrCollaborator "yaml: did not find expected node content")
  else Ok ((fun kv => {| n_path := fst kv; n_text := snd kv |})
             <$> filter (fun kv => isYaml (fst kv) = true) items,
           list_to_map (filter (fun kv => isYaml (fst kv) = false) items)).

Definition writePackage (nodes : list Node) : result (gmap string string) :=
  Ok (list_to_map ((fun n => (n_path n, n_text n)) <$> nodes)).

Definition encode (kf : Kptfile) : result string :=
  Ok (kf_rest kf
      +:+ "|" +:+ String.concat "," (ConditionType <$> default [] (kf_Info kf))
      +:+ "|" +:+ String.concat ","
                    ((fun c => kc_Type c +:+ "=" +:+ kc_Status c)
                       <$> default [] (kf_Status kf))).

#[global] Instance collaborators : Collaborators := {|
  World := FakeWorld;
  Repository := string;
  RepoPackageRevision := Revision;
  PackageDraft := Revision;
  Unstructured := Object;
  RNode := Node;
  PatchMutation := Task;
  cache_OpenRepository := fun cfg w =>
    (w, if repo_Name cfg =s ""
        then Err (ErrCollaborator "repository not found")
        else Ok (repo_Name cfg));
  repo_CreatePackageRevision := fun _ => create;
  repo_UpdatePackageRevision := fun _ => update;
  repo_DeletePackageRevision := fun _ _ w => (w, Ok tt);
  draft_UpdateResources := fun _ => updateResources;
  draft_UpdateLifecycle := fun _ => updateLifecycle;
  draft_Close := close;
  KubeObjectName := rev_name;
  KubeObjectNamespace := rev_namespace;
  rev_GetPackageRevision := fun r w => (w, Ok (rev_obj r));
  rev_GetResources := fun r w => (w, Ok {| Resources := rev_files r |});
  rev_GetKptfile := fun r w => (w, Ok (rev_kptfile r));
  meta_Create := fun m _ => putMeta m;
  meta_Update := putMeta;
  meta_Delete := deleteMeta;
  init_Apply := fun _ => keep;
  clone_Apply := fun task _ _ _ _ => keep task;
  update_Apply := fun _ updateTask _ _ => keep updateTask;
  patch_Apply := keep;
  edit_Apply := fun task _ => keep task;
  eval_Apply := keep;
  render_Apply := keep renderTask;
  buildPatchMutation := buildPatch;
  GeneratePatch := generatePatch;
  packageReader_Read := readPackage;
  packageWriter_Write := writePackage;
  yaml_Unmarshal := unmarshal;
  GroupKind := fun o => (o_group o, o_kind o);
  GetName := o_name;
  ConfigMap_Data := fun o => Ok (o_data o);
  yaml_Encode := encode;
  rn_GetNamespace := fun _ => "";
  rn_GetName := n_path;
  rn_GetApiVersion := fun _ => "v1";
  rn_GetKind := fun _ => "";
  CopyComments := fun _ to => (to, None);
  LatestPackageRevisionKey := "kpt.dev/latest-revision";
  LatestPackageRevisionValue := "true";
  PkgContextName := "kptfile.kpt.dev";
  ConfigKeyPackagePath := "package-path";
  map_range := map_to_list;
  map_range_perm := fun m => reflexivity (map_to_list m)
|}.

(** Sample data. *)

Definition repository : Repository_cfg :=
  {| repo_Name := "blueprints"; repo_Namespace := "default";
     repo_Deployment := false |}.

Definition peer (name : string) : UpstreamPackage :=
  {| up_Type := ""; up_Git := None; up_Oci := None;
     up_UpstreamRef := Some {| ref_Name := name |} |}.

Definition cloneTask (name : string) : Task :=
  {| Type_ := TaskTypeClone; Init := None;
     Clone := Some {| clone_Upstream := peer name; clone_Strategy := "" |};
     Patch := None; Edit := None; Eval := None; Update := None |}.

Definition updateTask (name : string) : Task :=
  {| Type_ := TaskTypeUpdate; Init := None; Clone := None; Patch := None;
     Edit := None; Eval := None;
     Update := Some {| update_Upstream := peer name |} |}.

Definition evalTask (image : string) : Task :=
  {| Type_ := TaskTypeEval; Init := None; Clone := None; Patch := None;
     Edit := None;
     Eval := Some {| eval_Subpackage := ""; eval_Image := image;
                     eval_ConfigMap := [] |};
     Update := None |}.

Definition request (name : string) (lifecycle : PackageRevisionLifecycle)
    (tasks : list Task) (labels : gmap string string) : PackageRevision_api :=
  {| Name := "blueprints-" +:+ name; Namespace := "default";
     Labels := labels; Annotations := ∅; PackageName := name;
     Lifecycle := lifecycle; Tasks := tasks;
     ReadinessGates := []; Conditions := [] |}.

Definition stored (obj : PackageRevision_api) (files : gmap string string)
  : Revision :=
  {| rev_name := Name obj; rev_namespace := Namespace obj; rev_obj := obj;
     rev_files := files; rev_kptfile := emptyKptfile |}.

Definition exposed (obj : PackageRevision_api) (files : gmap string string)
  : PackageRevision :=
  {| repoPackageRevision := stored obj files;
     packageRevisionMeta :=
       {| meta_Name := Name obj; meta_Namespace := Namespace obj;
          meta_Labels := Labels obj; meta_Annotations := Annotations obj |} |}.

Definition start : State :=
  {| world := {| w_tasks := []; w_files := ∅; w_lifecycle := "";
                 w_metas := [] |};
     calls := [] |}.

(** A parent package whose resources hold the package-context ConfigMap
    twice, in one file. *)
Definition twoContexts : PackageRevision :=
  exposed (request "parent" "Published" [] ∅)
    {[ "context.yaml" :=
         contextDocument +:+ lf +:+ "---" +:+ lf +:+ contextDocument ]}.

(** A parent package with one package-context ConfigMap. *)
Definition oneContext : PackageRevision :=
  exposed (request "parent" "Published" [] ∅)
    {[ "context.yaml" := contextDocument ]}.

(** The same collaborators with two behaviours left to choose: what reading
    the API object of a stored revision gives, and what copying comments
    does. *)
Definition variant
    (getPackageRevision :
       Revision → FakeWorld → FakeWorld * result PackageRevision_api)
    (copyComments : Node → Node → Node * option Error) : Collaborators := {|
  World := FakeWorld;
  Repository := string;
  RepoPackageRevision := Revision;
  PackageDraft := Revision;
  Unstructured := Object;
  RNode := Node;
  PatchMutation := Task;
  cache_OpenRepository := fun cfg w =>
    (w, if repo_Name cfg =s ""
        then Err (ErrCollaborator "repository not found")
        else Ok (repo_Name cfg));
  repo_CreatePackageRevision := fun _ => create;
  repo_UpdatePackageRevision := fun _ => update;
  repo_DeletePackageRevision := fun _ _ w => (w, Ok tt);
  draft_UpdateResources := fun _ => updateResources;
  draft_UpdateLifecycle := fun _ => updateLifecycle;
  draft_Close := close;
  KubeObjectName := rev_name;
  KubeObjectNamespace := rev_namespace;
  rev_GetPackageRevision := getPackageRevision;
  rev_GetResources := fun r w => (w, Ok {| Resources := rev_files r |});
  rev_GetKptfile := fun r w => (w, Ok (rev_kptfile r));
  meta_Create := fun m _ => putMeta m;
  meta_Update := putMeta;
  meta_Delete := deleteMeta;
  init_Apply := fun _ => keep;
  clone_Apply := fun task _ _ _ _ => keep task;
  update_Apply := fun _ updateTask _ _ => keep updateTask;
  patch_Apply := keep;
  edit_Apply := fun task _ => keep task;
  eval_Apply := keep;
  render_Apply := keep renderTask;
  buildPatchMutation := buildPatch;
  GeneratePatch := generatePatch;
  packageReader_Read := readPackage;
  packageWriter_Write := writePackage;
  yaml_Unmarshal := unmarshal;
  GroupKind := fun o => (o_group o, o_kind o);
  GetName := o_name;
  ConfigMap_Data := fun o => Ok (o_data o);
  yaml_Encode := encode;
  rn_GetNamespace := fun _ => "";
  rn_GetName := n_path;
  rn_GetApiVersion := fun _ => "v1";
  rn_GetKind := fun _ => "";
  CopyComments := copyComments;
  LatestPackageRevisionKey := "kpt.dev/latest-revision";
  LatestPackageRevisionValue := "true";
  PkgContextName := "kptfile.kpt.dev";
  ConfigKeyPackagePath := "package-path";
  map_range := map_to_list;
  map_range_perm := fun m => reflexivity (map_to_list m)
|}.

(** A repository whose revisions cannot be read: getting the API object of
    a stored revision fails. *)
Definition unreadable : Collaborators :=
  variant (fun _ w => (w, Err (ErrCollaborator "repository unavailable")))
    (fun _ to => (to, None)).

Definition unreadableParent : @PackageRevision unreadable :=
  @Build_PackageRevision unreadable
    (stored (request "parent" "Published" [] ∅) ∅)
    {| meta_Name := "blueprints-parent"; meta_Namespace := "default";
       meta_Labels := ∅; meta_Annotations := ∅ |}.

Definition unreadableStart : @State unreadable :=
  @Build_State unreadable (world start) [].

(** Comment copying that marks the node it copied to, and fails on the
    nodes of the file b.yaml, leaving them as they were. *)
Definition copyOrFail (from to : Node) : Node * option Error :=
  if n_path to =s "b.yaml"
  then (to, Some (ErrCollaborator "cannot copy comments"))
  else ({| n_path := n_path to; n_text := n_text to +:+ " # kept" |}, None).

Definition failingCopy : Collaborators :=
  variant (fun r w => (w, Ok (rev_obj r))) copyOrFail.

End Fake.

(** ** Sample runs

    The outcome of a few engine calls on the in-memory collaborators, each
    starting from the empty world and the empty call log. *)

Module Scenarios.

Import Fake.

(** Create with no tasks and no lifecycle. *)
Definition createMinimal :=
  Eval vm_compute in
    CreatePackageRevision repository (request "net" "" [] ∅) None start.

(** Create from a Clone task. *)
Definition createClone :=
  Eval vm_compute in
    CreatePackageRevision repository
      (request "net" "Draft" [cloneTask "base-v1"] ∅) None start.

(** A revision cloned from base-v1, and the same request moved to base-v2
    with a label added. *)
Definition fromV1 (lifecycle : PackageRevisionLifecycle) : PackageRevision_api :=
  request "net" lifecycle [cloneTask "base-v1"] ∅.

Definition toV2 (lifecycle : PackageRevisionLifecycle) : PackageRevision_api :=
  request "net" lifecycle [cloneTask "base-v2"] {[ "team" := "net" ]}.

Definition files : gmap string string := {[ "Kptfile" := "net" ]}.

(** Update of a Published revision. *)
Definition updatePublished :=
  Eval vm_compute in
    UpdatePackageRevision repository (exposed (fromV1 "Published") files)
      (fromV1 "Published") (toV2 "Published") None start.

(** Update of a Draft revision whose Clone task changed. *)
Definition updateReclone :=
  Eval vm_compute in
    UpdatePackageRevision repository (exposed (fromV1 "Draft") files)
      (fromV1 "Draft") (toV2 "Draft") None start.

(** The state right after the repository has been opened. *)
Definition opened : State :=
  {| world := world start; calls := [OpenRepository repository] |}.

(** A Draft revision with a second task after its Clone. *)
Definition twoTasks : PackageRevision_api :=
  request "net" "Draft" [cloneTask "base-v1"; evalTask "gcr.io/set-labels"] ∅.


(** Whole-file replacement: one file changed, one deleted, one created,
    one left as it was. *)
Definition oldFiles : gmap string string :=
  {[ "a.yaml" := "a: 1"; "b.yaml" := "b: 1"; "README.md" := "notes" ]}.

Definition newFiles : gmap string string :=
  {[ "a.yaml" := "a: 2"; "d.yaml" := "d: 1"; "README.md" := "notes" ]}.

Definition replaceFiles :=
  Eval vm_compute in
    mutationReplaceResources_Apply {| Resources := newFiles |}
      {| Contents := oldFiles |}.

(** A new file set with a file that is not well-formed YAML. *)
Definition brokenFiles : gmap string string :=
  {[ "a.yaml" := brokenDocument ]}.

(** A package with the package-context ConfigMap next to other files. *)
Definition contextFiles : gmap string string :=
  {[ "context.yaml" := contextDocument;
     "deploy.YML" := deploymentDocument +:+ lf +:+ "---" +:+ lf +:+ " ";
     "README.md" := "notes" ]}.

(** Two YAML files, both changed, replaced where copying comments fails on
    the second. *)
Definition copyOld : gmap string string :=
  {[ "a.yaml" := "a: 1"; "b.yaml" := "b: 1" ]}.

Definition copyNew : gmap string string :=
  {[ "a.yaml" := "a: 2"; "b.yaml" := "b: 2" ]}.

Definition copyHealed : gmap string string :=
  {[ "a.yaml" := "a: 2 # kept"; "b.yaml" := "b: 2" ]}.

(** Deleting a stored revision. *)
Definition deleteStored :=
  Eval vm_compute in
    DeletePackageRevision repository (exposed (fromV1 "Published") files) start.


Definition replaceInProposed :=
  Eval vm_compute in
    UpdatePackageResources repository (exposed (fromV1 "Proposed") oldFiles)
      {| Resources := oldFiles |} {| Resources := newFiles |} start.

(** A revision the repository marks as the latest one, with labels of its
    own in the metadata store. *)
Definition latestRevision : PackageRevision :=
  {| repoPackageRevision :=
       stored (request "net" "Published" []
                 {[ "kpt.dev/latest-revision" := "true"; "tier" := "stored" ]})
         files;
     packageRevisionMeta :=
       {| meta_Name := "blueprints-net"; meta_Namespace := "default";
          meta_Labels := {[ "team" := "net" ]};
          meta_Annotations := {[ "owner" := "ops" ]} |} |}.

Definition getLatest :=
  Eval vm_compute in GetPackageRevision latestRevision start.

End Scenarios.

(** ** The reject command ([commands/alpha/rpkg/reject])

    [kpt alpha rpkg reject PACKAGE...] asks the API server to move each
    named package revision back to Draft. *)

Module Reject.

Definition command : string := "cmdrpkgreject".

(** [errors.E(op, err)]: the operation and the error it wraps. *)
Record KptError := { err_Op : string; err_Err : string }.

Definition newline : string := String (ascii_of_nat 10) EmptyString.

Section Command.

(** The collaborators of the command: the configuration flags, the REST
    client made from them, and the API server the client talks to.
    [UpdatePackageRevisionApproval] returns the message of its error,
    if any. *)
Variables Config Client Server : Type.
Variable cfg_Namespace : Config → string.
Variable CreateRESTClient : Config → Client + string.
Variable UpdatePackageRevisionApproval :
  option Client → string → string → PackageRevisionLifecycle →
  Server → Server * option string.

Record runner := { cfg : Config; client : option Client }.

Definition preRunE (r : runner) (args : list string)
  : runner * option KptError :=
  let op := command +:+ ".preRunE" in
  if Nat.ltb (length args) 1 then
    (r, Some {| err_Op := op;
                err_Err := "PACKAGE_REVISION is a required positional argument" |})
  else
    match CreateRESTClient (cfg r) with
    | inr err => (r, Some {| err_Op := op; err_Err := err |})
    | inl c => ({| cfg := cfg r; client := Some c |}, None)
    end.

(** What a run of the command sees and leaves behind: the server, and the
    lines written to the output stream and to the error stream. *)
Record Run := {
  server : Server;
  outOrStderr : list string;
  errOrStderr : list string }.

(** The loop of [runE] over the arguments, with the messages collected so
    far. *)
Fixpoint rejectEach (r : runner) (namespace : string) (args : list string)
    (st : Run) (messages : list string) : Run * list string :=
  match args with
  | [] => (st, messages)
  | name :: rest =>
      match UpdatePackageRevisionApproval (client r) namespace name
              PackageRevisionLifecycleDraft (server st) with
      | (srv, Some err) =>
          rejectEach r namespace rest
            {| server := srv; outOrStderr := outOrStderr st;
               errOrStderr :=
                 errOrStderr st
                 ++ [name +:+ " failed (" +:+ err +:+ ")" +:+ newline] |}
            (messages ++ [err])
      | (srv, None) =>
          rejectEach r namespace rest
            {| server := srv;
               outOrStderr := outOrStderr st ++ [name +:+ " rejected" +:+ newline];
               errOrStderr := errOrStderr st |}
            messages
      end
  end.

Definition runE (r : runner) (args : list string) (st : Run)
  : Run * option KptError :=
  let op := command +:+ ".runE" in
  let namespace := cfg_Namespace (cfg r) in
  let '(st, messages) := rejectEach r namespace args st [] in
  if Nat.ltb 0 (length messages) then
    (st, Some {| err_Op := op;
                 err_Err := "errors:" +:+ newline +:+ "  "
                            +:+ String.concat (newline +:+ "  ") messages |})
  else (st, None).

(** The updates a run asks of the server, one per argument in order, each
    on the server the one before left: the name and what the update
    returned. *)
Fixpoint outcomes (r : runner) (namespace : string) (args : list string)
    (srv : Server) : list (string * option string) :=
  match args with
  | [] => []
  | name :: rest =>
      let res := UpdatePackageRevisionApproval (client r) namespace name
                   PackageRevisionLifecycleDraft srv in
      (name, snd res) :: outcomes r namespace rest (fst res)
  end.

(** The server after these updates. *)
Fixpoint serverAfter (r : runner) (namespace : string) (args : list string)
    (srv : Server) : Server :=
  match args with
  | [] => srv
  | name :: rest =>
      serverAfter r namespace rest
        (fst (UpdatePackageRevisionApproval (client r) namespace name
                PackageRevisionLifecycleDraft srv))
  end.

Definition failureMessages (os : list (string * option string)) : list string :=
  omap snd os.

Definition rejectedLine (o : string * option string) : option string :=
  match snd o with
  | None => Some (fst o +:+ " rejected" +:+ newline)
  | Some _ => None
  end.

Definition failedLine (o : string * option string) : option string :=
  match snd o with
  | None => None
  | Some err => Some (fst o +:+ " failed (" +:+ err +:+ ")" +:+ newline)
  end.

End Command.

Arguments cfg {Config Client} r.
Arguments client {Config Client} r.
Arguments server {Server} r.
Arguments outOrStderr {Server} r.
Arguments errOrStderr {Server} r.
Arguments preRunE {Config Client} CreateRESTClient r args.
Arguments rejectEach {Config Client Server} UpdatePackageRevisionApproval
  r namespace args st messages.
Arguments runE {Config Client Server} cfg_Namespace
  UpdatePackageRevisionApproval r args st.
Arguments outcomes {Config Client Server} UpdatePackageRevisionApproval
  r namespace args srv.
Arguments serverAfter {Config Client Server} UpdatePackageRevisionApproval
  r namespace args srv.

(** A server that holds the lifecycle of each package revision by name and
    accepts the move to Draft of a Proposed one only. *)
Definition sampleUpdate (c : option unit) (namespace name : string)
    (lifecycle : PackageRevisionLifecycle) (srv : list (string * string))
  : list (string * string) * option string :=
  match List.find (fun kv => fst kv =s name) srv with
  | None => (srv, Some ("not found: " +:+ name))
  | Some (_, current) =>
      if current =s PackageRevisionLifecycleProposed
      then ((fun kv => if fst kv =s name then (name, lifecycle) else kv) <$> srv,
            None)
      else (srv, Some ("cannot reject " +:+ name +:+ " with lifecycle "
                       +:+ current))
  end.

Definition sampleServer : list (string * string) :=
  [("pkg-a", "Proposed"); ("pkg-b", "Published"); ("pkg-c", "Proposed")].

Definition sampleRunner : runner unit unit :=
  {| cfg := tt; client := Some tt |}.

Definition sampleStart : Run (list (string * string)) :=
  {| server := sampleServer; outOrStderr := []; errOrStderr := [] |}.

Definition sampleRun :=
  Eval vm_compute in
    runE (fun _ => "default") sampleUpdate sampleRunner
      ["pkg-a"; "pkg-b"; "pkg-c"] sampleStart.

End Reject.

(** ** Reasoning about runs *)

Section Runs.

Context `{C : Collaborators}.

Lemma bind_Ok {A B} (m : M A) (k : A → M B) s s' b :
  bind m k s = (s', Ok b) →
  ∃ s1 a, m s = (s1, Ok a) ∧ k a s1 = (s', Ok b).
Proof.
  unfold bind. destruct (m s) as [s1 [a|e]]; [eauto | discriminate].
Qed.

Lemma bind_run {A B} (m : M A) (k : A → M B) s s1 a :
  m s = (s1, Ok a) → bind m k s = k a s1.
Proof. unfold bind. now intros ->. Qed.

Lemma bind_fail {A B} (m : M A) (k : A → M B) s s1 e :
  m s = (s1, Err e) → bind m k s = (s1, Err e).
Proof. unfold bind. now intros ->. Qed.

Lemma call_run {A} (c : Call) (f : World → World * result A) s s' r :
  call c f s = (s', r) →
  f (world s) = (world s', r) ∧ calls s' = calls s ++ [c].
Proof.
  unfold call. destruct (f (world s)) as [w r0]. intros [= <- <-]. auto.
Qed.

Lemma ask_run {A} (f : World → World * result A) s s' r :
  ask f s = (s', r) →
  f (world s) = (world s', r) ∧ calls s' = calls s.
Proof.
  unfold ask. destruct (f (world s)) as [w r0]. intros [= <- <-]. auto.
Qed.

Lemma lift_run {A} (x : result A) s s' r :
  lift x s = (s', r) → s' = s ∧ r = x.
Proof. unfold lift. intros [= <- <-]. auto. Qed.

Lemma ret_run {A} (a : A) s s' r :
  ret a s = (s', r) → s' = s ∧ r = Ok a.
Proof. unfold ret. intros [= <- <-]. auto. Qed.

Lemma wrap_Ok {A} (f : Error → Error) (m : M A) s s' a :
  wrap f m s = (s', Ok a) → m s = (s', Ok a).
Proof.
  unfold wrap. destruct (m s) as [s1 [a1|e]]; now intros [= <- <-].
Qed.

Lemma wrap_calls {A} (f : Error → Error) (m : M A) s :
  fst (wrap f m s) = fst (m s).
Proof. unfold wrap. now destruct (m s) as [s1 [a1|e]]. Qed.

Lemma ignore_call_run {A} (c : Call) (f : World → World * result A) s s' r :
  ignore (call c f) s = (s', r) →
  r = Ok tt ∧ world s' = fst (f (world s)) ∧ calls s' = calls s ++ [c].
Proof.
  unfold ignore, call. destruct (f (world s)) as [w r0]. simpl.
  intros [= <- <-]. auto.
Qed.


Lemma quiet_ret {A} (a : A) : quiet (ret a).
Proof. now intros s. Qed.

Lemma quiet_fail {A} (e : Error) : quiet (@fail _ A e).
Proof. now intros s. Qed.

Lemma quiet_lift {A} (r : result A) : quiet (lift r).
Proof. now intros s. Qed.

Lemma quiet_ask {A} (f : World → World * result A) : quiet (ask f).
Proof. intros s. unfold ask. now destruct (f (world s)). Qed.

Lemma quiet_wrap {A} f (m : M A) : quiet m → quiet (wrap f m).
Proof. intros H s. rewrite wrap_calls. apply H. Qed.

Lemma quiet_bind {A B} (m : M A) (k : A → M B) :
  quiet m → (∀ a, quiet (k a)) → quiet (bind m k).
Proof.
  intros Hm Hk s. unfold bind. specialize (Hm s).
  destruct (m s) as [s1 [a|e]]; simpl in *; [| done].
  rewrite Hk. done.
Qed.

Lemma quiet_GetPackageRevision p : quiet (GetPackageRevision p).
Proof.
  unfold GetPackageRevision. apply quiet_bind; [apply quiet_ask |].
  intros a. apply quiet_ret.
Qed.

Lemma quiet_buildPackageConfig obj parent : quiet (buildPackageConfig obj parent).
Proof.
  unfold buildPackageConfig. apply quiet_bind.
  - destruct parent as [p|]; [| apply quiet_ret].
    apply quiet_bind; [apply quiet_GetPackageRevision | intros parentObj].
    apply quiet_bind; [apply quiet_wrap, quiet_ask | intros res].
    apply quiet_bind; [apply quiet_wrap, quiet_lift | intros [cm|]].
    + apply quiet_bind; [apply quiet_wrap, quiet_lift | intros data].
      destruct (_ =s _); apply quiet_ret.
    + apply quiet_ret.
  - intros parentPath. destruct (_ =s _); apply quiet_ret.
Qed.

Lemma quiet_Apply m resources : quiet (Apply m resources).
Proof. destruct m; simpl; auto using quiet_ask, quiet_lift. Qed.

Lemma quiet_createKptfilePatchTask old newObj :
  quiet (createKptfilePatchTask old newObj).
Proof.
  unfold createKptfilePatchTask.
  repeat (apply quiet_bind; [first [apply quiet_ask | apply quiet_lift] | intros ?]).
  destruct (_ =s _); apply quiet_ret.
Qed.


Lemma applyResourceMutations_Ok draft ms : ∀ base s s',
  applyResourceMutations draft base ms s = (s', Ok tt) ↔
  ∃ recs, executed draft base ms s s' recs.
Proof.
  induction ms as [|m rest IH]; intros base s s'; simpl.
  - split.
    + intros [= <-]. eexists. constructor.
    + intros [recs H]. inversion H; subst. reflexivity.
  - split.
    + intros H. apply bind_Ok in H as (s1 & [applied task] & HA & H).
      apply bind_Ok in H as (s2 & [] & HU & H).
      apply IH in H as [recs H]. eexists. econstructor; eauto.
    + intros [recs H]. inversion H; subst.
      erewrite bind_run by eassumption. simpl.
      erewrite bind_run by eassumption.
      apply IH. eauto.
Qed.

Lemma executed_calls draft base ms s s' recs :
  executed draft base ms s s' recs →
  calls s' = calls s ++ (updateResourcesCall draft <$> recs)
  ∧ length recs = length ms.
Proof.
  induction 1 as [|base m rest s s1 s2 s3 applied task recs HA HU _ [IH1 IH2]].
  - simpl. now rewrite app_nil_r.
  - apply call_run in HU as [_ HU].
    pose proof (quiet_Apply m base s) as Hq. rewrite HA in Hq. simpl in Hq.
    simpl. rewrite IH1, HU, Hq, <- app_assoc. simpl. split; [done | lia].
Qed.

(** Whatever happens, the executor only ever makes [UpdateResources] calls
    on its draft. *)
Lemma applyResourceMutations_calls draft ms : ∀ base s,
  ∃ recs, calls (fst (applyResourceMutations draft base ms s))
          = calls s ++ (updateResourcesCall draft <$> recs).
Proof.
  induction ms as [|m rest IH]; intros base s; simpl.
  - exists []. simpl. now rewrite app_nil_r.
  - unfold bind at 1.
    pose proof (quiet_Apply m base s) as Hq.
    destruct (Apply m base s) as [s1 [[applied task]|e]]; simpl in Hq.
    + unfold bind at 1.
      destruct (call _ _ s1) as [s2 [[]|e]] eqn:HU;
        apply call_run in HU as [_ HU].
      * destruct (IH applied s2) as [recs IHr].
        exists (({| Resources := Contents applied |}, task) :: recs).
        rewrite IHr, HU, Hq, <- app_assoc. done.
      * exists [({| Resources := Contents applied |}, task)].
        simpl. rewrite HU, Hq. done.
    + exists []. simpl. now rewrite app_nil_r.
Qed.

End Runs.

(** ** Building the mutation list *)

Section MutationLists.

Context `{C : Collaborators}.

Lemma eqb_true (a b : string) : (a =s b) = true ↔ a = b.
Proof. apply String.eqb_eq. Qed.

Lemma eqb_false (a b : string) : (a =s b) = false ↔ a ≠ b.
Proof. apply String.eqb_neq. Qed.


Lemma isRender_true m : isRender m = true ↔ m = renderPackageMutation.
Proof. destruct m; simpl; split; (done || discriminate). Qed.

Lemma conditionalAddRender_cases (M : list mutation) :
  conditionalAddRender M
  = if isEmpty M || endsWithRender M then M else M ++ [renderPackageMutation].
Proof.
  unfold conditionalAddRender, endsWithRender.
  destruct M as [|m M']; [done |].
  simpl isEmpty. simpl orb.
  destruct (last (m :: M')) as [l|] eqn:E; [done |].
  apply last_None in E. discriminate.
Qed.

Lemma conditionalAddRender_nil : conditionalAddRender [] = [].
Proof. reflexivity. Qed.

Lemma conditionalAddRender_render (M : list mutation) :
  conditionalAddRender (M ++ [renderPackageMutation])
  = M ++ [renderPackageMutation].
Proof. unfold conditionalAddRender. now rewrite last_snoc. Qed.

Lemma conditionalAddRender_other (M : list mutation) m :
  isRender m = false →
  conditionalAddRender (M ++ [m]) = M ++ [m; renderPackageMutation].
Proof.
  intros H. unfold conditionalAddRender. rewrite last_snoc, H.
  now rewrite <- app_assoc.
Qed.

(** Running the policy twice adds nothing. *)
Lemma conditionalAddRender_idempotent (M : list mutation) :
  conditionalAddRender (conditionalAddRender M) = conditionalAddRender M.
Proof.
  destruct M as [|m M'] using rev_ind; [done |].
  destruct (isRender m) eqn:E.
  - apply isRender_true in E as ->.
    now rewrite !conditionalAddRender_render.
  - rewrite conditionalAddRender_other by done.
    change (M' ++ [m; renderPackageMutation])
      with (M' ++ [m] ++ [renderPackageMutation]).
    rewrite app_assoc. apply conditionalAddRender_render.
Qed.

(** A non-empty list ends with a render afterwards. *)
Lemma conditionalAddRender_last (M : list mutation) :
  M ≠ [] → last (conditionalAddRender M) = Some renderPackageMutation.
Proof.
  destruct M as [|m M'] using rev_ind; [done | intros _].
  destruct (isRender m) eqn:E.
  - apply isRender_true in E as ->.
    rewrite conditionalAddRender_render. apply last_snoc.
  - rewrite conditionalAddRender_other by done.
    change (M' ++ [m; renderPackageMutation])
      with (M' ++ [m] ++ [renderPackageMutation]).
    rewrite app_assoc. apply last_snoc.
Qed.


Lemma needsInit_true tasks : needsInit tasks = true ↔ lacksFirstStep tasks.
Proof.
  unfold needsInit, lacksFirstStep. destruct tasks as [|t rest].
  - split; auto.
  - rewrite andb_true_iff, !negb_true_iff, !eqb_false. split.
    + intros [? ?]. right. eauto.
    + intros [? | (t' & r' & [= <- <-] & ? & ?)]; [discriminate | auto].
Qed.

Lemma needsInit_false tasks :
  needsInit tasks = false ↔
  ∃ first rest, tasks = first :: rest
                ∧ (Type_ first = TaskTypeInit ∨ Type_ first = TaskTypeClone).
Proof.
  unfold needsInit. destruct tasks as [|t rest].
  - split; [discriminate | intros (? & ? & ? & _); discriminate].
  - rewrite andb_false_iff, !negb_false_iff, !eqb_true. split.
    + intros H. eauto.
    + intros (t' & r' & [= <- <-] & H). done.
Qed.

(** [mapTasks] yields one mutation per task, in order, after what was
    there. *)
Lemma mapTasks_Ok obj d cfg tasks : ∀ acc r,
  mapTasks obj tasks d cfg acc = Ok r ↔
  ∃ ms, r = acc ++ ms
        ∧ Forall2 (fun t m => mapTaskToMutation obj t d cfg = Ok m) tasks ms.
Proof.
  induction tasks as [|t rest IH]; intros acc r; simpl.
  - split.
    + intros [= <-]. exists []. rewrite app_nil_r. auto.
    + intros (ms & -> & H). inversion H. now rewrite app_nil_r.
  - destruct (mapTaskToMutation obj t d cfg) as [m|e] eqn:E.
    + rewrite IH. split.
      * intros (ms & -> & H). exists (m :: ms).
        rewrite <- app_assoc. auto.
      * intros (ms & -> & H). inversion H as [|? m' ? ms' Hm Hrest]; subst.
        rewrite E in Hm. injection Hm as <-.
        exists ms'. rewrite <- app_assoc. auto.
    + split; [discriminate |].
      intros (ms & _ & H). inversion H; subst. congruence.
Qed.

Lemma taskMutations_Ok repositoryObj obj cfg mutations :
  taskMutations repositoryObj obj cfg = Ok mutations ↔
  ∃ ms, Forall2 (fun t m => mapTaskToMutation obj t
                              (repo_Deployment repositoryObj) cfg = Ok m)
          (Tasks obj) ms
        ∧ mutations = conditionalAddRender (initialMutations obj ++ ms).
Proof.
  unfold taskMutations.
  destruct (mapTasks _ _ _ _ _) as [r|e] eqn:E.
  - apply mapTasks_Ok in E as (ms & -> & H). split.
    + intros [= <-]. eauto.
    + intros (ms' & H' & ->). do 3 f_equal.
      clear -H H'. revert ms' H'.
      induction H; intros ms' H'; inversion H'; subst; [done |].
      f_equal; [congruence | auto].
  - split; [discriminate |].
    intros (ms & H & _).
    assert (mapTasks obj (Tasks obj) (repo_Deployment repositoryObj) cfg
              (initialMutations obj) = Ok (initialMutations obj ++ ms)) as E'
      by (apply mapTasks_Ok; eauto).
    congruence.
Qed.

(** A successful [applyTasks] built its list and executed all of it. *)
Lemma applyTasks_Ok draft repositoryObj obj cfg s s' :
  applyTasks draft repositoryObj obj cfg s = (s', Ok tt) ↔
  ∃ mutations recs,
    taskMutations repositoryObj obj cfg = Ok mutations
    ∧ executed draft {| Contents := ∅ |} mutations s s' recs.
Proof.
  unfold applyTasks. split.
  - intros H. apply bind_Ok in H as (s1 & ms & Hl & H).
    apply lift_run in Hl as [-> Hl].
    apply applyResourceMutations_Ok in H as [recs H]. eauto.
  - intros (ms & recs & Hm & H).
    rewrite (bind_run _ _ s s ms) by (unfold lift; now rewrite Hm).
    apply applyResourceMutations_Ok. eauto.
Qed.

End MutationLists.

(** ** Creating a revision *)

Section Create.

Context `{C : Collaborators}.

(** The shape of every successful [CreatePackageRevision]. *)
Lemma CreatePackageRevision_Ok repositoryObj obj parent s s' pr :
  CreatePackageRevision repositoryObj obj parent s = (s', Ok pr) →
  ∃ packageConfig obj' repo draft mutations recs s0 s1 s2 s3,
    buildPackageConfig obj parent s = (s0, Ok packageConfig)
    ∧ validateCreateLifecycle obj = Ok obj'
    ∧ repo_CreatePackageRevision repo obj' (world s1) = (world s2, Ok draft)
    ∧ taskMutations repositoryObj obj' packageConfig = Ok mutations
    ∧ executed draft {| Contents := ∅ |} mutations s2 s3 recs
    ∧ calls s' =
        calls s
        ++ [OpenRepository repositoryObj; RepoCreatePackageRevision repo obj']
        ++ (updateResourcesCall draft <$> recs)
        ++ [DraftUpdateLifecycle draft (Lifecycle obj'); DraftClose draft;
            MetaCreate (metaOf (repoPackageRevision pr) obj') repositoryObj]
    ∧ ∃ w, meta_Create (metaOf (repoPackageRevision pr) obj') repositoryObj w
           = (world s', Ok (packageRevisionMeta pr)).
Proof.
  intros H. unfold CreatePackageRevision in H.
  apply bind_Ok in H as (s0 & cfg & Hcfg & H).
  apply bind_Ok in H as (? & obj' & Hval & H).
  apply lift_run in Hval as [-> Hval].
  apply bind_Ok in H as (s1 & repo & Hopen & H).
  apply call_run in Hopen as [Hopen Hc1].
  apply bind_Ok in H as (s2 & draft & Hcreate & H).
  apply call_run in Hcreate as [Hcreate Hc2].
  apply bind_Ok in H as (s3 & [] & Htasks & H).
  apply applyTasks_Ok in Htasks as (ms & recs & Hms & Hex).
  apply bind_Ok in H as (s4 & [] & Hlc & H).
  apply call_run in Hlc as [Hlc Hc4].
  apply bind_Ok in H as (s5 & rev & Hclose & H).
  apply call_run in Hclose as [Hclose Hc5].
  apply bind_Ok in H as (s6 & m & Hmeta & H).
  apply call_run in Hmeta as [Hmeta Hc6].
  apply ret_run in H as [-> [= ->]]. simpl.
  exists cfg, obj', repo, draft, ms, recs, s0, s1, s2, s3.
  repeat split; try done.
  - pose proof (quiet_buildPackageConfig obj parent s) as Hq.
    rewrite Hcfg in Hq. simpl in Hq.
    apply executed_calls in Hex as [Hex _].
    rewrite Hc6, Hc5, Hc4, Hex, Hc2, Hc1, Hq.
    rewrite <- !app_assoc. done.
  - eauto.
Qed.

Lemma validateCreateLifecycle_Tasks obj obj' :
  validateCreateLifecycle obj = Ok obj' →
  Tasks obj' = Tasks obj ∧ PackageName obj' = PackageName obj
  ∧ Labels obj' = Labels obj ∧ Annotations obj' = Annotations obj.
Proof.
  unfold validateCreateLifecycle.
  repeat (destruct (_ =s _); simpl); intros [= <-]; done.
Qed.

(** Every successful [CreatePackageRevision], step by step: the states
    the call goes through and what each collaborator returned. *)
Lemma CreatePackageRevision_steps repositoryObj obj parent s s' pr :
  CreatePackageRevision repositoryObj obj parent s = (s', Ok pr) →
  ∃ packageConfig obj' repo draft mutations recs s0 s1 s2 s3 s4 s5,
    buildPackageConfig obj parent s = (s0, Ok packageConfig)
    ∧ validateCreateLifecycle obj = Ok obj'
    ∧ call (OpenRepository repositoryObj)
        (cache_OpenRepository repositoryObj) s0 = (s1, Ok repo)
    ∧ call (RepoCreatePackageRevision repo obj')
        (repo_CreatePackageRevision repo obj') s1 = (s2, Ok draft)
    ∧ taskMutations repositoryObj obj' packageConfig = Ok mutations
    ∧ executed draft {| Contents := ∅ |} mutations s2 s3 recs
    ∧ call (DraftUpdateLifecycle draft (Lifecycle obj'))
        (draft_UpdateLifecycle draft (Lifecycle obj')) s3 = (s4, Ok tt)
    ∧ call (DraftClose draft) (draft_Close draft) s4
      = (s5, Ok (repoPackageRevision pr))
    ∧ call (MetaCreate (metaOf (repoPackageRevision pr) obj') repositoryObj)
        (meta_Create (metaOf (repoPackageRevision pr) obj') repositoryObj) s5
      = (s', Ok (packageRevisionMeta pr)).
Proof.
  intros H. unfold CreatePackageRevision in H.
  apply bind_Ok in H as (s0 & cfg & Hcfg & H).
  apply bind_Ok in H as (? & obj' & Hval & H).
  apply lift_run in Hval as [-> Hval].
  apply bind_Ok in H as (s1 & repo & Hopen & H).
  apply bind_Ok in H as (s2 & draft & Hcreate & H).
  apply bind_Ok in H as (s3 & [] & Htasks & H).
  apply applyTasks_Ok in Htasks as (ms & recs & Hms & Hex).
  apply bind_Ok in H as (s4 & [] & Hlc & H).
  apply bind_Ok in H as (s5 & rev & Hclose & H).
  apply bind_Ok in H as (s6 & m & Hmeta & H).
  apply ret_run in H as [-> [= ->]]. simpl.
  exists cfg, obj', repo, draft, ms, recs, s0, s1, s2, s3, s4, s5.
  repeat split; done.
Qed.

(** C4 — Init auto-prepend.  Every successful [CreatePackageRevision] runs
    through these steps, each from the state the one before left: the
    package configuration is built, the lifecycle checked, the repository
    opened, a draft created, the chain of mutations executed on that draft
    from the empty file set, the lifecycle set, the draft closed and the
    metadata record created; the calls it adds to the log are exactly these,
    with one [UpdateResources] per mutation of the chain carrying the task
    record to store.  When the task list of the request is empty or starts
    with a task that is neither Init nor Clone, the chain is an Init
    mutation for the package, followed by the mutations of the tasks, one
    per task in order, followed by the Render policy; the task of that Init
    carries an Init payload with Description "<packageName> description" and
    an empty Subpackage (the literal sets the payload only, the Type field
    of the task is left empty); and the first task record handed to the
    draft, right after the draft was created, is the audit task that Init
    mutation returned.  When the first task is Init or Clone, nothing is
    put in front: the chain is the mutations of the tasks followed by the
    Render policy. *)
Theorem create_prepends_init repositoryObj obj parent s s' pr :
  CreatePackageRevision repositoryObj obj parent s = (s', Ok pr) →
  ∃ packageConfig obj' repo draft ms recs s0 s1 s2 s3 s4 s5,
    buildPackageConfig obj parent s = (s0, Ok packageConfig)
    ∧ validateCreateLifecycle obj = Ok obj'
    ∧ call (OpenRepository repositoryObj)
        (cache_OpenRepository repositoryObj) s0 = (s1, Ok repo)
    ∧ call (RepoCreatePackageRevision repo obj')
        (repo_CreatePackageRevision repo obj') s1 = (s2, Ok draft)
    ∧ Forall2 (fun t m => mapTaskToMutation obj' t
                            (repo_Deployment repositoryObj) packageConfig = Ok m)
        (Tasks obj) ms
    ∧ executed draft {| Contents := ∅ |}
        (conditionalAddRender (initialMutations obj ++ ms)) s2 s3 recs
    ∧ call (DraftUpdateLifecycle draft (Lifecycle obj'))
        (draft_UpdateLifecycle draft (Lifecycle obj')) s3 = (s4, Ok tt)
    ∧ call (DraftClose draft) (draft_Close draft) s4
      = (s5, Ok (repoPackageRevision pr))
    ∧ call (MetaCreate (metaOf (repoPackageRevision pr) obj') repositoryObj)
        (meta_Create (metaOf (repoPackageRevision pr) obj') repositoryObj) s5
      = (s', Ok (packageRevisionMeta pr))
    ∧ calls s' =
        calls s
        ++ [OpenRepository repositoryObj; RepoCreatePackageRevision repo obj']
        ++ (updateResourcesCall draft <$> recs)
        ++ [DraftUpdateLifecycle draft (Lifecycle obj'); DraftClose draft;
            MetaCreate (metaOf (repoPackageRevision pr) obj') repositoryObj]
    ∧ (lacksFirstStep (Tasks obj) →
       let task0 := initTask (PackageName obj) in
       initialMutations obj = [initPackageMutation (PackageName obj) task0]
       ∧ Init task0
         = Some {| init_Subpackage := "";
                   init_Description := PackageName obj +:+ " description";
                   init_Keywords := []; init_Site := "" |}
       ∧ Type_ task0 = ""
       ∧ ∃ applied task recs' later,
           Apply (initPackageMutation (PackageName obj) task0)
             {| Contents := ∅ |} s2
           = ({| world := fst (init_Apply (PackageName obj) task0
                                 {| Contents := ∅ |} (world s2));
                 calls := calls s2 |},
              Ok (applied, task))
           ∧ recs = ({| Resources := Contents applied |}, task) :: recs'
           ∧ calls s' =
               calls s
               ++ OpenRepository repositoryObj
                  :: RepoCreatePackageRevision repo obj'
                  :: DraftUpdateResources draft
                       {| Resources := Contents applied |} task
                  :: later)
    ∧ (¬ lacksFirstStep (Tasks obj) → initialMutations obj = []).
Proof.
  intros H.
  apply CreatePackageRevision_steps in H
    as (cfg & obj' & repo & draft & mutations & recs & s0 & s1 & s2 & s3
        & s4 & s5 & Hcfg & Hval & Hopen & Hcreate & Hms & Hex & Hlc & Hclose
        & Hmeta).
  destruct (validateCreateLifecycle_Tasks _ _ Hval) as (HT & HN & _).
  apply taskMutations_Ok in Hms as (ms & HF & ->).
  rewrite HT in HF.
  assert (initialMutations obj' = initialMutations obj) as Hinit
    by (unfold initialMutations; now rewrite HT, HN).
  rewrite Hinit in Hex.
  assert (calls s' =
            calls s
            ++ [OpenRepository repositoryObj;
                RepoCreatePackageRevision repo obj']
            ++ (updateResourcesCall draft <$> recs)
            ++ [DraftUpdateLifecycle draft (Lifecycle obj'); DraftClose draft;
                MetaCreate (metaOf (repoPackageRevision pr) obj')
                  repositoryObj]) as Hcalls.
  { pose proof (quiet_buildPackageConfig obj parent s) as Hq.
    rewrite Hcfg in Hq. simpl in Hq.
    destruct (call_run _ _ _ _ _ Hopen) as [_ Hc1].
    destruct (call_run _ _ _ _ _ Hcreate) as [_ Hc2].
    destruct (call_run _ _ _ _ _ Hlc) as [_ Hc4].
    destruct (call_run _ _ _ _ _ Hclose) as [_ Hc5].
    destruct (call_run _ _ _ _ _ Hmeta) as [_ Hc6].
    destruct (executed_calls _ _ _ _ _ _ Hex) as [Hc3 _].
    rewrite Hc6, Hc5, Hc4, Hc3, Hc2, Hc1, Hq.
    rewrite <- !app_assoc. done. }
  exists cfg, obj', repo, draft, ms, recs, s0, s1, s2, s3, s4, s5.
  do 10 (split; [done |]). split.
  - intros Hlack. apply needsInit_true in Hlack. cbv zeta.
    assert (initialMutations obj
            = [initPackageMutation (PackageName obj)
                 (initTask (PackageName obj))]) as Hi
      by (unfold initialMutations; now rewrite Hlack).
    do 3 (split; [done |]).
    rewrite Hi in Hex.
    assert (∃ rest, conditionalAddRender
              ([initPackageMutation (PackageName obj)
                  (initTask (PackageName obj))] ++ ms)
            = initPackageMutation (PackageName obj) (initTask (PackageName obj))
              :: rest) as [rest Hrest].
    { rewrite conditionalAddRender_cases. destruct (_ || _); simpl; eauto. }
    rewrite Hrest in Hex.
    inversion Hex as [|? ? ? ? sa ? ? applied task recs' HA]; subst.
    exists applied, task, recs'. eexists. split; [| split; [done |]].
    + simpl in HA. simpl. unfold ask in *.
      destruct (init_Apply _ _ _ _) as [w r]. simpl.
      now injection HA as <- ->.
    + rewrite Hcalls. simpl. reflexivity.
  - intros Hlack. unfold initialMutations.
    destruct (needsInit (Tasks obj)) eqn:E; [| done].
    apply needsInit_true in E. done.
Qed.

(** C5 — Render policy on create.  For any mutation list [M],
    [conditionalAddRender M] is [M] itself when [M] is empty or already
    ends with a Render and [M] followed by exactly one Render otherwise;
    and in every successful [CreatePackageRevision] the chain executed on
    the draft is [conditionalAddRender M] for the list [M] built from the
    tasks (the Init, if one was put in front, and one mutation per task),
    with one task record handed to the draft per mutation of the chain. *)
Theorem create_appends_one_render :
  (∀ M : list mutation,
      conditionalAddRender M
      = if isEmpty M || endsWithRender M then M
        else M ++ [renderPackageMutation])
  ∧ ∀ repositoryObj obj parent s s' pr,
      CreatePackageRevision repositoryObj obj parent s = (s', Ok pr) →
      ∃ packageConfig obj' repo draft M recs s2 s3,
        validateCreateLifecycle obj = Ok obj'
        ∧ mapTasks obj' (Tasks obj') (repo_Deployment repositoryObj)
            packageConfig (initialMutations obj') = Ok M
        ∧ executed draft {| Contents := ∅ |} (conditionalAddRender M) s2 s3 recs
        ∧ length recs = length (conditionalAddRender M)
        ∧ calls s' =
            calls s
            ++ [OpenRepository repositoryObj;
                RepoCreatePackageRevision repo obj']
            ++ (updateResourcesCall draft <$> recs)
            ++ [DraftUpdateLifecycle draft (Lifecycle obj'); DraftClose draft;
                MetaCreate (metaOf (repoPackageRevision pr) obj') repositoryObj].
Proof.
  split; [apply conditionalAddRender_cases |].
  intros repositoryObj obj parent s s' pr H.
  apply CreatePackageRevision_Ok in H
    as (cfg & obj' & repo & draft & mutations & recs & s0 & s1 & s2 & s3
        & _ & Hval & _ & Hms & Hex & Hcalls & _).
  unfold taskMutations in Hms.
  destruct (mapTasks _ _ _ _ _) as [M|e] eqn:E; [| discriminate].
  injection Hms as <-.
  exists cfg, obj', repo, draft, M, recs, s2, s3.
  repeat split; try done.
  now apply executed_calls in Hex as [_ Hex].
Qed.

End Create.

Section CreateLifecycle.

Context `{C : Collaborators}.

(** C6 (amended) — Lifecycle check on create.  [CreatePackageRevision]
    first builds the package configuration from the parent.  When that
    fails, the call fails with that very error, whatever the lifecycle of
    the request, and has made no call to the cache, a repository, a draft
    or the metadata store.  When it has succeeded: with lifecycle Published
    the call fails with the "cannot create ... 'Final'" error, with any
    value other than unset, Draft, Proposed and Published it fails with the
    "unsupported lifecycle value" error, in both cases without a single call
    to the cache, a repository, a draft or the metadata store; and with the
    lifecycle unset the call goes on exactly as for the same request with
    lifecycle Draft. *)
Theorem create_lifecycle_after_package_config repositoryObj obj parent s :
  (∀ s0 e,
      buildPackageConfig obj parent s = (s0, Err e) →
      CreatePackageRevision repositoryObj obj parent s = (s0, Err e)
      ∧ calls s0 = calls s)
  ∧ (∀ s0 cfg,
      buildPackageConfig obj parent s = (s0, Ok cfg) →
      (Lifecycle obj = PackageRevisionLifecyclePublished →
       CreatePackageRevision repositoryObj obj parent s
       = (s0, Err ErrCreateFinal)
       ∧ calls s0 = calls s)
      ∧ (Lifecycle obj ∉ [""; PackageRevisionLifecycleDraft;
                          PackageRevisionLifecycleProposed;
                          PackageRevisionLifecyclePublished] →
         CreatePackageRevision repositoryObj obj parent s
         = (s0, Err (ErrUnsupportedLifecycle (Lifecycle obj)))
         ∧ calls s0 = calls s)
      ∧ (Lifecycle obj = "" →
         validateCreateLifecycle obj
         = Ok (with_Lifecycle PackageRevisionLifecycleDraft obj)
         ∧ CreatePackageRevision repositoryObj obj parent s
           = CreatePackageRevision repositoryObj
               (with_Lifecycle PackageRevisionLifecycleDraft obj) parent s)).
Proof.
  pose proof (quiet_buildPackageConfig obj parent s) as Hq.
  split.
  - intros s0 e Hcfg. rewrite Hcfg in Hq. simpl in Hq.
    split; [| done].
    unfold CreatePackageRevision. apply (bind_fail _ _ _ _ _ Hcfg).
  - intros s0 cfg Hcfg. rewrite Hcfg in Hq. simpl in Hq.
    split; [| split].
    + intros HL. split; [| done].
      unfold CreatePackageRevision. rewrite (bind_run _ _ _ _ _ Hcfg).
      unfold validateCreateLifecycle. rewrite HL. reflexivity.
    + intros HL. split; [| done].
      unfold CreatePackageRevision. rewrite (bind_run _ _ _ _ _ Hcfg).
      rewrite !not_elem_of_cons in HL. destruct HL as (H1 & H2 & H3 & H4 & _).
      apply eqb_false in H1, H2, H3, H4.
      unfold validateCreateLifecycle. rewrite H1, H2, H3, H4. reflexivity.
    + intros HL. split.
      * unfold validateCreateLifecycle. now rewrite HL.
      * unfold CreatePackageRevision.
        assert (buildPackageConfig
                  (with_Lifecycle PackageRevisionLifecycleDraft obj) parent
                = buildPackageConfig obj parent) as -> by reflexivity.
        rewrite !(bind_run _ _ _ _ _ Hcfg).
        unfold validateCreateLifecycle. rewrite HL. reflexivity.
Qed.

(** The package configuration of a request with a parent cannot be built
    when the API object of the parent cannot be read: the error of that
    read is the error of [buildPackageConfig]. *)
Lemma buildPackageConfig_parent_unreadable obj parent s w e :
  rev_GetPackageRevision (repoPackageRevision parent) (world s) = (w, Err e) →
  buildPackageConfig obj (Some parent) s
  = ({| world := w; calls := calls s |}, Err e).
Proof.
  intros H. unfold buildPackageConfig, GetPackageRevision.
  unfold bind at 1. unfold bind at 1. unfold bind at 1.
  unfold ask. rewrite H. reflexivity.
Qed.

(** Whatever the parent, a create with lifecycle Published fails and makes
    no call at all. *)
Lemma create_published_never_opens_a_draft repositoryObj obj parent s :
  Lifecycle obj = PackageRevisionLifecyclePublished →
  is_Ok (snd (CreatePackageRevision repositoryObj obj parent s)) = false
  ∧ calls (fst (CreatePackageRevision repositoryObj obj parent s)) = calls s.
Proof.
  intros HL.
  pose proof (quiet_buildPackageConfig obj parent s) as Hq.
  unfold CreatePackageRevision.
  destruct (buildPackageConfig obj parent s) as [s0 [cfg|e]] eqn:Hcfg;
    simpl in Hq.
  - rewrite (bind_run _ _ _ _ _ Hcfg).
    unfold validateCreateLifecycle. rewrite HL.
    split; [reflexivity | exact Hq].
  - rewrite (bind_fail _ _ _ _ _ Hcfg). split; [reflexivity | exact Hq].
Qed.

End CreateLifecycle.

(** *** Examples on the in-memory collaborators *)

(** The task of the Init put in front: the payload is set, the type tag is
    left empty. *)
Example initTask_fields :
  Init (initTask "net")
  = Some {| init_Subpackage := ""; init_Description := "net description";
            init_Keywords := []; init_Site := "" |}
  ∧ Type_ (initTask "net") = "".
Proof. split; reflexivity. Qed.

Lemma create_prepends_init_witness :
  ∃ s' pr,
    CreatePackageRevision Fake.repository (Fake.request "net" "" [] ∅) None
      Fake.start = (s', Ok pr)
    ∧ lacksFirstStep []
    ∧ ∃ repo draft applied later,
        calls s' =
          [OpenRepository Fake.repository;
           RepoCreatePackageRevision repo
             (Fake.request "net" "Draft" [] ∅);
           DraftUpdateResources draft {| Resources := Contents applied |}
             (Some (initTask "net"))]
          ++ later.
Proof.
  pose proof (eq_refl : CreatePackageRevision Fake.repository
                          (Fake.request "net" "" [] ∅) None Fake.start
                        = Scenarios.createMinimal) as E.
  unfold Scenarios.createMinimal in E.
  eexists _, _. split; [exact E |]. split; [now left |].
  destruct (create_prepends_init _ _ _ _ _ _ E)
    as (cfg & obj' & repo & draft & ms & recs & s0 & s1 & s2 & s3 & s4 & s5
        & _ & Hval & _ & _ & _ & _ & _ & _ & _ & _ & Hinit & _).
  injection Hval as <-.
  destruct (Hinit (or_introl eq_refl))
    as (_ & _ & _ & applied & task & recs' & later & HA & _ & Hcalls).
  simpl in HA. injection HA as _ <-.
  exists repo, draft, applied, later. exact Hcalls.
Defined.

Lemma create_appends_one_render_witness :
  ∃ s' pr,
    CreatePackageRevision Fake.repository
      (Fake.request "net" "Draft" [Fake.cloneTask "base-v1"] ∅) None
      Fake.start = (s', Ok pr)
    ∧ ∃ (M : list mutation) (recs : list (PackageRevisionResources * option Task)),
        length recs = length (conditionalAddRender M).
Proof.
  pose proof (eq_refl : CreatePackageRevision Fake.repository
                          (Fake.request "net" "Draft" [Fake.cloneTask "base-v1"] ∅)
                          None Fake.start
                        = Scenarios.createClone) as E.
  unfold Scenarios.createClone in E.
  eexists _, _. split; [exact E |].
  destruct (proj2 create_appends_one_render _ _ _ _ _ _ E)
    as (cfg & obj' & repo & draft & M & recs & s2 & s3 & _ & _ & _ & Hlen & _).
  exists M, recs. exact Hlen.
Defined.

(** Reading the parent fails on the repository that cannot be read, and
    so does building the package configuration: no document of the parent
    is looked at. *)
Example unreadable_parent_has_no_package_config :
  buildPackageConfig (C := Fake.unreadable)
    (Fake.request "baz" "Published" [] ∅) (Some Fake.unreadableParent)
    Fake.unreadableStart
  = (Fake.unreadableStart, Err (ErrCollaborator "repository unavailable")).
Proof.
  exact (buildPackageConfig_parent_unreadable (C := Fake.unreadable)
           (Fake.request "baz" "Published" [] ∅) Fake.unreadableParent
           Fake.unreadableStart _ _ eq_refl).
Qed.

(** With a parent that cannot be read, a create with lifecycle Published
    fails with the error of that read, not with the lifecycle error. *)
Lemma create_published_parent_error_first :
  ¬ createPublishedFailsValidation (C := Fake.unreadable) Fake.repository
      (Fake.request "baz" "Published" [] ∅) (Some Fake.unreadableParent)
      Fake.unreadableStart.
Proof.
  intros H. specialize (H eq_refl).
  unfold CreatePackageRevision in H.
  rewrite (bind_fail _ _ _ _ _ unreadable_parent_has_no_package_config) in H.
  discriminate H.
Qed.

Lemma create_lifecycle_after_package_config_witness :
  (buildPackageConfig (C := Fake.unreadable)
     (Fake.request "baz" "Published" [] ∅) (Some Fake.unreadableParent)
     Fake.unreadableStart
   = (Fake.unreadableStart, Err (ErrCollaborator "repository unavailable"))
   ∧ CreatePackageRevision (C := Fake.unreadable) Fake.repository
       (Fake.request "baz" "Published" [] ∅) (Some Fake.unreadableParent)
       Fake.unreadableStart
     = (Fake.unreadableStart, Err (ErrCollaborator "repository unavailable")))
  ∧ (buildPackageConfig (Fake.request "baz" "Published" [] ∅) None Fake.start
     = (Fake.start, Ok {| PackagePath := "baz" |})
     ∧ CreatePackageRevision Fake.repository
         (Fake.request "baz" "Published" [] ∅) None Fake.start
       = (Fake.start, Err ErrCreateFinal)).
Proof.
  split.
  - split; [exact unreadable_parent_has_no_package_config |].
    exact (proj1 (proj1 (create_lifecycle_after_package_config
                           (C := Fake.unreadable) Fake.repository
                           (Fake.request "baz" "Published" [] ∅)
                           (Some Fake.unreadableParent) Fake.unreadableStart)
                    _ _ unreadable_parent_has_no_package_config)).
  - assert (buildPackageConfig (Fake.request "baz" "Published" [] ∅) None
              Fake.start
            = (Fake.start, Ok {| PackagePath := "baz" |})) as H
      by reflexivity.
    split; [exact H |].
    exact (proj1 (proj1 (proj2 (create_lifecycle_after_package_config
                                  Fake.repository _ _ _) _ _ H) eq_refl)).
Defined.

(** ** Updating a revision *)

Section Update.

Context `{C : Collaborators}.

Lemma isRecloneAndReplay_true oldObj newObj :
  isRecloneAndReplay oldObj newObj = true ↔ recloneCondition oldObj newObj.
Proof.
  unfold isRecloneAndReplay, recloneCondition.
  destruct (Tasks oldObj) as [|old0 oldRest], (Tasks newObj) as [|new0 newRest];
    try (split; [discriminate | intros (? & ? & ? & ? & ? & ? & _); discriminate]).
  destruct (Type_ old0 =s TaskTypeClone) eqn:Eo;
    destruct (Type_ new0 =s TaskTypeClone) eqn:En; simpl;
    try (split; [discriminate |];
         intros (? & ? & ? & ? & [= <- <-] & [= <- <-] & Ho & Hn & _);
         apply eqb_true in Ho, Hn; congruence).
  apply eqb_true in Eo, En.
  destruct (bool_decide (old0 = new0)) eqn:Ed.
  - apply bool_decide_eq_true in Ed. split; [discriminate |].
    intros (? & ? & ? & ? & [= <- <-] & [= <- <-] & _ & _ & Hne). done.
  - apply bool_decide_eq_false in Ed. split; [| done].
    intros _. exists old0, oldRest, new0, newRest. done.
Qed.

Lemma recloneCondition_no_init oldObj newObj :
  recloneCondition oldObj newObj → initialMutations newObj = [].
Proof.
  intros (old0 & oldRest & new0 & newRest & _ & Hn & _ & Ht & _).
  unfold initialMutations, needsInit. rewrite Hn, Ht. reflexivity.
Qed.

(** The shape of every successful [recloneAndReplay]. *)
Lemma recloneAndReplay_Ok repo repositoryObj newObj cfg s s' rev :
  recloneAndReplay repo repositoryObj newObj cfg s = (s', Ok rev) →
  ∃ draft mutations recs s2 s3,
    repo_CreatePackageRevision repo newObj (world s) = (world s2, Ok draft)
    ∧ taskMutations repositoryObj newObj cfg = Ok mutations
    ∧ executed draft {| Contents := ∅ |} mutations s2 s3 recs
    ∧ calls s' =
        calls s
        ++ [RepoCreatePackageRevision repo newObj]
        ++ (updateResourcesCall draft <$> recs)
        ++ [DraftUpdateLifecycle draft (Lifecycle newObj); DraftClose draft].
Proof.
  intros H. unfold recloneAndReplay in H.
  apply bind_Ok in H as (s2 & draft & Hcreate & H).
  apply call_run in Hcreate as [Hcreate Hc2].
  apply bind_Ok in H as (s3 & [] & Htasks & H).
  apply applyTasks_Ok in Htasks as (ms & recs & Hms & Hex).
  apply bind_Ok in H as (s4 & [] & Hlc & H).
  apply call_run in Hlc as [Hlc Hc4].
  apply call_run in H as [Hclose Hc5].
  exists draft, ms, recs, s2, s3. repeat split; try done.
  apply executed_calls in Hex as [Hex _].
  rewrite Hc5, Hc4, Hex, Hc2, <- !app_assoc. done.
Qed.

Lemma recloneUpdate_Ok repo repositoryObj newObj parent s s' pr :
  recloneUpdate repo repositoryObj newObj parent s = (s', Ok pr) →
  packageRevisionMeta pr = PackageRevisionMeta_zero
  ∧ ∃ cfg draft mutations recs s2 s3,
      taskMutations repositoryObj newObj cfg = Ok mutations
      ∧ executed draft {| Contents := ∅ |} mutations s2 s3 recs
      ∧ calls s' =
          calls s
          ++ [RepoCreatePackageRevision repo newObj]
          ++ (updateResourcesCall draft <$> recs)
          ++ [DraftUpdateLifecycle draft (Lifecycle newObj); DraftClose draft].
Proof.
  intros H. unfold recloneUpdate in H.
  apply bind_Ok in H as (s0 & cfg & Hcfg & H).
  apply bind_Ok in H as (s1 & rev & Hre & H).
  apply ret_run in H as [-> [= ->]]. split; [reflexivity |].
  apply recloneAndReplay_Ok in Hre
    as (draft & ms & recs & s2 & s3 & _ & Hms & Hex & Hcalls).
  pose proof (quiet_buildPackageConfig newObj parent s) as Hq.
  rewrite Hcfg in Hq. simpl in Hq. rewrite Hq in Hcalls.
  exists cfg, draft, ms, recs, s2, s3. done.
Qed.

(** The shape of every successful run of the append path. *)
Lemma appendUpdate_Ok repo repositoryObj oldPackage oldObj newObj s s' pr :
  appendUpdate repo repositoryObj oldPackage oldObj newObj s = (s', Ok pr) →
  let old := repoPackageRevision oldPackage in
  let m := metaOf (repoPackageRevision pr) newObj in
  packageRevisionMeta pr = m
  ∧ ∃ draft recs w,
      world s' = fst (meta_Update m w)
      ∧ calls s' =
          calls s
          ++ [RepoUpdatePackageRevision repo old]
          ++ (updateResourcesCall draft <$> recs)
          ++ [DraftUpdateLifecycle draft (Lifecycle newObj); DraftClose draft;
              MetaUpdate m].
Proof.
  intros H old m. unfold appendUpdate in H.
  apply bind_Ok in H as (? & ms & Hms & H). apply lift_run in Hms as [-> Hms].
  apply bind_Ok in H as (s1 & draft & Hup & H).
  apply call_run in Hup as [Hup Hc1].
  apply bind_Ok in H as (s2 & kf & Hkf & H).
  pose proof (quiet_createKptfilePatchTask (repoPackageRevision oldPackage)
                newObj s1) as Hq2.
  rewrite Hkf in Hq2. simpl in Hq2.
  apply bind_Ok in H as (s3 & ms' & Hms' & H).
  assert (calls s3 = calls s2) as Hc3.
  { destruct kf as [t|].
    - apply bind_Ok in Hms' as (? & ? & Hl & Hr).
      apply lift_run in Hl as [-> _]. now apply ret_run in Hr as [-> _].
    - now apply ret_run in Hms' as [-> _]. }
  apply bind_Ok in H as (s4 & [] & Hrun & H).
  assert (∃ recs, calls s4 = calls s3 ++ (updateResourcesCall draft <$> recs))
    as [recs Hc4].
  { destruct (Lifecycle oldObj =s PackageRevisionLifecycleDraft).
    - apply bind_Ok in Hrun as (sa & res & Hres & Hrun).
      apply wrap_Ok in Hres. apply ask_run in Hres as [_ Hca].
      apply applyResourceMutations_Ok in Hrun as [recs Hrun].
      apply executed_calls in Hrun as [Hrun _].
      exists recs. now rewrite Hrun, Hca.
    - apply ret_run in Hrun as [-> _]. exists []. simpl. now rewrite app_nil_r. }
  apply bind_Ok in H as (s5 & [] & Hlc & H).
  apply call_run in Hlc as [Hlc Hc5].
  apply bind_Ok in H as (s6 & rev & Hclose & H).
  apply call_run in Hclose as [Hclose Hc6].
  apply bind_Ok in H as (s7 & [] & Hmeta & H).
  apply ignore_call_run in Hmeta as (_ & Hw & Hc7).
  apply ret_run in H as [-> [= ->]]. subst m. simpl. split; [reflexivity |].
  exists draft, recs, (world s6). split; [exact Hw |].
  rewrite Hc7, Hc6, Hc5, Hc4, Hc3, Hq2, Hc1, <- !app_assoc. done.
Qed.

(** After the lifecycle switches, [UpdatePackageRevision] is one of its two
    strategies. *)
Lemma UpdatePackageRevision_gate repositoryObj oldPackage oldObj newObj parent
    s s1 repo :
  call (OpenRepository repositoryObj) (cache_OpenRepository repositoryObj) s
  = (s1, Ok repo) →
  Lifecycle oldObj ∈ [PackageRevisionLifecycleDraft;
                      PackageRevisionLifecycleProposed] →
  validDesiredLifecycle (Lifecycle newObj) = true →
  UpdatePackageRevision repositoryObj oldPackage oldObj newObj parent s
  = if isRecloneAndReplay oldObj newObj
    then recloneUpdate repo repositoryObj newObj parent s1
    else appendUpdate repo repositoryObj oldPackage oldObj newObj s1.
Proof.
  intros Hopen Hold Hnew. unfold UpdatePackageRevision.
  rewrite (bind_run _ _ _ _ _ Hopen), Hnew.
  assert ((Lifecycle oldObj =s PackageRevisionLifecycleDraft)
          || (Lifecycle oldObj =s PackageRevisionLifecycleProposed) = true) as ->.
  { rewrite !elem_of_cons in Hold. apply orb_true_iff.
    destruct Hold as [-> | [-> | Hnil]]; [now left | now right |].
    now apply elem_of_nil in Hnil. }
  now destruct (isRecloneAndReplay oldObj newObj).
Qed.

End Update.

Section UpdateClaims.

Context `{C : Collaborators}.

Lemma newCalls_inj s s' new new' :
  newCalls s s' new → newCalls s s' new' → new = new'.
Proof. unfold newCalls. intros -> H. now apply app_inv_head in H. Qed.

Lemma updatePublished_run oldPackage newObj s :
  let m := metaOf (repoPackageRevision oldPackage) newObj in
  updatePublished oldPackage newObj s
  = ({| world := fst (meta_Update m (world s));
        calls := calls s ++ [MetaUpdate m] |},
     Ok {| repoPackageRevision := repoPackageRevision oldPackage;
           packageRevisionMeta := m |}).
Proof.
  intros m. unfold updatePublished, bind, ignore, call. fold m.
  now destruct (meta_Update m (world s)).
Qed.

(** C1 — Published revisions take metadata only.  For every
    [UpdatePackageRevision] whose old lifecycle is Published: the only calls
    made are the opening of the repository and, when that succeeds, one
    [Update] on the metadata store with the name and namespace of the old
    revision and the labels and annotations of the new object.  No call
    reaches the repository driver or a draft, so no draft is opened and the
    files and tasks of the stored revision are left as they were; the
    revision returned carries the old repository revision handle. *)
Theorem published_update_only_metadata repositoryObj oldPackage oldObj newObj
    parent s s' r :
  Lifecycle oldObj = PackageRevisionLifecyclePublished →
  UpdatePackageRevision repositoryObj oldPackage oldObj newObj parent s = (s', r) →
  let old := repoPackageRevision oldPackage in
  let m := metaOf old newObj in
  (meta_Name m = KubeObjectName old
   ∧ meta_Namespace m = KubeObjectNamespace old
   ∧ meta_Labels m = Labels newObj
   ∧ meta_Annotations m = Annotations newObj)
  ∧ ∃ new,
      newCalls s s' new
      ∧ Forall (fun c => touchesRepository c = false ∧ opensDraft c = false) new
      ∧ ((∃ e, r = Err e
               ∧ cache_OpenRepository repositoryObj (world s) = (world s', Err e)
               ∧ new = [OpenRepository repositoryObj])
         ∨ (∃ repo w1,
               cache_OpenRepository repositoryObj (world s) = (w1, Ok repo)
               ∧ r = Ok {| repoPackageRevision := old; packageRevisionMeta := m |}
               ∧ new = [OpenRepository repositoryObj; MetaUpdate m]
               ∧ world s' = fst (meta_Update m w1))).
Proof.
  intros HL H old m. split; [done |].
  unfold UpdatePackageRevision in H.
  destruct (call (OpenRepository repositoryObj)
              (cache_OpenRepository repositoryObj) s)
    as [s1 [repo|e]] eqn:Hopen.
  - rewrite (bind_run _ _ _ _ _ Hopen) in H.
    apply call_run in Hopen as [Hopen Hc1].
    rewrite HL in H.
    change (updatePublished oldPackage newObj s1 = (s', r)) in H.
    rewrite updatePublished_run in H. injection H as <- <-.
    exists [OpenRepository repositoryObj; MetaUpdate m].
    split; [unfold newCalls; simpl; now rewrite Hc1, <- app_assoc |].
    split; [repeat constructor |].
    right. exists repo, (world s1). done.
  - rewrite (bind_fail _ _ _ _ _ Hopen) in H. injection H as <- <-.
    apply call_run in Hopen as [Hopen Hc1].
    exists [OpenRepository repositoryObj].
    split; [exact Hc1 |]. split; [repeat constructor |].
    left. exists e. done.
Qed.

(** What a successful update of a Draft or Proposed revision went through. *)
Lemma UpdatePackageRevision_Ok_gate repositoryObj oldPackage oldObj newObj
    parent s s' pr :
  Lifecycle oldObj ∈ [PackageRevisionLifecycleDraft;
                      PackageRevisionLifecycleProposed] →
  UpdatePackageRevision repositoryObj oldPackage oldObj newObj parent s
  = (s', Ok pr) →
  ∃ s1 repo,
    call (OpenRepository repositoryObj) (cache_OpenRepository repositoryObj) s
    = (s1, Ok repo)
    ∧ validDesiredLifecycle (Lifecycle newObj) = true.
Proof.
  intros Hold H. pose proof H as H0. unfold UpdatePackageRevision in H.
  apply bind_Ok in H as (s1 & repo & Hopen & H).
  exists s1, repo. split; [done |].
  assert ((Lifecycle oldObj =s PackageRevisionLifecycleDraft)
          || (Lifecycle oldObj =s PackageRevisionLifecycleProposed) = true) as E.
  { rewrite !elem_of_cons in Hold. apply orb_true_iff.
    destruct Hold as [-> | [-> | Hnil]]; [now left | now right |].
    now apply elem_of_nil in Hnil. }
  rewrite E in H.
  destruct (validDesiredLifecycle (Lifecycle newObj)); [done | discriminate].
Qed.

(** C2 (amended) — Reclone trigger, behind the lifecycle gate.  Once the
    repository is open, the old lifecycle is Draft or Proposed and the new
    lifecycle is one of Draft, Proposed and Published,
    [UpdatePackageRevision] takes the reclone-and-replay branch if and only
    if both task lists are non-empty, both begin with a Clone task and these
    two tasks differ.  On that branch a successful call obtained its draft
    from the repository's [CreatePackageRevision] for the new object and
    executed on it the mutations of the new task list, one per task in
    order, followed only by the Render policy; on the other branch the draft
    comes from the repository's [UpdatePackageRevision].  So for such calls a
    fresh draft is created exactly when the condition holds. *)
Theorem reclone_iff_condition_behind_gate repositoryObj oldPackage oldObj newObj
    parent s s1 repo :
  call (OpenRepository repositoryObj) (cache_OpenRepository repositoryObj) s
  = (s1, Ok repo) →
  Lifecycle oldObj ∈ [PackageRevisionLifecycleDraft;
                      PackageRevisionLifecycleProposed] →
  validDesiredLifecycle (Lifecycle newObj) = true →
  (recloneCondition oldObj newObj →
   UpdatePackageRevision repositoryObj oldPackage oldObj newObj parent s
   = recloneUpdate repo repositoryObj newObj parent s1
   ∧ ∀ s' pr,
       UpdatePackageRevision repositoryObj oldPackage oldObj newObj parent s
       = (s', Ok pr) →
       ∃ cfg draft ms recs s2 s3,
         Forall2 (fun t m => mapTaskToMutation newObj t
                               (repo_Deployment repositoryObj) cfg = Ok m)
           (Tasks newObj) ms
         ∧ executed draft {| Contents := ∅ |} (conditionalAddRender ms) s2 s3 recs
         ∧ newCalls s s'
             ([OpenRepository repositoryObj;
               RepoCreatePackageRevision repo newObj]
              ++ (updateResourcesCall draft <$> recs)
              ++ [DraftUpdateLifecycle draft (Lifecycle newObj);
                  DraftClose draft]))
  ∧ (¬ recloneCondition oldObj newObj →
     UpdatePackageRevision repositoryObj oldPackage oldObj newObj parent s
     = appendUpdate repo repositoryObj oldPackage oldObj newObj s1
     ∧ ∀ s' pr,
         UpdatePackageRevision repositoryObj oldPackage oldObj newObj parent s
         = (s', Ok pr) →
         ∃ draft recs,
           newCalls s s'
             ([OpenRepository repositoryObj;
               RepoUpdatePackageRevision repo (repoPackageRevision oldPackage)]
              ++ (updateResourcesCall draft <$> recs)
              ++ [DraftUpdateLifecycle draft (Lifecycle newObj);
                  DraftClose draft;
                  MetaUpdate (metaOf (repoPackageRevision pr) newObj)]))
  ∧ recloneIffCondition repositoryObj oldPackage oldObj newObj parent s.
Proof.
  intros Hopen Hold Hnew.
  pose proof (UpdatePackageRevision_gate _ oldPackage _ _ parent _ _ _
                Hopen Hold Hnew) as Hgate.
  pose proof Hopen as Hopen'. apply call_run in Hopen' as [_ Hc1].
  assert (recloneCondition oldObj newObj →
          ∀ s' pr,
            UpdatePackageRevision repositoryObj oldPackage oldObj newObj parent s
            = (s', Ok pr) →
            ∃ cfg draft ms recs s2 s3,
              Forall2 (fun t m => mapTaskToMutation newObj t
                                    (repo_Deployment repositoryObj) cfg = Ok m)
                (Tasks newObj) ms
              ∧ executed draft {| Contents := ∅ |} (conditionalAddRender ms)
                  s2 s3 recs
              ∧ newCalls s s'
                  ([OpenRepository repositoryObj;
                    RepoCreatePackageRevision repo newObj]
                   ++ (updateResourcesCall draft <$> recs)
                   ++ [DraftUpdateLifecycle draft (Lifecycle newObj);
                       DraftClose draft])) as Hre.
  { intros Hcond s' pr H. rewrite Hgate in H.
    rewrite (proj2 (isRecloneAndReplay_true _ _) Hcond) in H.
    apply recloneUpdate_Ok in H
      as (_ & cfg & draft & mutations & recs & s2 & s3 & Hms & Hex & Hcalls).
    apply taskMutations_Ok in Hms as (ms & HF & ->).
    rewrite (recloneCondition_no_init _ _ Hcond) in Hex. simpl in Hex.
    exists cfg, draft, ms, recs, s2, s3. repeat split; try done.
    unfold newCalls. rewrite Hcalls, Hc1, <- !app_assoc. done. }
  assert (¬ recloneCondition oldObj newObj →
          ∀ s' pr,
            UpdatePackageRevision repositoryObj oldPackage oldObj newObj parent s
            = (s', Ok pr) →
            ∃ draft recs,
              newCalls s s'
                ([OpenRepository repositoryObj;
                  RepoUpdatePackageRevision repo (repoPackageRevision oldPackage)]
                 ++ (updateResourcesCall draft <$> recs)
                 ++ [DraftUpdateLifecycle draft (Lifecycle newObj);
                     DraftClose draft;
                     MetaUpdate (metaOf (repoPackageRevision pr) newObj)])) as Hap.
  { intros Hcond s' pr H. rewrite Hgate in H.
    destruct (isRecloneAndReplay oldObj newObj) eqn:E;
      [now apply isRecloneAndReplay_true in E |].
    apply appendUpdate_Ok in H as (_ & draft & recs & w & _ & Hcalls).
    exists draft, recs. unfold newCalls.
    rewrite Hcalls, Hc1, <- !app_assoc. done. }
  split; [| split].
  - intros Hcond. split; [| now apply Hre].
    rewrite Hgate. now rewrite (proj2 (isRecloneAndReplay_true _ _) Hcond).
  - intros Hcond. split; [| now apply Hap].
    rewrite Hgate.
    destruct (isRecloneAndReplay oldObj newObj) eqn:E;
      [now apply isRecloneAndReplay_true in E | done].
  - intros s' pr new H Hnew'. split.
    + intros Hcond.
      destruct (Hre Hcond _ _ H) as (cfg & draft & ms & recs & s2 & s3 & _ & _ & Hc).
      rewrite (newCalls_inj _ _ _ _ Hnew' Hc).
      exists repo. simpl. apply elem_of_cons. right. apply elem_of_cons. now left.
    + intros [repo' Hin].
      destruct (isRecloneAndReplay oldObj newObj) eqn:E;
        [now apply isRecloneAndReplay_true in E |].
      assert (¬ recloneCondition oldObj newObj) as Hcond
        by (intros Hc; apply isRecloneAndReplay_true in Hc; congruence).
      destruct (Hap Hcond _ _ H) as (draft & recs & Hc).
      rewrite (newCalls_inj _ _ _ _ Hnew' Hc) in Hin. exfalso.
      simpl in Hin. rewrite !elem_of_cons, elem_of_app, !elem_of_cons in Hin.
      destruct Hin as [? | [? | [Hin | [? | [? | [? | Hin]]]]]]; try discriminate.
      * apply list_elem_of_fmap in Hin as (rec & Hrec & _). discriminate.
      * now apply elem_of_nil in Hin.
Qed.

End UpdateClaims.

Section AppendPath.

Context `{C : Collaborators}.

Lemma sameTaskTypes_false (oldTasks : list Task) : ∀ newTasks : list Task,
  (length oldTasks ≤ length newTasks)%nat →
  sameTaskTypes oldTasks newTasks = false ↔ typeMismatch oldTasks newTasks.
Proof.
  induction oldTasks as [|o oldRest IH]; intros [|n newRest] Hlen;
    simpl in *; try lia.
  - split; [discriminate | intros (i & ? & ? & H & _); discriminate].
  - split; [discriminate | intros (i & ? & ? & H & _); discriminate].
  - rewrite andb_false_iff, eqb_false, IH by lia. split.
    + intros [Hne | (i & o' & n' & Ho & Hn & Hne)].
      * exists 0, o, n. done.
      * exists (S i), o', n'. done.
    + intros ([|i] & o' & n' & Ho & Hn & Hne); simpl in *.
      * left. congruence.
      * right. exists i, o', n'. done.
Qed.

Lemma appendUpdate_rejected repo repositoryObj oldPackage oldObj newObj s e :
  appendedTaskMutations repositoryObj oldObj newObj = Err e →
  appendUpdate repo repositoryObj oldPackage oldObj newObj s = (s, Err e).
Proof.
  intros H. unfold appendUpdate.
  apply (bind_fail _ _ s s e). unfold lift. now rewrite H.
Qed.

(** C3 — Append-only tasks.  On the append path of
    [UpdatePackageRevision] (repository open, old lifecycle Draft or
    Proposed, new lifecycle accepted, not a reclone): a new task list
    shorter than the old one is refused with "removing tasks is not yet
    supported"; a type mismatch at a shared index is refused with that error
    or with "changing task types is not yet supported"; a new list longer by
    more than one task is refused with the latter or with "can only append
    one task at a time"; and when exactly one task is appended, the call
    fails unless that task has type Update and carries an Update payload
    (with the "appended task is type ..." or "update not set ..." error when
    the types at the shared indices agree).  Each refusal happens right
    after the repository was opened: no draft is opened and nothing else is
    called. *)
Theorem append_path_refusals repositoryObj oldPackage oldObj newObj parent
    s s1 repo :
  call (OpenRepository repositoryObj) (cache_OpenRepository repositoryObj) s
  = (s1, Ok repo) →
  Lifecycle oldObj ∈ [PackageRevisionLifecycleDraft;
                      PackageRevisionLifecycleProposed] →
  validDesiredLifecycle (Lifecycle newObj) = true →
  isRecloneAndReplay oldObj newObj = false →
  let oldTasks := Tasks oldObj in
  let newTasks := Tasks newObj in
  let fails e :=
    UpdatePackageRevision repositoryObj oldPackage oldObj newObj parent s
    = (s1, Err e) in
  newCalls s s1 [OpenRepository repositoryObj]
  ∧ ((length newTasks < length oldTasks)%nat → fails ErrRemovingTasks)
  ∧ (typeMismatch oldTasks newTasks →
     fails ErrRemovingTasks ∨ fails ErrChangingTaskTypes)
  ∧ ((length oldTasks ≤ length newTasks)%nat → typeMismatch oldTasks newTasks →
     fails ErrChangingTaskTypes)
  ∧ ((length oldTasks + 1 < length newTasks)%nat →
     fails ErrChangingTaskTypes ∨ fails ErrAppendOneTask)
  ∧ ((length oldTasks + 1 < length newTasks)%nat →
     ¬ typeMismatch oldTasks newTasks →
     fails ErrAppendOneTask)
  ∧ (length newTasks = (length oldTasks + 1)%nat →
     ∀ newTask, last newTasks = Some newTask →
     Type_ newTask ≠ TaskTypeUpdate ∨ Update newTask = None →
     ∃ e, fails e
          ∧ (¬ typeMismatch oldTasks newTasks →
             e = if Type_ newTask =s TaskTypeUpdate
                 then ErrUpdateTaskNotSet (Type_ newTask)
                 else ErrAppendedTaskType (Type_ newTask))).
Proof.
  intros Hopen Hold Hnew Hre oldTasks newTasks fails.
  assert (∀ e, appendedTaskMutations repositoryObj oldObj newObj = Err e →
               fails e) as Hfail.
  { intros e He. unfold fails.
    rewrite (UpdatePackageRevision_gate _ oldPackage _ _ parent _ _ _
               Hopen Hold Hnew), Hre.
    now apply appendUpdate_rejected. }
  assert (∀ P : Prop, (length oldTasks ≤ length newTasks)%nat →
            ¬ typeMismatch oldTasks newTasks →
            sameTaskTypes oldTasks newTasks = true) as Hsame.
  { intros _ Hlen Hmis.
    destruct (sameTaskTypes oldTasks newTasks) eqn:E; [done |].
    now apply sameTaskTypes_false in E. }
  split; [now apply call_run in Hopen as [_ ?] |].
  unfold appendedTaskMutations in Hfail. cbv zeta in Hfail.
  fold oldTasks newTasks in Hfail. clearbody oldTasks newTasks.
  split; [| split; [| split; [| split; [| split]]]].
  - intros Hlen. apply Hfail.
    now rewrite (proj2 (Nat.ltb_lt _ _) Hlen).
  - intros Hmis.
    destruct (Nat.lt_ge_cases (length newTasks) (length oldTasks)) as [Hlt | Hge].
    + left. apply Hfail. now rewrite (proj2 (Nat.ltb_lt _ _) Hlt).
    + right. apply Hfail. rewrite (proj2 (Nat.ltb_ge _ _) Hge).
      now rewrite (proj2 (sameTaskTypes_false _ _ Hge) Hmis).
  - intros Hlen Hmis. apply Hfail.
    rewrite (proj2 (Nat.ltb_ge _ _) Hlen).
    now rewrite (proj2 (sameTaskTypes_false _ _ Hlen) Hmis).
  - intros Hlen.
    assert (Nat.ltb (length newTasks) (length oldTasks) = false) as E1
      by (apply Nat.ltb_ge; lia).
    assert (sameTaskTypes oldTasks newTasks = true
            ∨ sameTaskTypes oldTasks newTasks = false) as [E | E]
      by (destruct (sameTaskTypes oldTasks newTasks); auto).
    + right. apply Hfail. rewrite E1, E. simpl.
      rewrite (proj2 (Nat.ltb_lt (length oldTasks) (length newTasks)))
        by lia.
      now rewrite (proj2 (Nat.ltb_lt _ _) Hlen).
    + left. apply Hfail. now rewrite E1, E.
  - intros Hlen Hmis. apply Hfail.
    rewrite (proj2 (Nat.ltb_ge (length newTasks) (length oldTasks))) by lia.
    rewrite (Hsame True) by (done || lia). simpl.
    rewrite (proj2 (Nat.ltb_lt (length oldTasks) (length newTasks))) by lia.
    now rewrite (proj2 (Nat.ltb_lt _ _) Hlen).
  - intros Hlen newTask Hlast Hbad.
    assert (Nat.ltb (length newTasks) (length oldTasks) = false) as E1
      by (apply Nat.ltb_ge; lia).
    assert (sameTaskTypes oldTasks newTasks = true
            ∨ sameTaskTypes oldTasks newTasks = false) as [E | E]
      by (destruct (sameTaskTypes oldTasks newTasks); auto).
    + eexists. split.
      * apply Hfail. rewrite E1, E. simpl.
        rewrite (proj2 (Nat.ltb_lt (length oldTasks) (length newTasks))) by lia.
        rewrite (proj2 (Nat.ltb_ge (length oldTasks + 1) (length newTasks)))
          by lia.
        rewrite Hlast.
        instantiate (1 := if Type_ newTask =s TaskTypeUpdate
                          then ErrUpdateTaskNotSet (Type_ newTask)
                          else ErrAppendedTaskType (Type_ newTask)).
        destruct (Type_ newTask =s TaskTypeUpdate) eqn:Et; simpl; [| done].
        destruct Hbad as [Hbad | ->]; [| done].
        now apply eqb_true in Et.
      * done.
    + exists ErrChangingTaskTypes. split.
      * apply Hfail. now rewrite E1, E.
      * intros Hmis. exfalso. apply Hmis.
        apply sameTaskTypes_false; [lia | done].
Qed.

End AppendPath.

Section Metadata.

Context `{C : Collaborators}.

(** C10 — the metadata record on the reclone branch.  A successful
    [UpdatePackageRevision] that takes the reclone-and-replay branch makes
    no call to the metadata store, and the revision it returns carries the
    zero metadata record, whatever labels and annotations the new object
    has. *)
Theorem reclone_leaves_metadata_store_alone repositoryObj oldPackage oldObj
    newObj parent s s' pr :
  Lifecycle oldObj ∈ [PackageRevisionLifecycleDraft;
                      PackageRevisionLifecycleProposed] →
  recloneCondition oldObj newObj →
  UpdatePackageRevision repositoryObj oldPackage oldObj newObj parent s
  = (s', Ok pr) →
  packageRevisionMeta pr = PackageRevisionMeta_zero
  ∧ ∃ new, newCalls s s' new
           ∧ Forall (fun c => touchesMetadata c = false) new.
Proof.
  intros Hold Hcond H.
  destruct (UpdatePackageRevision_Ok_gate _ _ _ _ _ _ _ _ Hold H)
    as (s1 & repo & Hopen & Hnew).
  rewrite (UpdatePackageRevision_gate _ oldPackage _ _ parent _ _ _
             Hopen Hold Hnew) in H.
  rewrite (proj2 (isRecloneAndReplay_true _ _) Hcond) in H.
  apply call_run in Hopen as [_ Hc1].
  apply recloneUpdate_Ok in H
    as (Hmeta & cfg & draft & ms & recs & s2 & s3 & _ & _ & Hcalls).
  split; [exact Hmeta |].
  eexists. split.
  - unfold newCalls. rewrite Hcalls, Hc1, <- !app_assoc. reflexivity.
  - simpl. repeat (apply Forall_cons; split; [reflexivity |]).
    apply Forall_app. split.
    + apply Forall_fmap, Forall_forall. now intros [? ?] _.
    + repeat constructor.
Qed.

(** The append path, by contrast, ends with an [Update] on the metadata
    store and returns the record it sent. *)
Lemma append_updates_metadata repositoryObj oldPackage oldObj newObj parent
    s s' pr :
  Lifecycle oldObj ∈ [PackageRevisionLifecycleDraft;
                      PackageRevisionLifecycleProposed] →
  ¬ recloneCondition oldObj newObj →
  UpdatePackageRevision repositoryObj oldPackage oldObj newObj parent s
  = (s', Ok pr) →
  packageRevisionMeta pr = metaOf (repoPackageRevision pr) newObj
  ∧ last (calls s') = Some (MetaUpdate (metaOf (repoPackageRevision pr) newObj)).
Proof.
  intros Hold Hcond H.
  destruct (UpdatePackageRevision_Ok_gate _ _ _ _ _ _ _ _ Hold H)
    as (s1 & repo & Hopen & Hnew).
  rewrite (UpdatePackageRevision_gate _ oldPackage _ _ parent _ _ _
             Hopen Hold Hnew) in H.
  destruct (isRecloneAndReplay oldObj newObj) eqn:E;
    [now apply isRecloneAndReplay_true in E |].
  apply appendUpdate_Ok in H as (Hmeta & draft & recs & w & _ & Hcalls).
  split; [exact Hmeta |].
  rewrite Hcalls.
  change [DraftUpdateLifecycle draft (Lifecycle newObj); DraftClose draft;
          MetaUpdate (metaOf (repoPackageRevision pr) newObj)]
    with ([DraftUpdateLifecycle draft (Lifecycle newObj); DraftClose draft]
          ++ [MetaUpdate (metaOf (repoPackageRevision pr) newObj)]).
  rewrite !app_assoc. apply last_snoc.
Qed.

(** [UpdatePackageResources] does not touch the metadata store either, and
    returns the zero record. *)
Lemma UpdatePackageResources_Ok repositoryObj oldPackage old new s s' pr :
  UpdatePackageResources repositoryObj oldPackage old new s = (s', Ok pr) →
  packageRevisionMeta pr = PackageRevisionMeta_zero
  ∧ ∃ repo draft recs,
      newCalls s s'
        ([OpenRepository repositoryObj;
          RepoUpdatePackageRevision repo (repoPackageRevision oldPackage)]
         ++ (updateResourcesCall draft <$> recs)
         ++ [DraftClose draft]).
Proof.
  intros H. unfold UpdatePackageResources in H.
  apply bind_Ok in H as (s0 & rev & Hrev & H).
  apply ask_run in Hrev as [_ Hc0].
  destruct (Lifecycle rev =s PackageRevisionLifecycleDraft).
  - apply bind_Ok in H as (s1 & repo & Hopen & H).
    apply call_run in Hopen as [_ Hc1].
    apply bind_Ok in H as (s2 & draft & Hup & H).
    apply call_run in Hup as [_ Hc2].
    apply bind_Ok in H as (s3 & res & Hres & H).
    apply wrap_Ok, ask_run in Hres as [_ Hc3].
    apply bind_Ok in H as (s4 & [] & Hrun & H).
    apply applyResourceMutations_Ok in Hrun as [recs Hrun].
    apply executed_calls in Hrun as [Hc4 _].
    apply bind_Ok in H as (s5 & rev' & Hclose & H).
    apply call_run in Hclose as [_ Hc5].
    apply ret_run in H as [-> [= ->]]. split; [reflexivity |].
    exists repo, draft, recs. unfold newCalls.
    rewrite Hc5, Hc4, Hc3, Hc2, Hc1, Hc0, <- !app_assoc. done.
  - destruct (_ || _); discriminate.
Qed.

(** [DeletePackageRevision] deletes the revision from the repository and
    then its record from the metadata store. *)
Lemma DeletePackageRevision_Ok repositoryObj oldPackage s s' :
  DeletePackageRevision repositoryObj oldPackage s = (s', Ok tt) →
  ∃ repo,
    newCalls s s'
      [OpenRepository repositoryObj;
       RepoDeletePackageRevision repo (repoPackageRevision oldPackage);
       MetaDelete (KubeObjectName (repoPackageRevision oldPackage))
         (KubeObjectNamespace (repoPackageRevision oldPackage))].
Proof.
  intros H. unfold DeletePackageRevision in H.
  apply bind_Ok in H as (s1 & repo & Hopen & H).
  apply call_run in Hopen as [_ Hc1].
  apply bind_Ok in H as (s2 & [] & Hdel & H).
  apply call_run in Hdel as [_ Hc2].
  apply bind_Ok in H as (s3 & m & Hmeta & H).
  apply call_run in Hmeta as [_ Hc3].
  apply ret_run in H as [-> _].
  exists repo. unfold newCalls. rewrite Hc3, Hc2, Hc1, <- !app_assoc. done.
Qed.

End Metadata.

(** *** Examples of updates on the in-memory collaborators *)

Lemma published_update_only_metadata_witness :
  ∃ s' pr,
    UpdatePackageRevision Fake.repository
      (Fake.exposed (Scenarios.fromV1 "Published") Scenarios.files)
      (Scenarios.fromV1 "Published") (Scenarios.toV2 "Published") None
      Fake.start = (s', Ok pr)
    ∧ repoPackageRevision pr
      = Fake.stored (Scenarios.fromV1 "Published") Scenarios.files
    ∧ meta_Labels (packageRevisionMeta pr) = {[ "team" := "net" ]}
    ∧ Forall (fun c => touchesRepository c = false) (calls s').
Proof.
  pose proof (eq_refl : UpdatePackageRevision Fake.repository
                          (Fake.exposed (Scenarios.fromV1 "Published")
                             Scenarios.files)
                          (Scenarios.fromV1 "Published")
                          (Scenarios.toV2 "Published") None Fake.start
                        = Scenarios.updatePublished) as E.
  unfold Scenarios.updatePublished in E.
  eexists _, _. split; [exact E |].
  destruct (published_update_only_metadata Fake.repository
              (Fake.exposed (Scenarios.fromV1 "Published") Scenarios.files)
              (Scenarios.fromV1 "Published") (Scenarios.toV2 "Published")
              None Fake.start _ _ eq_refl E)
    as (_ & new & Hnew & Hquiet & _).
  split; [reflexivity |]. split; [reflexivity |].
  unfold newCalls in Hnew. simpl in Hnew. rewrite Hnew.
  eapply Forall_impl; [exact Hquiet |]. now intros c [? _].
Defined.

(** An update of a Published revision whose Clone task changed succeeds
    without asking the repository for a fresh draft. *)
Lemma published_update_is_no_reclone :
  ¬ recloneIffCondition Fake.repository
      (Fake.exposed (Scenarios.fromV1 "Published") Scenarios.files)
      (Scenarios.fromV1 "Published") (Scenarios.toV2 "Published") None
      Fake.start.
Proof.
  intros H.
  pose proof (eq_refl : UpdatePackageRevision Fake.repository
                          (Fake.exposed (Scenarios.fromV1 "Published")
                             Scenarios.files)
                          (Scenarios.fromV1 "Published")
                          (Scenarios.toV2 "Published") None Fake.start
                        = Scenarios.updatePublished) as E.
  unfold Scenarios.updatePublished in E.
  specialize (H _ _
                [OpenRepository Fake.repository;
                 MetaUpdate (metaOf (Fake.stored (Scenarios.fromV1 "Published")
                                       Scenarios.files)
                               (Scenarios.toV2 "Published"))]
                E eq_refl) as [H _].
  destruct H as [repo Hin].
  - exists (Fake.cloneTask "base-v1"), [], (Fake.cloneTask "base-v2"), [].
    repeat split; discriminate.
  - rewrite !elem_of_cons in Hin.
    destruct Hin as [? | [? | Hin]]; try discriminate.
    now apply elem_of_nil in Hin.
Qed.

Lemma reclone_iff_condition_behind_gate_witness :
  ∃ s' pr,
    UpdatePackageRevision Fake.repository
      (Fake.exposed (Scenarios.fromV1 "Draft") Scenarios.files)
      (Scenarios.fromV1 "Draft") (Scenarios.toV2 "Draft") None Fake.start
    = (s', Ok pr)
    ∧ recloneCondition (Scenarios.fromV1 "Draft") (Scenarios.toV2 "Draft")
    ∧ ∃ repo, RepoCreatePackageRevision repo (Scenarios.toV2 "Draft") ∈ calls s'.
Proof.
  pose proof (eq_refl : UpdatePackageRevision Fake.repository
                          (Fake.exposed (Scenarios.fromV1 "Draft") Scenarios.files)
                          (Scenarios.fromV1 "Draft") (Scenarios.toV2 "Draft")
                          None Fake.start
                        = Scenarios.updateReclone) as E.
  unfold Scenarios.updateReclone in E.
  assert (recloneCondition (Scenarios.fromV1 "Draft") (Scenarios.toV2 "Draft"))
    as Hcond.
  { exists (Fake.cloneTask "base-v1"), [], (Fake.cloneTask "base-v2"), [].
    repeat split; discriminate. }
  eexists _, _. split; [exact E |]. split; [exact Hcond |].
  assert (call (OpenRepository Fake.repository)
            (cache_OpenRepository Fake.repository) Fake.start
          = (Scenarios.opened, Ok "blueprints")) as Hopen by reflexivity.
  assert (Lifecycle (Scenarios.fromV1 "Draft")
          ∈ [PackageRevisionLifecycleDraft; PackageRevisionLifecycleProposed])
    as Hold by (apply elem_of_cons; now left).
  destruct (reclone_iff_condition_behind_gate Fake.repository
              (Fake.exposed (Scenarios.fromV1 "Draft") Scenarios.files)
              _ (Scenarios.toV2 "Draft") None _ _ _ Hopen Hold eq_refl)
    as (_ & _ & Hiff).
  exact (proj1 (Hiff _ _ _ E eq_refl) Hcond).
Defined.

Lemma append_path_refusals_witness :
  UpdatePackageRevision Fake.repository
    (Fake.exposed Scenarios.twoTasks Scenarios.files)
    Scenarios.twoTasks (Scenarios.fromV1 "Draft") None Fake.start
  = (Scenarios.opened, Err ErrRemovingTasks).
Proof.
  assert (call (OpenRepository Fake.repository)
            (cache_OpenRepository Fake.repository) Fake.start
          = (Scenarios.opened, Ok "blueprints")) as Hopen by reflexivity.
  assert (Lifecycle Scenarios.twoTasks
          ∈ [PackageRevisionLifecycleDraft; PackageRevisionLifecycleProposed])
    as Hold by (apply elem_of_cons; now left).
  apply (proj1 (proj2 (append_path_refusals Fake.repository
                         (Fake.exposed Scenarios.twoTasks Scenarios.files)
                         Scenarios.twoTasks (Scenarios.fromV1 "Draft") None
                         _ _ _ Hopen Hold eq_refl eq_refl))).
  simpl. lia.
Defined.

Lemma reclone_leaves_metadata_store_alone_witness :
  ∃ s' pr,
    UpdatePackageRevision Fake.repository
      (Fake.exposed (Scenarios.fromV1 "Draft") Scenarios.files)
      (Scenarios.fromV1 "Draft") (Scenarios.toV2 "Draft") None Fake.start
    = (s', Ok pr)
    ∧ Labels (Scenarios.toV2 "Draft") = {[ "team" := "net" ]}
    ∧ packageRevisionMeta pr = PackageRevisionMeta_zero
    ∧ Forall (fun c => touchesMetadata c = false) (calls s').
Proof.
  pose proof (eq_refl : UpdatePackageRevision Fake.repository
                          (Fake.exposed (Scenarios.fromV1 "Draft") Scenarios.files)
                          (Scenarios.fromV1 "Draft") (Scenarios.toV2 "Draft")
                          None Fake.start
                        = Scenarios.updateReclone) as E.
  unfold Scenarios.updateReclone in E.
  assert (recloneCondition (Scenarios.fromV1 "Draft") (Scenarios.toV2 "Draft"))
    as Hcond.
  { exists (Fake.cloneTask "base-v1"), [], (Fake.cloneTask "base-v2"), [].
    repeat split; discriminate. }
  assert (Lifecycle (Scenarios.fromV1 "Draft")
          ∈ [PackageRevisionLifecycleDraft; PackageRevisionLifecycleProposed])
    as Hold by (apply elem_of_cons; now left).
  eexists _, _. split; [exact E |]. split; [reflexivity |].
  destruct (reclone_leaves_metadata_store_alone Fake.repository
              (Fake.exposed (Scenarios.fromV1 "Draft") Scenarios.files)
              _ _ None _ _ _ Hold Hcond E) as (Hzero & new & Hnew & Hquiet).
  split; [exact Hzero |].
  unfold newCalls in Hnew. simpl in Hnew. rewrite Hnew. exact Hquiet.
Defined.

(** ** The context extractor *)

Section ContextExtractor.

Context `{C : Collaborators}.

Lemma collectDocuments_flat itemPath docs : ∀ matches,
  collectDocuments itemPath docs matches
  = collectFlat ((fun d => (itemPath, d))
                   <$> filter (fun d => isWhitespace d = false) docs) matches.
Proof.
  induction docs as [|d rest IH]; intros matches; [done |].
  simpl. rewrite filter_cons.
  destruct (isWhitespace d) eqn:E.
  - rewrite decide_False by discriminate. apply IH.
  - rewrite decide_True by done. simpl.
    destruct (yaml_Unmarshal d) as [o|e]; [| done].
    destruct (isContextConfigMap o); apply IH.
Qed.

Lemma collectFlat_app docs1 docs2 : ∀ matches,
  collectFlat (docs1 ++ docs2) matches
  = match collectFlat docs1 matches with
    | Err e => Err e
    | Ok matches' => collectFlat docs2 matches'
    end.
Proof.
  induction docs1 as [|d rest IH]; intros matches; [done |].
  simpl. destruct (yaml_Unmarshal (snd d)) as [o|e]; [apply IH | done].
Qed.

Lemma collectFiles_flat items : ∀ matches,
  collectFiles items matches
  = collectFlat
      (flat_map (fun item =>
                   if isYamlPath (fst item)
                   then (fun d => (fst item, d)) <$> documentsOf (snd item)
                   else []) items) matches.
Proof.
  induction items as [|[p c] rest IH]; intros matches; [done |].
  simpl. destruct (isYamlPath p).
  - rewrite collectFlat_app, collectDocuments_flat. unfold documentsOf.
    destruct (collectFlat _ matches); [apply IH | done].
  - apply IH.
Qed.

Lemma collectFlat_parsed docs : ∀ matches,
  Forall parses docs →
  collectFlat docs matches = Ok (matches ++ omap contextObjectOf docs).
Proof.
  induction docs as [|d rest IH]; intros matches H.
  - simpl. now rewrite app_nil_r.
  - inversion H as [|? ? Hd Hrest]; subst. simpl.
    unfold parses in Hd. unfold contextObjectOf at 1.
    destruct (yaml_Unmarshal (snd d)) as [o|e]; [| discriminate].
    rewrite IH by done.
    destruct (isContextConfigMap o); [| done].
    now rewrite <- app_assoc.
Qed.

Lemma collectFlat_unparsed docs : ∀ matches,
  ¬ Forall parses docs →
  ∃ doc cause,
    doc ∈ docs ∧ yaml_Unmarshal (snd doc) = Err cause
    ∧ collectFlat docs matches = Err (ErrParsingYaml (fst doc) cause).
Proof.
  induction docs as [|d rest IH]; intros matches H.
  - exfalso. apply H. constructor.
  - simpl. destruct (yaml_Unmarshal (snd d)) as [o|e] eqn:E.
    + destruct (IH (if isContextConfigMap o then matches ++ [o] else matches))
        as (doc & cause & Hin & Hd & Hr).
      { intros Hrest. apply H. constructor; [| done].
        unfold parses. now rewrite E. }
      exists doc, cause. split; [now apply elem_of_cons; right | done].
    + exists d, e. split; [apply elem_of_cons; now left | done].
Qed.

Lemma Forall_parses_dec docs : Forall parses docs ∨ ¬ Forall parses docs.
Proof.
  induction docs as [|d rest [IH | IH]].
  - left. constructor.
  - unfold parses at 1.
    destruct (is_Ok (yaml_Unmarshal (snd d))) eqn:E.
    + left. now constructor.
    + right. intros H. inversion H as [|? ? Hd _]; subst.
      unfold parses in Hd. congruence.
  - right. intros H. inversion H; subst. done.
Qed.

(** C9 (amended) — Context ConfigMap.  [ExtractContextConfigMap] looks only
    at files whose extension, lower-cased, is [.yaml] or [.yml], splits each
    on the document separator and skips the pieces that are all whitespace.
    If one of the remaining documents fails to parse, the call fails with
    "error parsing yaml from <path>" for such a document.  Otherwise, over
    the ConfigMap objects (empty group) named by the platform constant, it
    returns nil without error when there is none, the object when there is
    exactly one, and the "found multiple configmaps" error when there are two
    or more. *)
Theorem context_configmap_by_count resources :
  (Forall parses (consideredDocuments resources) → resultByCount resources)
  ∧ (¬ Forall parses (consideredDocuments resources) →
     ∃ doc cause,
       doc ∈ consideredDocuments resources
       ∧ yaml_Unmarshal (snd doc) = Err cause
       ∧ ExtractContextConfigMap resources
         = Err (ErrParsingYaml (fst doc) cause))
  ∧ (∀ path d,
       (path, d) ∈ consideredDocuments resources ↔
       isYamlPath path = true ∧ isWhitespace d = false
       ∧ ∃ contents, resources !! path = Some contents
                     ∧ d ∈ GoStrings.Split contents documentSeparator).
Proof.
  split; [| split].
  - intros H. unfold resultByCount, ExtractContextConfigMap.
    rewrite collectFiles_flat.
    fold (consideredDocuments resources).
    rewrite (collectFlat_parsed _ [] H). simpl.
    fold (contextObjects resources).
    now destruct (contextObjects resources) as [|? [|? ?]].
  - intros H. unfold ExtractContextConfigMap.
    rewrite collectFiles_flat.
    fold (consideredDocuments resources).
    destruct (collectFlat_unparsed _ [] H) as (doc & cause & Hin & Hd & ->).
    exists doc, cause. done.
  - intros path d. unfold consideredDocuments.
    rewrite list_elem_of_In, in_flat_map. split.
    + intros ([p c] & Hitem & Hin).
      rewrite <- list_elem_of_In in Hitem, Hin. simpl in Hin.
      destruct (isYamlPath p) eqn:Ey; [| now apply elem_of_nil in Hin].
      apply list_elem_of_fmap in Hin as (d' & [= -> ->] & Hd).
      unfold documentsOf in Hd. apply list_elem_of_filter in Hd as [Hw Hd].
      repeat split; try done.
      exists c. split; [| done].
      rewrite map_range_perm in Hitem. now apply elem_of_map_to_list in Hitem.
    + intros (Hy & Hw & c & Hc & Hd).
      exists (path, c). rewrite <- !list_elem_of_In. split.
      * rewrite map_range_perm. now apply elem_of_map_to_list.
      * simpl. rewrite Hy. apply list_elem_of_fmap. exists d. split; [done |].
        unfold documentsOf. now apply list_elem_of_filter.
Qed.

End ContextExtractor.

(** ** ReplaceResources *)

Section ReplaceResources.

Context `{C : Collaborators}.

Lemma map_range_lookup (m : gmap string string) k v :
  (k, v) ∈ map_range m ↔ m !! k = Some v.
Proof. rewrite map_range_perm. apply elem_of_map_to_list. Qed.

Lemma map_range_NoDup (m : gmap string string) : NoDup (fst <$> map_range m).
Proof. rewrite map_range_perm. apply NoDup_fst_map_to_list. Qed.

Lemma diffNew_Ok old new items : ∀ patches result,
  (∀ k v, (k, v) ∈ items → new !! k = Some v) →
  diffNew old items patches = Ok result →
  ∃ added, result = patches ++ added
           ∧ Forall2 (expectedPatch old new) (changedKeys old items) added.
Proof.
  induction items as [|[k newV] rest IH]; intros patches result Hin H.
  - injection H as <-. exists []. rewrite app_nil_r. split; [done | constructor].
  - assert (new !! k = Some newV) as Hk by (apply Hin, elem_of_cons; now left).
    assert (∀ k v, (k, v) ∈ rest → new !! k = Some v) as Hrest
      by (intros ? ? ?; apply Hin, elem_of_cons; now right).
    simpl in H. unfold changedKeys. rewrite filter_cons. simpl.
    destruct (old !! k) as [oldV|] eqn:Eo.
    + destruct (newV =s oldV) eqn:Ev.
      * apply eqb_true in Ev as ->.
        rewrite decide_False by (intros Hne; now apply Hne).
        now apply IH.
      * apply eqb_false in Ev.
        rewrite decide_True by congruence.
        destruct (GeneratePatch k oldV newV) as [p|e] eqn:Eg; [| discriminate].
        apply IH in H as (added & -> & HF); [| done].
        exists (p :: added). rewrite <- app_assoc. split; [done |].
        constructor; [| exact HF].
        unfold expectedPatch. simpl. rewrite Eo, Hk. split; [congruence | done].
    + rewrite decide_True by discriminate.
      apply IH in H as (added & -> & HF); [| done].
      exists (createFilePatch k newV :: added). rewrite <- app_assoc.
      split; [done |]. constructor; [| exact HF].
      unfold expectedPatch. simpl. now rewrite Eo, Hk.
Qed.

Lemma diffNew_total old items : ∀ patches,
  (∀ k oldV newV, (k, newV) ∈ items → old !! k = Some oldV → oldV ≠ newV →
                  is_Ok (GeneratePatch k oldV newV) = true) →
  is_Ok (diffNew old items patches) = true.
Proof.
  induction items as [|[k newV] rest IH]; intros patches Hgen; [done |].
  assert (∀ k oldV newV, (k, newV) ∈ rest → old !! k = Some oldV → oldV ≠ newV →
                         is_Ok (GeneratePatch k oldV newV) = true) as Hrest
    by (intros ? ? ? ?; apply Hgen, elem_of_cons; now right).
  simpl. destruct (old !! k) as [oldV|] eqn:Eo; [| now apply IH].
  destruct (newV =s oldV) eqn:Ev; [now apply IH |].
  apply eqb_false in Ev.
  specialize (Hgen k oldV newV (list_elem_of_here _ _) Eo (not_eq_sym Ev)).
  destruct (GeneratePatch k oldV newV); [now apply IH | discriminate].
Qed.

Lemma diffOld_spec old new items : ∀ patches,
  (∀ k v, (k, v) ∈ items → old !! k = Some v) →
  ∃ added, diffOld new items patches = patches ++ added
           ∧ Forall2 (expectedPatch old new) (deletedKeys new items) added.
Proof.
  induction items as [|[k oldV] rest IH]; intros patches Hin.
  - exists []. simpl. rewrite app_nil_r. split; [done | constructor].
  - assert (old !! k = Some oldV) as Hk by (apply Hin, elem_of_cons; now left).
    assert (∀ k v, (k, v) ∈ rest → old !! k = Some v) as Hrest
      by (intros ? ? ?; apply Hin, elem_of_cons; now right).
    simpl. unfold deletedKeys. rewrite filter_cons. simpl.
    destruct (new !! k) as [newV|] eqn:En.
    + rewrite decide_False by discriminate. now apply IH.
    + rewrite decide_True by done.
      destruct (IH (patches ++ [deleteFilePatch k]) Hrest) as (added & -> & HF).
      exists (deleteFilePatch k :: added). rewrite <- app_assoc.
      split; [done |]. constructor; [| exact HF].
      unfold expectedPatch. simpl. now rewrite Hk, En.
Qed.

(** The files that get a patch are, each once, those whose contents
    differ. *)
Lemma patched_keys old new :
  let ks := changedKeys old (map_range new) ++ deletedKeys new (map_range old) in
  NoDup ks ∧ ∀ k, k ∈ ks ↔ old !! k ≠ new !! k.
Proof.
  intros ks.
  assert (∀ k, k ∈ changedKeys old (map_range new)
               ↔ ∃ v, new !! k = Some v ∧ old !! k ≠ Some v) as Hc.
  { intros k. unfold changedKeys. rewrite list_elem_of_fmap. split.
    - intros ([k' v] & -> & Hin). apply list_elem_of_filter in Hin as [Hne Hin].
      apply map_range_lookup in Hin. exists v. done.
    - intros (v & Hn & Hne). exists (k, v). split; [done |].
      apply list_elem_of_filter. split; [done | now apply map_range_lookup]. }
  assert (∀ k, k ∈ deletedKeys new (map_range old)
               ↔ ∃ v, old !! k = Some v ∧ new !! k = None) as Hd.
  { intros k. unfold deletedKeys. rewrite list_elem_of_fmap. split.
    - intros ([k' v] & -> & Hin). apply list_elem_of_filter in Hin as [Hne Hin].
      apply map_range_lookup in Hin. exists v. done.
    - intros (v & Ho & Hn). exists (k, v). split; [done |].
      apply list_elem_of_filter. split; [done | now apply map_range_lookup]. }
  assert (∀ (P : string * string → Prop) `{∀ x, Decision (P x)}
            (l : list (string * string)),
            NoDup (fst <$> l) → NoDup (fst <$> filter P l)) as Hnd.
  { intros P HP l. induction l as [|x l IH]; [done |].
    rewrite filter_cons. simpl. intros Hl. apply NoDup_cons in Hl as [Hx Hl].
    destruct (decide (P x)); [| now apply IH].
    simpl. apply NoDup_cons. split; [| now apply IH].
    intros Hin. apply Hx. apply list_elem_of_fmap in Hin as (y & -> & Hy).
    apply list_elem_of_filter in Hy as [_ Hy].
    apply list_elem_of_fmap. eauto. }
  split.
  - apply NoDup_app. split; [| split].
    + apply Hnd, map_range_NoDup.
    + intros k Hk1 Hk2. apply Hc in Hk1 as (v & Hn & _).
      apply Hd in Hk2 as (_ & _ & Hn'). congruence.
    + apply Hnd, map_range_NoDup.
  - intros k. unfold ks. rewrite elem_of_app, Hc, Hd. split.
    + intros [(v & Hn & Hne) | (v & Ho & Hn)]; congruence.
    + intros Hne. destruct (new !! k) as [v|] eqn:En.
      * left. exists v. done.
      * right. destruct (old !! k) as [v|] eqn:Eo; [eauto | done].
Qed.

(** C7 — ReplaceResources diff.  Whenever [mutationReplaceResources.Apply]
    returns, the files it returns are the healed new file set and its audit
    task is a Patch task whose patches correspond one to one to the files
    whose contents differ between the old and the healed new file set, each
    such file once: a CreateFile patch with the full new contents for a file
    only in the new set, a DeleteFile patch for a file only in the old set,
    the patch [GeneratePatch] computes from the two contents for a file in
    both; a file with the same contents in both gets no patch.  And it does
    return whenever healing succeeds and [GeneratePatch] succeeds on the
    files that changed. *)
Theorem replace_resources_patch_per_changed_file newResources resources :
  let old := Contents resources in
  (∀ result task,
      mutationReplaceResources_Apply newResources resources
      = Ok (result, task) →
      ∃ new patches ks,
        healConfig old (Resources newResources) = Ok new
        ∧ result = {| Contents := new |}
        ∧ task = Some (patchTask patches)
        ∧ Type_ (patchTask patches) = TaskTypePatch
        ∧ Patch (patchTask patches) = Some {| Patches := patches |}
        ∧ NoDup ks
        ∧ (∀ k, k ∈ ks ↔ old !! k ≠ new !! k)
        ∧ Forall2 (expectedPatch old new) ks patches)
  ∧ (∀ new,
        healConfig old (Resources newResources) = Ok new →
        (∀ k oldV newV, old !! k = Some oldV → new !! k = Some newV →
                        oldV ≠ newV →
                        is_Ok (GeneratePatch k oldV newV) = true) →
        is_Ok (mutationReplaceResources_Apply newResources resources) = true).
Proof.
  intros old. split.
  - intros result task H. unfold mutationReplaceResources_Apply in H.
    fold old in H.
    destruct (healConfig old (Resources newResources)) as [new|e] eqn:Eh;
      [| discriminate].
    destruct (diffNew old (map_range new) []) as [ps|e] eqn:En; [| discriminate].
    injection H as <- <-.
    apply (diffNew_Ok old new) in En as (added1 & -> & HF1);
      [| intros k v; apply map_range_lookup].
    destruct (diffOld_spec old new (map_range old) ([] ++ added1))
      as (added2 & -> & HF2); [intros k v; apply map_range_lookup |].
    destruct (patched_keys old new) as [Hnd Hks].
    exists new, (([] ++ added1) ++ added2),
      (changedKeys old (map_range new) ++ deletedKeys new (map_range old)).
    split; [done |]. split; [done |]. split; [done |].
    split; [done |]. split; [done |]. split; [exact Hnd |].
    split; [exact Hks |].
    simpl. now apply Forall2_app.
  - intros new Hh Hgen. unfold mutationReplaceResources_Apply. fold old.
    rewrite Hh.
    pose proof (diffNew_total old (map_range new) []) as Ht.
    destruct (diffNew old (map_range new) []); [done |].
    apply Ht. intros k oldV newV Hin Ho. apply Hgen; [exact Ho |].
    now apply map_range_lookup.
Qed.

(** [healConfig] fails only when reading one of the two file sets or writing
    the healed one fails; what [CopyComments] reports is never looked at. *)
Lemma healConfig_Err old new e :
  healConfig old new = Err e →
  (∃ cause, packageReader_Read old = Err cause ∧ e = ErrReadOldResources cause)
  ∨ packageReader_Read new = Err e
  ∨ ∃ oldResources extraOld r extra,
      packageReader_Read old = Ok (oldResources, extraOld)
      ∧ packageReader_Read new = Ok (r, extra)
      ∧ packageWriter_Write (healNode oldResources <$> r) = Err e.
Proof.
  unfold healConfig.
  destruct (packageReader_Read old) as [[oldResources extraOld]|c] eqn:Eo.
  - destruct (packageReader_Read new) as [[r extra]|c] eqn:En.
    + destruct (packageWriter_Write _) as [healed|c] eqn:Ew; [discriminate |].
      intros [= <-]. right. right. eauto 10.
    + intros [= <-]. right. now left.
  - intros [= <-]. left. eauto.
Qed.

Lemma healNode_reports olds : ∀ n,
  healNode olds n = fst (healNodeReports olds n).
Proof.
  induction olds as [|original rest IH]; intros n; [done |].
  unfold healNode in *. simpl.
  destruct (sameResource n original); simpl; apply IH.
Qed.

(** C8 (amended) — failures inside healConfig.  The filter of [healConfig]
    copies comments to each node of the new package from every matching
    node of the old one and keeps the node each copy leaves; what the copy
    reports is never looked at.  So whenever the two packages can be read
    and the nodes written back, [healConfig] succeeds with the written files
    and the files of the new package the reader set aside, whatever errors
    the copies reported; [Apply] goes on to the diff against these files, and when the
    diff succeeds the executor hands them to the draft with the Patch task
    and goes on from them.  Every other failure of [healConfig], that is
    reading the old package, reading the new one or writing the nodes, is
    returned: [Apply] fails with that error wrapped as "failed to heal
    resources", returns neither a file set nor an audit task, and the
    executor stops there with the state as it was, before any
    [UpdateResources] for the mutation reaches the draft. *)
Theorem copy_errors_dropped_heal_errors_returned
    newResources oldResources resources :
  let old := Contents resources in
  let new := Resources newResources in
  (∀ olds n, healNode olds n = fst (healNodeReports olds n))
  ∧ (∀ olds extraOld r extra written,
        packageReader_Read old = Ok (olds, extraOld) →
        packageReader_Read new = Ok (r, extra) →
        packageWriter_Write (fst ∘ healNodeReports olds <$> r) = Ok written →
        let healed := extra ∪ written in
        healConfig old new = Ok healed
        ∧ mutationReplaceResources_Apply newResources resources
          = match diffNew old (map_range healed) [] with
            | Err e => Err e
            | Ok patches =>
                Ok ({| Contents := healed |},
                    Some (patchTask (diffOld healed (map_range old) patches)))
            end
        ∧ ∀ patches,
            diffNew old (map_range healed) [] = Ok patches →
            let task := Some (patchTask
                                (diffOld healed (map_range old) patches)) in
            ∀ draft rest s,
              applyResourceMutations draft resources
                (mutationReplaceResources newResources oldResources :: rest) s
              = (let* _ := call (DraftUpdateResources draft
                                   {| Resources := healed |} task)
                             (draft_UpdateResources draft
                                {| Resources := healed |} task) in
                 applyResourceMutations draft {| Contents := healed |} rest) s)
  ∧ (∀ e,
        healConfig old new = Err e →
        ((∃ cause, packageReader_Read old = Err cause
                   ∧ e = ErrReadOldResources cause)
         ∨ packageReader_Read new = Err e
         ∨ ∃ olds extraOld r extra,
             packageReader_Read old = Ok (olds, extraOld)
             ∧ packageReader_Read new = Ok (r, extra)
             ∧ packageWriter_Write (fst ∘ healNodeReports olds <$> r) = Err e)
        ∧ mutationReplaceResources_Apply newResources resources
          = Err (ErrHealResources e)
        ∧ ∀ draft rest s,
            applyResourceMutations draft resources
              (mutationReplaceResources newResources oldResources :: rest) s
            = (s, Err (ErrHealResources e))).
Proof.
  intros old new.
  assert (∀ olds (r : list RNode),
             fst ∘ healNodeReports olds <$> r = healNode olds <$> r) as Hmap.
  { intros olds r. apply list_fmap_ext. intros i n _. simpl.
    now rewrite healNode_reports. }
  split; [apply healNode_reports |]. split.
  - intros olds extraOld r extra written Ho Hn Hw healed.
    rewrite Hmap in Hw.
    assert (healConfig old new = Ok healed) as Hh
      by (unfold healConfig; now rewrite Ho, Hn, Hw).
    assert (mutationReplaceResources_Apply newResources resources
            = match diffNew old (map_range healed) [] with
              | Err e => Err e
              | Ok patches =>
                  Ok ({| Contents := healed |},
                      Some (patchTask
                              (diffOld healed (map_range old) patches)))
              end) as Ha.
    { unfold mutationReplaceResources_Apply. fold old new. now rewrite Hh. }
    split; [exact Hh |]. split; [exact Ha |].
    intros patches Hd task draft rest s. simpl.
    unfold bind at 1. unfold lift. rewrite Ha, Hd. reflexivity.
  - intros e H.
    assert (mutationReplaceResources_Apply newResources resources
            = Err (ErrHealResources e)) as Ha.
    { unfold mutationReplaceResources_Apply. fold old new. now rewrite H. }
    split; [| split; [exact Ha |]].
    + apply healConfig_Err in H
        as [H | [H | (olds & extraOld & r & extra & Ho & Hn & Hw)]];
        [now left | right; now left |].
      right. right. exists olds, extraOld, r, extra.
      rewrite Hmap. done.
    + intros draft rest s. simpl.
      apply (bind_fail _ _ s s). unfold lift. now rewrite Ha.
Qed.

End ReplaceResources.

(** *** Examples of replacement and context extraction *)

Lemma replace_resources_patch_per_changed_file_witness :
  ∃ new patches ks,
    mutationReplaceResources_Apply {| Resources := Scenarios.newFiles |}
      {| Contents := Scenarios.oldFiles |}
    = Ok ({| Contents := new |}, Some (patchTask patches))
    ∧ NoDup ks
    ∧ (∀ k, k ∈ ks ↔ Scenarios.oldFiles !! k ≠ new !! k)
    ∧ Forall2 (expectedPatch Scenarios.oldFiles new) ks patches.
Proof.
  pose proof (eq_refl : mutationReplaceResources_Apply
                          {| Resources := Scenarios.newFiles |}
                          {| Contents := Scenarios.oldFiles |}
                        = Scenarios.replaceFiles) as E.
  unfold Scenarios.replaceFiles in E.
  destruct (proj1 (replace_resources_patch_per_changed_file
                     {| Resources := Scenarios.newFiles |}
                     {| Contents := Scenarios.oldFiles |}) _ _ E)
    as (new & patches & ks & _ & Hres & Htask & _ & _ & Hnd & Hks & HF).
  exists new, patches, ks.
  split; [rewrite E; now rewrite Hres, Htask |].
  split; [exact Hnd |]. split; [exact Hks |]. exact HF.
Defined.

Example replace_resources_patches :
  mutationReplaceResources_Apply {| Resources := Scenarios.newFiles |}
    {| Contents := Scenarios.oldFiles |}
  = Ok ({| Contents := Scenarios.newFiles |},
        Some (patchTask
                [ {| patch_File := "a.yaml"; patch_Contents := "-a: 1+a: 2";
                     patch_PatchType := PatchTypePatchFile |};
                  createFilePatch "d.yaml" "d: 1";
                  deleteFilePatch "b.yaml" ])).
Proof. reflexivity. Qed.

Example heal_fails_on_broken_yaml :
  healConfig ∅ Scenarios.brokenFiles
  = Err (ErrCollaborator "yaml: did not find expected node content").
Proof. reflexivity. Qed.

(** Where copying comments fails on the nodes of b.yaml: the copy to the
    node of b.yaml reports its error, the one to the node of a.yaml
    succeeds. *)
Example copy_reports :
  healNodeReports (C := Fake.failingCopy)
    [ {| Fake.n_path := "a.yaml"; Fake.n_text := "a: 1" |};
      {| Fake.n_path := "b.yaml"; Fake.n_text := "b: 1" |} ]
    {| Fake.n_path := "b.yaml"; Fake.n_text := "b: 2" |}
  = ({| Fake.n_path := "b.yaml"; Fake.n_text := "b: 2" |},
     [ErrCollaborator "cannot copy comments"])
  ∧ healNodeReports (C := Fake.failingCopy)
      [ {| Fake.n_path := "a.yaml"; Fake.n_text := "a: 1" |};
        {| Fake.n_path := "b.yaml"; Fake.n_text := "b: 1" |} ]
      {| Fake.n_path := "a.yaml"; Fake.n_text := "a: 2" |}
    = ({| Fake.n_path := "a.yaml"; Fake.n_text := "a: 2 # kept" |}, []).
Proof. split; reflexivity. Qed.

Example copy_reads :
  @packageReader_Read Fake.failingCopy Scenarios.copyOld
  = Ok ([ {| Fake.n_path := "a.yaml"; Fake.n_text := "a: 1" |};
          {| Fake.n_path := "b.yaml"; Fake.n_text := "b: 1" |} ], ∅)
  ∧ @packageReader_Read Fake.failingCopy Scenarios.copyNew
    = Ok ([ {| Fake.n_path := "a.yaml"; Fake.n_text := "a: 2" |};
            {| Fake.n_path := "b.yaml"; Fake.n_text := "b: 2" |} ], ∅).
Proof. split; reflexivity. Qed.

Example replace_with_failing_copy :
  mutationReplaceResources_Apply (C := Fake.failingCopy)
    {| Resources := Scenarios.copyNew |} {| Contents := Scenarios.copyOld |}
  = Ok ({| Contents := Scenarios.copyHealed |},
        Some (patchTask
                [ {| patch_File := "a.yaml";
                     patch_Contents := "-a: 1+a: 2 # kept";
                     patch_PatchType := PatchTypePatchFile |};
                  {| patch_File := "b.yaml"; patch_Contents := "-b: 1+b: 2";
                     patch_PatchType := PatchTypePatchFile |} ])).
Proof. reflexivity. Qed.

(** A comment copy that fails on one file does not leave the new file set
    as it was handed in: the mutation goes on with the files the writer
    produced, and those of the other files carry what was copied. *)
Lemma failed_copy_keeps_healed_files :
  ¬ copyFailureKeepsNewFiles (C := Fake.failingCopy)
      {| Resources := Scenarios.copyNew |} {| Contents := Scenarios.copyOld |}.
Proof.
  intros H.
  destruct (H _ _ _ _ {| Fake.n_path := "b.yaml"; Fake.n_text := "b: 2" |}
              (proj1 copy_reads) (proj2 copy_reads))
    as [task Ht].
  - apply list_elem_of_In. simpl. right. now left.
  - rewrite (proj1 copy_reports). simpl. discriminate.
  - rewrite replace_with_failing_copy in Ht.
    assert (Scenarios.copyHealed !! "a.yaml" = Scenarios.copyNew !! "a.yaml")
      as Hfile.
    { exact (f_equal
               (fun r : result (PackageResources * option Task) =>
                  match r with
                  | Ok (files, _) => Contents files !! "a.yaml"
                  | Err _ => None
                  end) Ht). }
    vm_compute in Hfile. discriminate Hfile.
Qed.

Lemma copy_errors_dropped_heal_errors_returned_witness :
  (snd (healNodeReports (C := Fake.failingCopy)
          [ {| Fake.n_path := "a.yaml"; Fake.n_text := "a: 1" |};
            {| Fake.n_path := "b.yaml"; Fake.n_text := "b: 1" |} ]
          {| Fake.n_path := "b.yaml"; Fake.n_text := "b: 2" |})
   = [ErrCollaborator "cannot copy comments"]
   ∧ healConfig (C := Fake.failingCopy) Scenarios.copyOld Scenarios.copyNew
     = Ok (∅ ∪ Scenarios.copyHealed))
  ∧ (healConfig ∅ Scenarios.brokenFiles
     = Err (ErrCollaborator "yaml: did not find expected node content")
     ∧ mutationReplaceResources_Apply {| Resources := Scenarios.brokenFiles |}
         {| Contents := ∅ |}
       = Err (ErrHealResources
                (ErrCollaborator "yaml: did not find expected node content"))).
Proof.
  split.
  - split; [now rewrite (proj1 copy_reports) |].
    exact (proj1 (proj1 (proj2 (copy_errors_dropped_heal_errors_returned
                                  (C := Fake.failingCopy)
                                  {| Resources := Scenarios.copyNew |}
                                  {| Resources := Scenarios.copyOld |}
                                  {| Contents := Scenarios.copyOld |}))
                    _ _ _ _ Scenarios.copyHealed
                    (proj1 copy_reads) (proj2 copy_reads) eq_refl)).
  - split; [exact heal_fails_on_broken_yaml |].
    exact (proj1 (proj2 (proj2 (proj2 (copy_errors_dropped_heal_errors_returned
                                  {| Resources := Scenarios.brokenFiles |}
                                  {| Resources := ∅ |} {| Contents := ∅ |}))
                    _ heal_fails_on_broken_yaml))).
Defined.

Example yaml_extensions :
  isYamlPath "pkg/context.yaml" = true ∧ isYamlPath "deploy.YML" = true
  ∧ isYamlPath "a/b.Yaml" = true ∧ isYamlPath "README.md" = false
  ∧ isYamlPath "dir.yaml/Kptfile" = false ∧ isYamlPath "yaml" = false.
Proof. repeat split. Qed.

Example context_documents :
  consideredDocuments Scenarios.contextFiles
  = [("context.yaml", Fake.contextDocument);
     ("deploy.YML", Fake.deploymentDocument)].
Proof. reflexivity. Qed.

Example extract_one_context :
  ExtractContextConfigMap Scenarios.contextFiles
  = Ok (Some {| Fake.o_group := ""; Fake.o_kind := "ConfigMap";
                Fake.o_name := "kptfile.kpt.dev";
                Fake.o_data := {[ "package-path" := "foo/bar" ]} |}).
Proof. reflexivity. Qed.

Example extract_two_contexts :
  ExtractContextConfigMap
    (Resources {| Resources := Fake.rev_files
                                 (repoPackageRevision Fake.twoContexts) |})
  = Err ErrMultipleConfigMaps.
Proof. reflexivity. Qed.

Example extract_broken :
  ExtractContextConfigMap Scenarios.brokenFiles
  = Err (ErrParsingYaml "a.yaml"
           (ErrCollaborator "yaml: did not find expected node content")).
Proof. reflexivity. Qed.

(** A YAML file that does not parse holds no package-context ConfigMap, yet
    the call fails instead of returning nil. *)
Lemma unparsable_document_is_an_error :
  ¬ resultByCount Scenarios.brokenFiles.
Proof.
  unfold resultByCount. rewrite extract_broken.
  assert (contextObjects Scenarios.brokenFiles = []) as -> by reflexivity.
  intros H. discriminate H.
Qed.

Lemma context_configmap_by_count_witness :
  Forall parses (consideredDocuments Scenarios.contextFiles)
  ∧ resultByCount Scenarios.contextFiles.
Proof.
  assert (Forall parses (consideredDocuments Scenarios.contextFiles)) as H.
  { rewrite context_documents. repeat constructor. }
  split; [exact H |].
  exact (proj1 (context_configmap_by_count Scenarios.contextFiles) H).
Defined.

(** *** Scenarios end to end *)

(** Create with no tasks and no lifecycle: the draft records an Init and a
    Render, ends as Draft, and a metadata record is created. *)
Example scenario_create_minimal :
  let s' := fst (CreatePackageRevision Fake.repository
                   (Fake.request "net" "" [] ∅) None Fake.start) in
  Fake.w_tasks (world s') = [initTask "net"; Fake.renderTask]
  ∧ Fake.w_lifecycle (world s') = "Draft"
  ∧ Fake.w_metas (world s')
    = [{| meta_Name := "blueprints-net"; meta_Namespace := "default";
          meta_Labels := ∅; meta_Annotations := ∅ |}].
Proof. repeat split. Qed.

(** Appending an Update task to a cloned Draft: the draft is opened on the
    stored revision, records the Update and a Render after the tasks it
    had, and the metadata record is updated last. *)
Example scenario_append_update :
  let old := Scenarios.fromV1 "Draft" in
  let new := Fake.request "net" "Draft"
               [Fake.cloneTask "base-v1"; Fake.updateTask "base-v2"]
               {[ "team" := "net" ]} in
  let s' := fst (UpdatePackageRevision Fake.repository
                   (Fake.exposed old Scenarios.files) old new None
                   Fake.start) in
  Fake.w_tasks (world s')
  = [Fake.cloneTask "base-v1"; Fake.updateTask "base-v2"; Fake.renderTask]
  ∧ opensDraft <$> calls s' = [false; true; false; false; false; false; false]
  ∧ last (calls s')
    = Some (MetaUpdate {| meta_Name := "blueprints-net";
                          meta_Namespace := "default";
                          meta_Labels := {[ "team" := "net" ]};
                          meta_Annotations := ∅ |}).
Proof. repeat split. Qed.

(** Changing the Clone task of a Draft: a fresh draft, the new tasks and a
    Render, and no call to the metadata store. *)
Example scenario_reclone :
  let s' := fst (UpdatePackageRevision Fake.repository
                   (Fake.exposed (Scenarios.fromV1 "Draft") Scenarios.files)
                   (Scenarios.fromV1 "Draft") (Scenarios.toV2 "Draft") None
                   Fake.start) in
  Fake.w_tasks (world s') = [Fake.cloneTask "base-v2"; Fake.renderTask]
  ∧ touchesMetadata <$> calls s' = [false; false; false; false; false; false]
  ∧ Fake.w_metas (world s') = [].
Proof. repeat split. Qed.

(** ** More of the engine *)

Section MoreEngine.

Context `{C : Collaborators}.

Lemma bind_inv {A B} (m : M A) (k : A → M B) s s' r :
  bind m k s = (s', r) →
  (∃ e, m s = (s', Err e) ∧ r = Err e)
  ∨ ∃ s1 a, m s = (s1, Ok a) ∧ k a s1 = (s', r).
Proof.
  unfold bind. destruct (m s) as [s1 [a|e]].
  - intros H. right. eauto.
  - intros [= <- <-]. left. eauto.
Qed.

(** X1 — DeletePackageRevision.  Whatever the outcome, the calls of
    [DeletePackageRevision] are a prefix of: open the repository, delete the
    revision from it, delete the record named after the revision from the
    metadata store.  A successful call has made all three, in this order;
    and the metadata store is touched only in a run in which the repository
    was opened and reported the revision deleted. *)
Theorem delete_repository_then_metadata repositoryObj oldPackage s :
  let old := repoPackageRevision oldPackage in
  let deleteMeta := MetaDelete (KubeObjectName old) (KubeObjectNamespace old) in
  let run := DeletePackageRevision repositoryObj oldPackage s in
  ∃ new,
    newCalls s (fst run) new
    ∧ (snd run = Ok tt →
       ∃ repo, new = [OpenRepository repositoryObj;
                      RepoDeletePackageRevision repo old; deleteMeta])
    ∧ (Exists (fun c => touchesMetadata c = true) new →
       ∃ repo s1 s2,
         call (OpenRepository repositoryObj)
           (cache_OpenRepository repositoryObj) s = (s1, Ok repo)
         ∧ call (RepoDeletePackageRevision repo old)
             (repo_DeletePackageRevision repo old) s1 = (s2, Ok tt)
         ∧ new = [OpenRepository repositoryObj;
                  RepoDeletePackageRevision repo old; deleteMeta]).
Proof.
  intros old deleteMeta run. unfold newCalls.
  destruct run as [s' r] eqn:H. unfold run in H. clear run. simpl.
  unfold DeletePackageRevision in H.
  apply bind_inv in H as [(e & Hopen & ->) | (s1 & repo & Hopen & H)].
  { destruct (call_run _ _ _ _ _ Hopen) as [_ Hc1].
    exists [OpenRepository repositoryObj]. split; [exact Hc1 |].
    split; [discriminate |].
    intros Hex. apply Exists_cons in Hex as [Hex | Hex];
      [discriminate Hex | inversion Hex]. }
  cbv zeta in H.
  apply bind_inv in H as [(e & Hdel & ->) | (s2 & [] & Hdel & H)].
  { destruct (call_run _ _ _ _ _ Hopen) as [_ Hc1].
    destruct (call_run _ _ _ _ _ Hdel) as [_ Hc2].
    exists [OpenRepository repositoryObj;
            RepoDeletePackageRevision repo (repoPackageRevision oldPackage)].
    split; [rewrite Hc2, Hc1, <- app_assoc; reflexivity |].
    split; [discriminate |].
    intros Hex. apply Exists_cons in Hex as [Hex | Hex]; [discriminate Hex |].
    apply Exists_cons in Hex as [Hex | Hex];
      [discriminate Hex | inversion Hex]. }
  assert (∃ r', call deleteMeta
                  (meta_Delete (KubeObjectName old) (KubeObjectNamespace old))
                  s2 = (s', r')) as [r' Hmeta].
  { apply bind_inv in H as [(e & Hm & _) | (s3 & m & Hm & H)]; [eauto |].
    apply ret_run in H as [-> _]. eauto. }
  destruct (call_run _ _ _ _ _ Hopen) as [_ Hc1].
  destruct (call_run _ _ _ _ _ Hdel) as [_ Hc2].
  destruct (call_run _ _ _ _ _ Hmeta) as [_ Hc3].
  exists [OpenRepository repositoryObj;
          RepoDeletePackageRevision repo old; deleteMeta].
  split; [rewrite Hc3, Hc2, Hc1, <- !app_assoc; reflexivity |].
  split; [eauto |].
  intros _. exists repo, s1, s2. auto.
Qed.


(** X3 — applyResourceMutations.  Whatever the outcome, the executor makes
    no call other than [UpdateResources] on its draft, at most one per
    mutation; when it succeeds it has made exactly one per mutation. *)
Theorem executor_only_updates_resources draft ms : ∀ base s,
  let run := applyResourceMutations draft base ms s in
  ∃ recs,
    calls (fst run) = calls s ++ (updateResourcesCall draft <$> recs)
    ∧ (length recs ≤ length ms)%nat
    ∧ (snd run = Ok tt → length recs = length ms).
Proof.
  induction ms as [|m rest IH]; intros base s; cbv zeta.
  - exists []. simpl. rewrite app_nil_r. auto.
  - destruct (applyResourceMutations draft base (m :: rest) s) as [s' r] eqn:H.
    simpl in H. simpl fst. simpl snd.
    pose proof (quiet_Apply m base s) as Hq.
    apply bind_inv in H as [(e & HA & ->) | (s1 & [applied task] & HA & H)].
    + rewrite HA in Hq. simpl in Hq. exists []. simpl.
      rewrite app_nil_r. split; [exact Hq |]. split; [lia | discriminate].
    + rewrite HA in Hq. simpl in Hq.
      apply bind_inv in H as [(e & HU & ->) | (s2 & [] & HU & H)];
        destruct (call_run _ _ _ _ _ HU) as [_ Hc].
      * exists [({| Resources := Contents applied |}, task)]. simpl.
        rewrite Hc, Hq. split; [reflexivity |]. split; [lia | discriminate].
      * specialize (IH applied s2). cbv zeta in IH. rewrite H in IH.
        destruct IH as (recs & Hcalls & Hle & Hlen). simpl in Hcalls, Hlen.
        exists (({| Resources := Contents applied |}, task) :: recs). simpl.
        rewrite Hcalls, Hc, Hq, <- app_assoc.
        split; [reflexivity |]. split; [lia |].
        intros Hr. now rewrite Hlen.
Qed.

(** X4 — buildPackageConfig.  Without a parent the package path is the
    package name of the request.  With a parent it is the package name of
    the request after the path of the parent, which is the package name of
    the parent, itself after the package path recorded in the
    package-context ConfigMap of the parent when there is such a ConfigMap
    and its path is not empty; the segments are joined with "/", and an
    empty parent path adds nothing. *)
Theorem package_path_from_parent obj :
  (∀ s, buildPackageConfig obj None s
        = (s, Ok {| PackagePath := PackageName obj |}))
  ∧ (∀ parent s s' cfg,
      buildPackageConfig obj (Some parent) s = (s', Ok cfg) →
      ∃ s1 parentObj resources context prefix,
        GetPackageRevision parent s = (s1, Ok parentObj)
        ∧ GetResources parent s1 = (s', Ok resources)
        ∧ ExtractContextConfigMap (Resources resources) = Ok context
        ∧ match context with
          | None => prefix = ""
          | Some parentConfig =>
              ∃ data, ConfigMap_Data parentConfig = Ok data
                      ∧ prefix = default "" (data !! ConfigKeyPackagePath)
          end
        ∧ PackagePath cfg
          = let parentPath :=
              if prefix =s "" then PackageName parentObj
              else prefix +:+ "/" +:+ PackageName parentObj in
            if parentPath =s "" then PackageName obj
            else parentPath +:+ "/" +:+ PackageName obj).
Proof.
  split; [reflexivity |].
  intros parent s s' cfg H. unfold buildPackageConfig in H.
  apply bind_Ok in H as (sp & parentPath & Hp & H).
  assert (sp = s' ∧ PackagePath cfg
                    = if parentPath =s "" then PackageName obj
                      else parentPath +:+ "/" +:+ PackageName obj)
    as [-> Hcfg].
  { destruct (parentPath =s ""); apply ret_run in H as [-> [= ->]]; auto. }
  clear H.
  apply bind_Ok in Hp as (s1 & parentObj & Hget & Hp).
  apply bind_Ok in Hp as (s2 & resources & Hres & Hp).
  apply wrap_Ok in Hres.
  apply bind_Ok in Hp as (s3 & context & Hctx & Hp).
  apply wrap_Ok, lift_run in Hctx as [-> Hctx].
  destruct context as [parentConfig|].
  - apply bind_Ok in Hp as (s4 & data & Hdata & Hp).
    apply wrap_Ok, lift_run in Hdata as [-> Hdata].
    exists s1, parentObj, resources, (Some parentConfig),
      (default "" (data !! ConfigKeyPackagePath)).
    assert (s2 = s' ∧ parentPath
                      = if default "" (data !! ConfigKeyPackagePath) =s ""
                        then PackageName parentObj
                        else default "" (data !! ConfigKeyPackagePath)
                             +:+ "/" +:+ PackageName parentObj) as [-> ->].
    { destruct (_ =s ""); apply ret_run in Hp as [-> [= ->]]; auto. }
    split; [exact Hget |]. split; [exact Hres |]. split; [now symmetry |].
    split; [eauto |]. exact Hcfg.
  - apply ret_run in Hp as [-> [= ->]].
    exists s1, parentObj, resources, None, "".
    split; [exact Hget |]. split; [exact Hres |]. split; [now symmetry |].
    split; [reflexivity |]. exact Hcfg.
Qed.

(** X5 — PackageRevision.GetPackageRevision.  The API object of a revision
    is the one the repository returns with its labels and annotations
    replaced by those of the metadata record; of the labels of the
    repository object only the latest-revision label is carried over, when
    it is set to the latest-revision value.  No call is logged. *)
Theorem get_package_revision_merges_metadata p s s' obj :
  GetPackageRevision p s = (s', Ok obj) →
  ∃ repoPkgRev,
    rev_GetPackageRevision (repoPackageRevision p) (world s)
    = (world s', Ok repoPkgRev)
    ∧ calls s' = calls s
    ∧ Annotations obj = meta_Annotations (packageRevisionMeta p)
    ∧ (Labels repoPkgRev !! LatestPackageRevisionKey
       = Some LatestPackageRevisionValue →
       Labels obj
       = <[LatestPackageRevisionKey := LatestPackageRevisionValue]>
           (meta_Labels (packageRevisionMeta p)))
    ∧ (Labels repoPkgRev !! LatestPackageRevisionKey
       ≠ Some LatestPackageRevisionValue →
       Labels obj = meta_Labels (packageRevisionMeta p))
    ∧ (∀ k, k ≠ LatestPackageRevisionKey →
            Labels obj !! k = meta_Labels (packageRevisionMeta p) !! k)
    ∧ Name obj = Name repoPkgRev
    ∧ Namespace obj = Namespace repoPkgRev
    ∧ PackageName obj = PackageName repoPkgRev
    ∧ Lifecycle obj = Lifecycle repoPkgRev
    ∧ Tasks obj = Tasks repoPkgRev.
Proof.
  intros H. unfold GetPackageRevision in H.
  apply bind_Ok in H as (s1 & repoPkgRev & Hrev & H).
  apply ask_run in Hrev as [Hrev Hc].
  apply ret_run in H as [-> [= ->]]. simpl.
  exists repoPkgRev. split; [exact Hrev |]. split; [exact Hc |].
  split; [reflexivity |].
  destruct (Labels repoPkgRev !! LatestPackageRevisionKey) as [val|] eqn:E.
  - destruct (val =s LatestPackageRevisionValue) eqn:Ev.
    + apply eqb_true in Ev as ->.
      split; [reflexivity |]. split; [done |].
      split; [| repeat split].
      intros k Hk. now rewrite lookup_insert_ne.
    + apply eqb_false in Ev.
      split; [intros [= ?]; done |]. split; [reflexivity |].
      split; [| repeat split]. reflexivity.
  - split; [discriminate |]. split; [reflexivity |].
    split; [| repeat split]. reflexivity.
Qed.



End MoreEngine.

(** *** Examples of deleting, replacing files and reading a revision *)

Lemma delete_repository_then_metadata_witness :
  ∃ s',
    DeletePackageRevision Fake.repository
      (Fake.exposed (Scenarios.fromV1 "Published") Scenarios.files) Fake.start
    = (s', Ok tt)
    ∧ ∃ repo,
        calls s'
        = [OpenRepository Fake.repository;
           RepoDeletePackageRevision repo
             (Fake.stored (Scenarios.fromV1 "Published") Scenarios.files);
           MetaDelete "blueprints-net" "default"].
Proof.
  pose proof (eq_refl : DeletePackageRevision Fake.repository
                          (Fake.exposed (Scenarios.fromV1 "Published")
                             Scenarios.files) Fake.start
                        = Scenarios.deleteStored) as E.
  unfold Scenarios.deleteStored in E.
  eexists. split; [exact E |].
  destruct (delete_repository_then_metadata Fake.repository
              (Fake.exposed (Scenarios.fromV1 "Published") Scenarios.files)
              Fake.start) as (new & Hcalls & Hok & _).
  rewrite E in Hcalls, Hok. unfold newCalls in Hcalls. simpl in Hcalls, Hok.
  destruct (Hok eq_refl) as [repo ->].
  exists repo. exact Hcalls.
Defined.


Lemma executor_only_updates_resources_witness :
  ∃ recs : list (PackageRevisionResources * option Task),
    length recs = 2%nat.
Proof.
  destruct (executor_only_updates_resources (C := Fake.collaborators)
              (Fake.stored (Scenarios.fromV1 "Draft") Scenarios.files)
              [renderPackageMutation; renderPackageMutation]
              {| Contents := ∅ |} Fake.start) as (recs & _ & _ & Hlen).
  exists recs. exact (Hlen eq_refl).
Defined.

Lemma package_path_from_parent_witness :
  buildPackageConfig (Fake.request "baz" "Draft" [] ∅) (Some Fake.oneContext)
    Fake.start
  = (Fake.start, Ok {| PackagePath := "foo/bar/parent/baz" |})
  ∧ ∃ s1 parentObj,
      GetPackageRevision Fake.oneContext Fake.start = (s1, Ok parentObj).
Proof.
  assert (buildPackageConfig (Fake.request "baz" "Draft" [] ∅)
            (Some Fake.oneContext) Fake.start
          = (Fake.start, Ok {| PackagePath := "foo/bar/parent/baz" |})) as H
    by reflexivity.
  split; [exact H |].
  destruct (proj2 (package_path_from_parent (Fake.request "baz" "Draft" [] ∅))
              _ _ _ _ H)
    as (s1 & parentObj & resources & context & prefix & Hget & _).
  exists s1, parentObj. exact Hget.
Defined.


Lemma get_package_revision_merges_metadata_witness :
  ∃ s' obj,
    GetPackageRevision Scenarios.latestRevision Fake.start = (s', Ok obj)
    ∧ Labels obj = {[ "kpt.dev/latest-revision" := "true"; "team" := "net" ]}
    ∧ Annotations obj = {[ "owner" := "ops" ]}.
Proof.
  pose proof (eq_refl : GetPackageRevision Scenarios.latestRevision Fake.start
                        = Scenarios.getLatest) as E.
  unfold Scenarios.getLatest in E.
  eexists _, _. split; [exact E |].
  destruct (get_package_revision_merges_metadata _ _ _ _ E)
    as (repoPkgRev & _ & _ & Hann & _).
  split; [reflexivity | exact Hann].
Defined.

(** ** The reject command *)

Section RejectCommand.

Import Reject.

Variables Config Client Server : Type.
Variable cfg_Namespace : Config → string.
Variable UpdatePackageRevisionApproval :
  option Client → string → string → PackageRevisionLifecycle →
  Server → Server * option string.

Lemma outcomes_names (r : runner Config Client) namespace args : ∀ srv,
  fst <$> outcomes UpdatePackageRevisionApproval r namespace args srv = args.
Proof.
  induction args as [|name rest IH]; intros srv; simpl; [done |].
  now rewrite IH.
Qed.

(** The loop of [runE] in one step: the server after all the updates, a
    line on the output stream for each UpdatePackageRevisionApproval that succeeded and one on the
    error stream for each that failed, and the messages of the failures
    after those collected before. *)
Lemma rejectEach_outcomes (r : runner Config Client) namespace args :
  ∀ st messages,
    let os := outcomes UpdatePackageRevisionApproval r namespace args (server st) in
    rejectEach UpdatePackageRevisionApproval r namespace args st messages
    = ({| server := serverAfter UpdatePackageRevisionApproval r namespace args (server st);
          outOrStderr := outOrStderr st ++ omap rejectedLine os;
          errOrStderr := errOrStderr st ++ omap failedLine os |},
       messages ++ failureMessages os).
Proof.
  induction args as [|name rest IH]; intros st messages; cbv zeta.
  - simpl. rewrite !app_nil_r. now destruct st.
  - simpl.
    destruct (UpdatePackageRevisionApproval (client r) namespace name PackageRevisionLifecycleDraft
                (server st)) as [srv [err|]] eqn:E; simpl.
    + rewrite IH. cbv zeta. simpl.
      unfold failureMessages, failedLine at 2, rejectedLine at 2. simpl.
      now rewrite <- !app_assoc.
    + rewrite IH. cbv zeta. simpl.
      unfold failureMessages, failedLine at 2, rejectedLine at 2. simpl.
      now rewrite <- !app_assoc.
Qed.

(** X6 — reject.  [runE] asks the server to move every named package
    revision to Draft, once each and in the order of the arguments, in the
    namespace of the configuration, and goes on after a failure.  It writes
    "<name> rejected" to the output stream for each UpdatePackageRevisionApproval that succeeded
    and "<name> failed (<error>)" to the error stream for each that failed.
    It returns no error exactly when every UpdatePackageRevisionApproval succeeded; otherwise the
    error of operation "cmdrpkgreject.runE" that lists the messages of the
    failures, in order, one per line. *)
Theorem reject_tries_every_package (r : runner Config Client) args st :
  let namespace := cfg_Namespace (cfg r) in
  let os := outcomes UpdatePackageRevisionApproval r namespace args (server st) in
  let run := runE cfg_Namespace UpdatePackageRevisionApproval r args st in
  fst <$> os = args
  ∧ server (fst run) = serverAfter UpdatePackageRevisionApproval r namespace args (server st)
  ∧ outOrStderr (fst run) = outOrStderr st ++ omap rejectedLine os
  ∧ errOrStderr (fst run) = errOrStderr st ++ omap failedLine os
  ∧ (snd run = None ↔ Forall (fun o => snd o = None) os)
  ∧ (∀ e, snd run = Some e →
          err_Op e = "cmdrpkgreject.runE"
          ∧ err_Err e = "errors:" +:+ newline +:+ "  "
                        +:+ String.concat (newline +:+ "  ")
                              (failureMessages os)).
Proof.
  intros namespace os run.
  split; [apply outcomes_names |].
  unfold run, runE. fold namespace.
  rewrite rejectEach_outcomes. cbv zeta. fold os. simpl app.
  assert (failureMessages os = [] ↔ Forall (fun o => snd o = None) os) as Hnone.
  { unfold failureMessages. clear. induction os as [|[name [err|]] rest IH];
      simpl.
    - split; [done | constructor].
    - split; [discriminate |]. intros H. inversion H; subst. discriminate.
    - rewrite IH. split.
      + intros H. constructor; [done | exact H].
      + intros H. now inversion H. }
  destruct (failureMessages os) as [|m ms] eqn:Em; simpl.
  - do 3 (split; [reflexivity |]). split.
    + split; [intros _; now apply Hnone | reflexivity].
    + intros e H. discriminate H.
  - do 3 (split; [reflexivity |]). split.
    + split; [discriminate |]. intros H. apply Hnone in H. discriminate H.
    + intros e [= <-]. split; reflexivity.
Qed.

End RejectCommand.

(** Rejecting three package revisions of which the second is Published:
    the first and the third are moved to Draft, the failure is reported. *)
Example reject_sample_run :
  Reject.sampleRun
  = ({| Reject.server :=
          [("pkg-a", "Draft"); ("pkg-b", "Published"); ("pkg-c", "Draft")];
        Reject.outOrStderr :=
          ["pkg-a rejected" +:+ Reject.newline;
           "pkg-c rejected" +:+ Reject.newline];
        Reject.errOrStderr :=
          ["pkg-b failed (cannot reject pkg-b with lifecycle Published)"
           +:+ Reject.newline] |},
     Some {| Reject.err_Op := "cmdrpkgreject.runE";
             Reject.err_Err :=
               "errors:" +:+ Reject.newline
               +:+ "  cannot reject pkg-b with lifecycle Published" |}).
Proof. reflexivity. Qed.

Lemma reject_tries_every_package_witness :
  ∃ e,
    snd (Reject.runE (fun _ : unit => "default") Reject.sampleUpdate
           Reject.sampleRunner ["pkg-a"; "pkg-b"; "pkg-c"] Reject.sampleStart)
    = Some e
    ∧ Reject.err_Op e = "cmdrpkgreject.runE".
Proof.
  eexists. split; [reflexivity |].
  exact (proj1 (proj2 (proj2 (proj2 (proj2 (proj2
           (reject_tries_every_package unit unit (list (string * string))
              (fun _ => "default") Reject.sampleUpdate Reject.sampleRunner
              ["pkg-a"; "pkg-b"; "pkg-c"] Reject.sampleStart))))) _
           eq_refl)).
Defined.
